(** * Datadriven-GPVAD: samplers, collation and datasets of [dataset.py]

    A shallow embedding of the two class-balancing samplers
    ([MinimumOccupancySampler], [MultiBalancedSampler]), of the padding
    and collation functions ([pad], [sequential_collate]), of the three
    HDF5 dataset classes ([TrainHDF5Dataset], [HDF5Dataset],
    [EvalH5Dataset]) and of [gettraindataloader] of [dataset.py],
    followed by the properties established about them.

    Conventions of the embedding:
    - Python exceptions are values of [error]; fallible code lives in the
      [result] monad.
    - Example indices are [N]; the working buffer of the minimum-occupancy
      sampler is a [uint32] array, so every store into it is reduced modulo
      [2^32].
    - A pseudo-random generator is a deterministic stream of raw draws with
      a read position; the generator owned by a sampler and numpy's global
      generator are two distinct values of that type, threaded explicitly.
    - Floating-point weights are modelled as exact rationals ([Q]).
    - An HDF5 feature file is the list of its keys with their arrays, a
      label file a finite map from identifiers to label groups, and the
      files that can be opened a finite map from paths; the exceptions of
      the dataset classes are values of [h5.exn], their code lives in the
      [h5.outcome] monad, and a method that assigns to [self] returns the
      object after the call beside its result. *)

From Stdlib Require Import ZArith NArith QArith Qminmax Lia Lqa.
From stdpp Require Import base list strings gmap.

Local Open Scope nat_scope.

(** ** Exceptions *)

Inductive error : Set :=
  | ValueError
  | IndexError
  | AttributeError
  | RuntimeError
  | AssertionError.

Inductive result (A : Type) : Type :=
  | Ok (a : A)
  | Raise (e : error).
Arguments Ok {A} a.
Arguments Raise {A} e.

#[global] Instance result_ret : MRet result := λ A, Ok.
#[global] Instance result_bind : MBind result := λ A B f m,
  match m with Ok a => f a | Raise e => Raise e end.

Definition raises {A} (r : result A) : Prop := ∃ e, r = Raise e.
Definition returns {A} (r : result A) : Prop := ∃ a, r = Ok a.

(** ** Two-dimensional arrays *)

(** A 2-D array keeps its shape next to its rows: with zero rows the number
    of columns cannot be read off the data. *)
Record ndarray (A : Type) : Type := mk_ndarray {
  shape : nat * nat;
  data : list (list A)
}.
Arguments mk_ndarray {A} shape data.
Arguments shape {A} n.
Arguments data {A} n.

Definition wf_ndarray {A} (a : ndarray A) : Prop :=
  length (data a) = (shape a).1 ∧
  Forall (λ r, length r = (shape a).2) (data a).

(** [a[r, c]] *)
Definition cell {A} (cells : list (list A)) (r c : nat) : option A :=
  cells !! r ≫= λ row, row !! c.

(** ** numpy *)

Module np.

(** [np.random.RandomState]: the raw stream fixed by the seed and the number
    of draws consumed so far. *)
Record RandomState : Type := mk_RandomState {
  raw : nat → nat;
  pos : nat
}.

(** One bounded draw in [0, bound). *)
Definition rand_below (g : RandomState) (bound : nat) : nat * RandomState :=
  (raw g (pos g) `mod` bound, mk_RandomState (raw g) (S (pos g))).

(** [RandomState.shuffle]: reorders its argument; every element is placed at
    a drawn position among the ones already placed. *)
Fixpoint shuffle {A} (g : RandomState) (l : list A) : list A * RandomState :=
  match l with
  | [] => ([], g)
  | x :: xs =>
      let '(ys, g1) := shuffle g xs in
      let '(j, g2) := rand_below g1 (S (length ys)) in
      (take j ys ++ x :: drop j ys, g2)
  end.

(** [RandomState.permutation(n)]: a shuffled [arange(n)]. *)
Definition permutation (g : RandomState) (n : nat) : list nat * RandomState :=
  shuffle g (seq 0 n).

Fixpoint draws (g : RandomState) (high size : nat) : list nat * RandomState :=
  match size with
  | 0 => ([], g)
  | S k =>
      let '(x, g1) := rand_below g high in
      let '(xs, g2) := draws g1 high k in
      (x :: xs, g2)
  end.

(** [randint(high, size=size)]: [size] draws in [0, high). An empty request
    returns the empty array before the bounds are looked at; otherwise
    [high <= 0] is a [ValueError]. *)
Definition randint (g : RandomState) (high size : nat)
  : result (list nat * RandomState) :=
  if decide (size = 0) then Ok ([], g)
  else if decide (high = 0) then Raise ValueError
  else Ok (draws g high size).

(** [np.where(v == 1)[0]], positions counted from [i]. *)
Fixpoint where_eq1_from (i : N) (v : list Z) : list N :=
  match v with
  | [] => []
  | x :: xs =>
      if (x =? 1)%Z then i :: where_eq1_from (N.succ i) xs
      else where_eq1_from (N.succ i) xs
  end.

Definition where_eq1 (v : list Z) : list N := where_eq1_from 0%N v.

(** Integer-array indexing [a[idxs]]; an index out of range is an
    [IndexError]. *)
Definition getitem {A} (a : list A) (i : nat) : result A :=
  match a !! i with
  | Some x => Ok x
  | None => Raise IndexError
  end.

Definition take_idx {A} (a : list A) (idxs : list nat) : result (list A) :=
  mapM (getitem a) idxs.

(** [np.concatenate]: refuses an empty sequence of arrays. *)
Definition concatenate {A} (arrs : list (list A)) : result (list A) :=
  match arrs with
  | [] => Raise ValueError
  | _ => Ok (concat arrs)
  end.

(** Conversion of an index to [np.uint32]. *)
Definition to_uint32 (v : N) : N := (v mod 2 ^ 32)%N.

(** [np.empty(shape, dtype=np.uint32)]: the entries are whatever the
    allocated memory [heap] holds. *)
Definition empty_uint32 (sh : nat * nat) (heap : nat → nat → N) : ndarray N :=
  mk_ndarray sh
    ((λ r, (λ c, to_uint32 (heap r c)) <$> seq 0 sh.2) <$> seq 0 sh.1).

(** Values assigned to a slice of [n] entries: same length, or a single
    value broadcast. *)
Definition broadcast_to {A} (n : nat) (vals : list A) : result (list A) :=
  if decide (length vals = n) then Ok vals
  else match vals with
       | [v] => Ok (replicate n v)
       | _ => Raise ValueError
       end.

Fixpoint write_col (r ix : nat) (vals : list N) (cells : list (list N))
  : list (list N) :=
  match vals with
  | [] => cells
  | v :: vs => write_col (S r) ix vs (alter (<[ix := to_uint32 v]>) r cells)
  end.

(** [a[start:stop, ix] = vals] on a [uint32] array. The row slice is clamped
    to the array; the column must exist. *)
Definition assign_col (start stop ix : nat) (vals : list N) (a : ndarray N)
  : result (ndarray N) :=
  if decide ((shape a).2 ≤ ix) then Raise IndexError
  else
    let stop' := stop `min` (shape a).1 in
    vals' ← broadcast_to (stop' - start) vals;
    Ok (mk_ndarray (shape a) (write_col start ix vals' (data a))).

(** [max] of a Python list: empty is a [ValueError]. *)
Definition py_max (l : list nat) : result nat :=
  match l with
  | [] => Raise ValueError
  | x :: xs => Ok (foldr Nat.max x xs)
  end.

Definition enumerate {A} (l : list A) : list (nat * A) :=
  zip (seq 0 (length l)) l.

End np.

(** ** Label matrices *)

(** A label matrix as the samplers receive it: a 2-D array of integers,
    either dense or a scipy sparse matrix holding the same entries. *)
Record LabelMatrix : Type := mk_LabelMatrix {
  entries : ndarray Z;
  issparse : bool
}.

(** [labels[:, lb_idx]] (densified when sparse). *)
Definition column (labels : LabelMatrix) (lb_idx : nat) : list Z :=
  (λ row, default 0%Z (row !! lb_idx)) <$> data (entries labels).

(** Example [i] is active in class [c]: [labels[i, c] == 1]. *)
Definition active (labels : LabelMatrix) (i : N) (c : nat) : Prop :=
  cell (data (entries labels)) (N.to_nat i) c = Some 1%Z.

Definition n_rows (labels : LabelMatrix) : nat := (shape (entries labels)).1.
Definition n_classes (labels : LabelMatrix) : nat := (shape (entries labels)).2.

(** Number of examples active in class [c]. *)
Definition class_count (labels : LabelMatrix) (c : nat) : nat :=
  length (np.where_eq1 (column labels c)).

(** A row with at least one active class. *)
Definition row_active (row : list Z) : Prop := ∃ c, row !! c = Some 1%Z.

(** ** MinimumOccupancySampler *)

Module MinimumOccupancySampler.

Record t : Type := mk {
  labels : LabelMatrix;
  random_state : np.RandomState;
  longest_seq : nat;
  data_source : ndarray N;
  label_to_idx_list : list (list N);
  label_to_length : list nat;
  (** [None]: the attribute was never set. *)
  data_length : option nat
}.

(** First loop of [__init__]: per class, the shuffled indices of its active
    examples and their number. *)
Fixpoint collect (labels : LabelMatrix) (rs : np.RandomState)
    (lb_idxs : list nat) : list (list N) * list nat * np.RandomState :=
  match lb_idxs with
  | [] => ([], [], rs)
  | lb_idx :: rest =>
      let label_selection := column labels lb_idx in
      let label_indexes := np.where_eq1 label_selection in
      let '(label_indexes, rs1) := np.shuffle rs label_indexes in
      let '(idx_lists, lengths, rs2) := collect labels rs1 rest in
      (label_indexes :: idx_lists, length label_indexes :: lengths, rs2)
  end.

(** Second loop of [__init__]: the "real" samples fill the head of each
    column. *)
Fixpoint fill (label_to_idx_list : list (list N)) (items : list (nat * nat))
    (data_source : ndarray N) : result (ndarray N) :=
  match items with
  | [] => Ok data_source
  | (ix, leng) :: rest =>
      vals ← np.getitem label_to_idx_list ix;
      data_source' ← np.assign_col 0 leng ix vals data_source;
      fill label_to_idx_list rest data_source'
  end.

(** [random_state] is the generator [np.random.RandomState(seed=...)] built
    from the seed argument; [heap] is the content of the memory handed out
    by [np.empty]. *)
Definition __init__ (labels : LabelMatrix) (sampling_mode : string)
    (random_state : np.RandomState) (heap : nat → nat → N) : result t :=
  let '(data_samples, n_labels) := shape (entries labels) in
  let '(label_to_idx_list, label_to_length, random_state) :=
    collect labels random_state (seq 0 n_labels) in
  longest_seq ← np.py_max label_to_length;
  let data_source :=
    np.empty_uint32 (longest_seq, length label_to_length) heap in
  data_source ← fill label_to_idx_list (np.enumerate label_to_length)
                  data_source;
  let data_length :=
    if String.eqb sampling_mode "same" then Some data_samples
    else if String.eqb sampling_mode "over" then
      Some ((shape data_source).1 * (shape data_source).2)
    else None in
  Ok (mk labels random_state longest_seq data_source label_to_idx_list
        label_to_length data_length).

(** Loop of [_reshuffle]; [g] is numpy's global generator ([np.random]). *)
Fixpoint reshuffle_loop (longest_seq : nat) (label_to_idx_list : list (list N))
    (items : list (nat * nat)) (data_source : ndarray N) (g : np.RandomState)
  : result (ndarray N * np.RandomState) :=
  match items with
  | [] => Ok (data_source, g)
  | (ix, leng) :: rest =>
      let leftover := longest_seq - leng in
      '(random_idxs, g1) ← np.randint g leng leftover;
      idx_list ← np.getitem label_to_idx_list ix;
      vals ← np.take_idx idx_list random_idxs;
      data_source' ←
        np.assign_col leng (shape data_source).1 ix vals data_source;
      reshuffle_loop longest_seq label_to_idx_list rest data_source' g1
  end.

Definition set_data_source (self : t) (d : ndarray N) : t :=
  mk (labels self) (random_state self) (longest_seq self) d
     (label_to_idx_list self) (label_to_length self) (data_length self).

Definition set_random_state (self : t) (rs : np.RandomState) : t :=
  mk (labels self) rs (longest_seq self) (data_source self)
     (label_to_idx_list self) (label_to_length self) (data_length self).

Definition _reshuffle (self : t) (g : np.RandomState)
  : result (t * np.RandomState) :=
  '(d, g1) ← reshuffle_loop (longest_seq self) (label_to_idx_list self)
               (np.enumerate (label_to_length self)) (data_source self) g;
  Ok (set_data_source self d, g1).

Definition get_data_length (self : t) : result nat :=
  match data_length self with
  | Some n => Ok n
  | None => Raise AttributeError
  end.

(** Returns the emitted index stream, the sampler after the call and the
    global generator after the call. *)
Definition __iter__ (self : t) (g : np.RandomState)
  : result (list N * t * np.RandomState) :=
  '(self1, g1) ← _reshuffle self g;
  let n_samples := (shape (data_source self1)).1 in
  let '(random_indices, rs1) :=
    np.permutation (random_state self1) n_samples in
  let self2 := set_random_state self1 rs1 in
  rows ← np.take_idx (data (data_source self2)) random_indices;
  flat ← np.concatenate rows;
  n ← get_data_length self2;
  Ok (take n flat, self2, g1).

Definition __len__ (self : t) : result nat := get_data_length self.

End MinimumOccupancySampler.

(** ** torch *)

Module torch.

(** A 3-D tensor, shape kept next to the entries. *)
Record tensor3 : Type := mk_tensor3 {
  shape3 : nat * nat * nat;
  data3 : list (list (list Q))
}.

(** [torch.full((b, t, d), fill_value)] *)
Definition full (sh : nat * nat * nat) (fill_value : Q) : tensor3 :=
  let '(b, t, d) := sh in
  mk_tensor3 sh (replicate b (replicate t (replicate d fill_value))).

(** [torch.stack] of 1-D tensors: needs at least one tensor, all of one
    size. *)
Definition stack (ts : list (list Q)) : result (ndarray Q) :=
  match ts with
  | [] => Raise RuntimeError
  | t0 :: _ =>
      if decide (Forall (λ t, length t = length t0) ts)
      then Ok (mk_ndarray (length ts, length t0) ts)
      else Raise RuntimeError
  end.

Definition Qsum (l : list Q) : Q := foldr Qplus 0%Q l.

(** Inverse-CDF selection: the first category whose cumulated weight
    exceeds [u]. *)
Fixpoint pick (ws : list Q) (u : Q) : nat :=
  match ws with
  | [] => 0
  | w :: ws' => if Qlt_le_dec u w then 0 else S (pick ws' (u - w)%Q)
  end.

(** A draw in [0, total), with 24 bits of resolution. *)
Definition uniform (g : np.RandomState) (total : Q) : Q * np.RandomState :=
  let k := (Z.of_nat (np.raw g (np.pos g)) mod 2 ^ 24)%Z in
  ((total * (k # 2 ^ 24))%Q, np.mk_RandomState (np.raw g) (S (np.pos g))).

Fixpoint multinomial_loop (ws : list Q) (n : nat) (replacement : bool)
    (g : np.RandomState) : result (list nat * np.RandomState) :=
  match n with
  | 0 => Ok ([], g)
  | S k =>
      let total := Qsum ws in
      if Qlt_le_dec 0 total then
        let '(u, g1) := uniform g total in
        let i := pick ws u in
        let ws' := if replacement then ws else <[i := 0%Q]> ws in
        '(rest, g2) ← multinomial_loop ws' k replacement g1;
        Ok (i :: rest, g2)
      else Raise RuntimeError
  end.

(** [torch.multinomial(weights, num_samples, replacement)]: indices drawn
    with probability proportional to [weights]; without replacement a
    drawn category is taken out. Negative weights, a request for no sample,
    or for more samples than categories without replacement, are refused. *)
Definition multinomial (weights : list Q) (num_samples : nat)
    (replacement : bool) (g : np.RandomState)
  : result (list nat * np.RandomState) :=
  if decide (num_samples = 0) then Raise RuntimeError
  else if forallb (Qle_bool 0) weights then
    if decide (replacement = false ∧ length weights < num_samples)
    then Raise RuntimeError
    else multinomial_loop weights num_samples replacement g
  else Raise RuntimeError.

End torch.

(** ** MultiBalancedSampler *)

Module MultiBalancedSampler.

Record t : Type := mk {
  _weights : list Q;
  _len : nat;
  _replacement : bool
}.

(** [np.sum(Y, axis=0)] *)
Definition sum_axis0 (Y : LabelMatrix) : list Z :=
  (λ c, foldr Z.add 0%Z (column Y c)) <$> seq 0 (n_classes Y).

(** [classes.compress(idx)]: the classes at the non-zero entries of a row. *)
Fixpoint compress (classes : list nat) (idx : list Z) : list nat :=
  match classes, idx with
  | c :: cs, x :: xs =>
      if (x =? 0)%Z then compress cs xs else c :: compress cs xs
  | _, _ => []
  end.

(** [np.mean] *)
Definition mean (l : list Q) : Q :=
  (torch.Qsum l / inject_Z (Z.of_nat (length l)))%Q.

(** Sampling weight of one example from the ids of its classes; an empty
    tuple of ids is no integer index array. *)
Definition sample_weight (class_weights : list Q) (ids : list nat)
  : result Q :=
  match ids with
  | [] => Raise IndexError
  | _ => weight ← np.take_idx class_weights ids; Ok (mean weight)
  end.

(** [replacement = None] and [num_samples = None] stand for an argument left
    out at the call. *)
Definition __init__ (Y : LabelMatrix) (replacement : option bool)
    (num_samples : option nat) : result t :=
  let replacement := default false replacement in
  if issparse Y then Raise ValueError
  else
    let class_counts := sum_axis0 Y in
    let class_weights := (λ c, (1 / inject_Z c)%Q) <$> class_counts in
    let total := torch.Qsum class_weights in
    let class_weights := (λ w, (w / total)%Q) <$> class_weights in
    row0 ← np.getitem (data (entries Y)) 0;
    let classes := seq 0 (length row0) in
    let class_ids := compress classes <$> data (entries Y) in
    sample_weights ← mapM (sample_weight class_weights) class_ids;
    let len :=
      match num_samples with
      | Some (S n) => S n
      | _ => length (data (entries Y))
      end in
    Ok (mk sample_weights len replacement).

Definition __len__ (self : t) : nat := _len self.

(** [g] is torch's default generator. *)
Definition __iter__ (self : t) (g : np.RandomState)
  : result (list nat * np.RandomState) :=
  torch.multinomial (_weights self) (_len self) (_replacement self) g.

End MultiBalancedSampler.

(** ** Padding and collation *)

(** One example as a dataset returns it: feature sequence [time, dim], frame
    targets, clip target, identifier. *)
Definition example : Type := ndarray Q * ndarray Q * list Q * string.

(** The right-hand side [tensor[:length, ...]] broadcast to [data_dim]
    columns. *)
Definition broadcast_rows (data_dim : nat) (tensor : ndarray Q)
  : result (list (list Q)) :=
  if decide ((shape tensor).2 = data_dim) then Ok (data tensor)
  else if decide ((shape tensor).2 = 1)
  then Ok ((λ row, replicate data_dim (default 0%Q (row !! 0)))
             <$> data tensor)
  else Raise RuntimeError.

(** Loop of [pad]: [out_tensor[i, :length, ...] = tensor[:length, ...]]. *)
Fixpoint pad_loop (data_dim : nat) (items : list (nat * ndarray Q))
    (out : list (list (list Q))) : result (list (list (list Q))) :=
  match items with
  | [] => Ok out
  | (i, tensor) :: rest =>
      let length := (shape tensor).1 in
      rows ← broadcast_rows data_dim tensor;
      pad_loop data_dim rest
        (alter (λ m, take length rows ++ drop length m) i out)
  end.

Definition pad (tensorlist : list (ndarray Q)) (padding_value : Q)
  : result (torch.tensor3 * list nat) :=
  let lengths := (λ f, (shape f).1) <$> tensorlist in
  max_len ← np.py_max lengths;
  let batch_dim := length lengths in
  first ← np.getitem tensorlist 0;
  let data_dim := (shape first).2 in
  let out_tensor := torch.full (batch_dim, max_len, data_dim) padding_value in
  out ← pad_loop data_dim (np.enumerate tensorlist) (torch.data3 out_tensor);
  Ok (torch.mk_tensor3 (torch.shape3 out_tensor) out, lengths).

(** The batch list transposed ([zip] over the unpacked batches) and bound
    to four names: nothing to unpack from an empty batch list. *)
Definition unzip4 (batches : list example)
  : result (list (ndarray Q) * list (ndarray Q) * list (list Q) * list string) :=
  match batches with
  | [] => Raise ValueError
  | _ => Ok ((λ b, b.1.1.1) <$> batches, (λ b, b.1.1.2) <$> batches,
             (λ b, b.1.2) <$> batches, snd <$> batches)
  end.

Record batch : Type := mk_batch {
  b_data : torch.tensor3;
  b_targets_time : torch.tensor3;
  b_targets_clip : ndarray Q;
  b_fnames : list string;
  b_lengths : list nat
}.

Definition sequential_collate (batches : list example) : result batch :=
  '(data, targets_time, targets_clip, fnames) ← unzip4 batches;
  '(data, lengths_data) ← pad data 0%Q;
  '(targets_time, lengths_tar) ← pad targets_time 0%Q;
  targets_clip ← torch.stack targets_clip;
  (* assert lengths_data.shape == lengths_tar.shape *)
  if decide (length lengths_data = length lengths_tar)
  then Ok (mk_batch data targets_time targets_clip fnames lengths_tar)
  else Raise AssertionError.

(** Driving a sampler for [k] epochs, as a loader does: the streams of the
    successive [__iter__] calls. *)
Fixpoint epochs (k : nat) (self : MinimumOccupancySampler.t)
    (g : np.RandomState)
  : result (list (list N) * MinimumOccupancySampler.t * np.RandomState) :=
  match k with
  | 0 => Ok ([], self, g)
  | S k' =>
      '(stream, self1, g1) ← MinimumOccupancySampler.__iter__ self g;
      '(streams, self2, g2) ← epochs k' self1 g1;
      Ok (stream :: streams, self2, g2)
  end.

(** * The datasets and the training loader *)

(** ** HDF5 stores *)

Module h5.

(** Exceptions of the dataset classes: those of the stores and of Python's
    containers, beside the ones of numpy and torch. *)
Inductive exn : Set :=
  | KeyError
  | OSError
  | TypeError
  | StopIteration
  | Err (e : error).

Inductive outcome (A : Type) : Type :=
  | Return (a : A)
  | Throw (e : exn).
Arguments Return {A} a.
Arguments Throw {A} e.

#[global] Instance outcome_ret : MRet outcome := λ A, Return.
#[global] Instance outcome_bind : MBind outcome := λ A B f m,
  match m with Return a => f a | Throw e => Throw e end.

Definition lift {A} (r : result A) : outcome A :=
  match r with Ok a => Return a | Raise e => Throw (Err e) end.

(** A Python [dict] with string keys, in insertion order. *)
Fixpoint dict_lookup {V} (d : list (string * V)) (k : string) : option V :=
  match d with
  | [] => None
  | (k', v) :: d' => if decide (k' = k) then Some v else dict_lookup d' k
  end.

(** [d[k]] *)
Definition dict_get {V} (d : list (string * V)) (k : string) : outcome V :=
  match dict_lookup d k with
  | Some v => Return v
  | None => Throw KeyError
  end.

(** [l[i]] on a Python list: a negative index counts from the end. *)
Definition list_get {A} (l : list A) (i : Z) : outcome A :=
  let n := Z.of_nat (length l) in
  let j := if (i <? 0)%Z then (n + i)%Z else i in
  if (j <? 0)%Z then Throw (Err IndexError)
  else match l !! Z.to_nat j with
       | Some x => Return x
       | None => Throw (Err IndexError)
       end.

(** A file of feature arrays, one [time, dim] array per key, in the order
    the file lists its keys. *)
Definition datastore : Type := list (string * ndarray Q).

(** The group of label arrays a label file keeps under one identifier; a
    member that is absent is [None]. *)
Record label_group : Type := mk_label_group {
  speech : option (list Q);
  noise : option (list Q);
  clipspeech : option Q;
  clipnoise : option (list Q)
}.

Definition labelstore : Type := gmap string label_group.

(** The files that can be opened, by path: feature files and label
    files. *)
Record filesystem : Type := mk_filesystem {
  data_files : gmap string datastore;
  label_files : gmap string labelstore
}.

(** [File(path, 'r')] on a feature file, and on a label file. *)
Definition open_data (fs : filesystem) (path : string) : outcome datastore :=
  match data_files fs !! path with
  | Some store => Return store
  | None => Throw OSError
  end.

Definition open_labels (fs : filesystem) (path : string)
  : outcome labelstore :=
  match label_files fs !! path with
  | Some store => Return store
  | None => Throw OSError
  end.

(** [store[key][()]] *)
Definition get_data (store : datastore) (key : string)
  : outcome (ndarray Q) := dict_get store key.

(** [labelstore[f"{fname}/member"][()]] *)
Definition get_label {A} (store : labelstore) (fname : string)
    (member : label_group → option A) : outcome A :=
  match store !! fname ≫= member with
  | Some v => Return v
  | None => Throw KeyError
  end.

(** [np.max] of a 1-D array. *)
Definition np_max (a : list Q) : result Q :=
  match a with
  | [] => Raise ValueError
  | x :: xs => Ok (foldr Qmax x xs)
  end.

(** [np.stack((a, b), axis=-1)] of two 1-D arrays. *)
Definition np_stack_last (a b : list Q) : result (ndarray Q) :=
  if decide (length a = length b)
  then Ok (mk_ndarray (length a, 2) (zip_with (λ x y, [x; y]) a b))
  else Raise ValueError.

(** The body shared by [TrainHDF5Dataset.__getitem__] and
    [HDF5Dataset.__getitem__] once the stores are at hand; a label store
    that was never opened is [None]. *)
Definition read_example (datastore : datastore)
    (labelstore : option labelstore)
    (transform : option (ndarray Q → ndarray Q)) (fname : string)
  : outcome example :=
  data ← get_data datastore fname;
  labelstore ← match labelstore with
               | Some ls => mret ls
               | None => Throw TypeError
               end;
  speech_target ← get_label labelstore fname speech;
  noise_target ← get_label labelstore fname noise;
  speech_clip_target ← get_label labelstore fname clipspeech;
  noise_clip_target ← get_label labelstore fname clipnoise;
  noise_clip_target ← lift (np_max noise_clip_target);
  let target_clip := [noise_clip_target; speech_clip_target] in
  target_time ← lift (np_stack_last noise_target speech_target);
  let data := match transform with
              | Some f => f data
              | None => data
              end in
  mret (data, target_time, target_clip, fname).

End h5.

(** ** TrainHDF5Dataset *)

Module TrainHDF5Dataset.

Record t : Type := mk {
  _h5filedict : list (string * string);
  _h5labeldict : list (string * string);
  _len : nat;
  _transform : option (ndarray Q → ndarray Q);
  (** The items by index: the keys of [_h5labeldict] in order. *)
  idx_to_item : list string;
  datadim : nat
}.

Definition __init__ (fs : h5.filesystem) (h5filedict h5labeldict
    : list (string * string)) (transform : option (ndarray Q → ndarray Q))
  : h5.outcome t :=
  first_item ← match h5filedict with
               | [] => h5.Throw h5.StopIteration
               | (k, _) :: _ => mret k
               end;
  path ← h5.dict_get h5filedict first_item;
  store ← h5.open_data fs path;
  arr ← h5.get_data store first_item;
  mret (mk h5filedict h5labeldict (length h5labeldict) transform
          h5labeldict.*1 (shape arr).2).

Definition __len__ (self : t) : nat := _len self.

(** [self.idx_to_item[index]]: the keys of that dict are [0 .. len-1]. *)
Definition item_at (self : t) (index : Z) : h5.outcome string :=
  if (index <? 0)%Z then h5.Throw h5.KeyError
  else match idx_to_item self !! Z.to_nat index with
       | Some fname => mret fname
       | None => h5.Throw h5.KeyError
       end.

Definition __getitem__ (self : t) (fs : h5.filesystem) (index : Z)
  : h5.outcome example :=
  fname ← item_at self index;
  h5file ← h5.dict_get (_h5filedict self) fname;
  labelh5file ← h5.dict_get (_h5labeldict self) fname;
  datastore ← h5.open_data fs h5file;
  labelstore ← h5.open_labels fs labelh5file;
  h5.read_example datastore (Some labelstore) (_transform self) fname.

End TrainHDF5Dataset.

(** ** HDF5Dataset *)

Module HDF5Dataset.

Record t : Type := mk {
  _h5file : string;
  _h5label : string;
  fnames : list string;
  dataset : option h5.datastore;
  label_dataset : option h5.labelstore;
  _len : nat;
  _transform : option (ndarray Q → ndarray Q);
  datadim : nat
}.

Definition __init__ (fs : h5.filesystem) (h5file h5label : string)
    (fnames : list string) (transform : option (ndarray Q → ndarray Q))
  : h5.outcome t :=
  store ← h5.open_data fs h5file;
  labelstore ← h5.open_labels fs h5label;
  first ← h5.list_get fnames 0;
  arr ← h5.get_data store first;
  mret (mk h5file h5label fnames None None (length fnames) transform
          (shape arr).2).

Definition __len__ (self : t) : nat := _len self.

Definition set_dataset (self : t) (d : h5.datastore) : t :=
  mk (_h5file self) (_h5label self) (fnames self) (Some d)
     (label_dataset self) (_len self) (_transform self) (datadim self).

Definition set_label_dataset (self : t) (l : h5.labelstore) : t :=
  mk (_h5file self) (_h5label self) (fnames self) (dataset self)
     (Some l) (_len self) (_transform self) (datadim self).

(** The two assignments under [if self.dataset is None]; the object keeps
    what was assigned before an exception. *)
Definition open_handles (self : t) (fs : h5.filesystem)
  : h5.outcome unit * t :=
  match dataset self with
  | Some _ => (mret (), self)
  | None =>
      match h5.open_data fs (_h5file self) with
      | h5.Throw e => (h5.Throw e, self)
      | h5.Return d =>
          let self1 := set_dataset self d in
          match h5.open_labels fs (_h5label self) with
          | h5.Throw e => (h5.Throw e, self1)
          | h5.Return l => (mret (), set_label_dataset self1 l)
          end
      end
  end.

(** Returns the example or the exception, and the object after the
    call. *)
Definition __getitem__ (self : t) (fs : h5.filesystem) (index : Z)
  : h5.outcome example * t :=
  let '(opened, self1) := open_handles self fs in
  (_ ← opened;
   fname ← h5.list_get (fnames self1) index;
   match dataset self1 with
   | Some d => h5.read_example d (label_dataset self1) (_transform self1) fname
   | None => h5.Throw h5.TypeError
   end, self1).

End HDF5Dataset.

(** ** EvalH5Dataset *)

Module EvalH5Dataset.

Record t : Type := mk {
  _h5file : string;
  _dataset : option h5.datastore;
  fnames : list string;
  datadim : nat;
  _len : nat
}.

Definition __init__ (fs : h5.filesystem) (h5file : string) : h5.outcome t :=
  store ← h5.open_data fs h5file;
  let fnames := store.*1 in
  first ← h5.list_get fnames 0;
  arr ← h5.get_data store first;
  mret (mk h5file None fnames (shape arr).2 (length store)).

Definition __len__ (self : t) : nat := _len self.

Definition __getitem__ (self : t) (fs : h5.filesystem) (index : Z)
  : h5.outcome (ndarray Q * string) * t :=
  match
    match _dataset self with
    | Some d => h5.Return (d, self)
    | None =>
        d ← h5.open_data fs (_h5file self);
        mret (d, mk (_h5file self) (Some d) (fnames self) (datadim self)
                   (_len self))
    end
  with
  | h5.Throw e => (h5.Throw e, self)
  | h5.Return (d, self1) =>
      (fname ← h5.list_get (fnames self1) index;
       data ← h5.get_data d fname;
       mret (data, fname), self1)
  end.

End EvalH5Dataset.

(** ** The loaders *)

(** A [DataLoader] as far as one batch goes: the dataset and the collation
    hook it was built with. *)
Record TrainLoader : Type := mk_TrainLoader {
  tl_dataset : TrainHDF5Dataset.t;
  tl_collate_fn : list example → result batch
}.

Definition gettraindataloader (fs : h5.filesystem)
    (h5files h5labels : list (string * string))
    (transform : option (ndarray Q → ndarray Q)) : h5.outcome TrainLoader :=
  dset ← TrainHDF5Dataset.__init__ fs h5files h5labels transform;
  mret (mk_TrainLoader dset sequential_collate).

(** What the loader does with the indices of one batch: fetch each example
    from the dataset, then call the collation hook on the list. *)
Definition train_batch (loader : TrainLoader) (fs : h5.filesystem)
    (indices : list Z) : h5.outcome batch :=
  examples ← mapM (TrainHDF5Dataset.__getitem__ (tl_dataset loader) fs)
                indices;
  h5.lift (tl_collate_fn loader examples).

(** * Vocabulary of the properties *)

Section vocabulary.

Import MinimumOccupancySampler.

(** What every constructed sampler satisfies, and every call keeps: the
    per-class lists are reorderings of the active examples, the buffer has
    one row per slot of the most frequent class, and the head of column [c]
    holds the list of class [c]. *)
Record inv (s : t) : Prop := mk_inv {
  inv_lengths : label_to_length s = length <$> label_to_idx_list s;
  inv_classes :
    length (label_to_idx_list s) = n_classes (labels s);
  inv_perm : ∀ c l, label_to_idx_list s !! c = Some l →
    l ≡ₚ np.where_eq1 (column (labels s) c);
  inv_longest : np.py_max (label_to_length s) = Ok (longest_seq s);
  inv_shape :
    shape (data_source s) = (longest_seq s, n_classes (labels s));
  inv_wf : wf_ndarray (data_source s);
  inv_head : ∀ c l r v, label_to_idx_list s !! c = Some l →
    l !! r = Some v →
    cell (data (data_source s)) r c = Some (np.to_uint32 v)
}.

(** Every slot of the buffer holds (the [uint32] image of) a member of its
    column's class list. *)
Definition filled (s : t) : Prop :=
  ∀ r c, r < longest_seq s → c < n_classes (labels s) →
    ∃ l v, label_to_idx_list s !! c = Some l ∧ v ∈ l ∧
           cell (data (data_source s)) r c = Some (np.to_uint32 v).

(** The value of [data_length] the constructor computes from the buffer it
    built. *)
Definition mode_length (labels : LabelMatrix) (longest : nat)
    (sampling_mode : string) : option nat :=
  if String.eqb sampling_mode "same" then Some (n_rows labels)
  else if String.eqb sampling_mode "over"
  then Some (longest * n_classes labels)
  else None.

(** No class list is empty. *)
Definition nonempty (s : t) : Prop :=
  ∀ c l, label_to_idx_list s !! c = Some l → 0 < length l.

(** Indicator of an active entry. *)
Definition ind (x : Z) : nat := if (x =? 1)%Z then 1 else 0.

(** Every class has an active example. *)
Definition classes_occupied (labels : LabelMatrix) : Prop :=
  ∀ c, c < n_classes labels → ∃ i, active labels i c.

(** Largest class count of a label matrix. *)
Definition max_class_count (labels : LabelMatrix) : nat :=
  foldr Nat.max 0 (class_count labels <$> seq 0 (n_classes labels)).

(** What one emitted stream looks like, for a sampler configured to emit
    [n] indices. *)
Definition stream_ok (labels : LabelMatrix) (n : nat) (stream : list N)
  : Prop :=
  length stream = n `min` (max_class_count labels * n_classes labels) ∧
  (∀ x, x ∈ stream → ∃ v c, active labels v c ∧ x = np.to_uint32 v) ∧
  (n_classes labels ≤ n → ∀ c, c < n_classes labels →
     ∃ v, active labels v c ∧ np.to_uint32 v ∈ stream).

(** The length the specification gives a sampler: the number of rows in
    mode "same", longest class count times number of classes in mode
    "over". *)
Definition expected_length (labels : LabelMatrix) (sampling_mode : string)
  : option nat :=
  if String.eqb sampling_mode "same" then Some (n_rows labels)
  else if String.eqb sampling_mode "over"
  then Some (max_class_count labels * n_classes labels)
  else None.

(** A dense label matrix from its shape and rows. *)
Definition dense (sh : nat * nat) (rows : list (list Z)) : LabelMatrix :=
  mk_LabelMatrix (mk_ndarray sh rows) false.

(** Three examples, two classes; class 1 is one example short of class 0. *)
Definition labels_3x2 : LabelMatrix := dense (3, 2) [[1; 1]; [1; 1]; [1; 0]]%Z.


(** Two examples, two classes; class 1 is one example short of class 0. *)
Definition labels_2x2 : LabelMatrix := dense (2, 2) [[1; 1]; [1; 0]]%Z.

(** Three examples, two classes, class 1 has no example. *)
Definition labels_empty_class : LabelMatrix :=
  dense (3, 2) [[1; 0]; [1; 0]; [1; 0]]%Z.

(** Two generator states, and a memory content for [np.empty]. *)
Definition gen_zeros : np.RandomState := np.mk_RandomState (λ _, 0) 0.
Definition gen_ones : np.RandomState := np.mk_RandomState (λ _, 1) 0.
Definition heap_sevens : nat → nat → N := λ _ _, 7%N.

(** The samplers obtained from [s0] by any sequence of [_reshuffle] and
    [__iter__] calls. *)
Inductive reachable (s0 : t) : t → Prop :=
  | reach_start : reachable s0 s0
  | reach_reshuffle s g s' g' :
      reachable s0 s → _reshuffle s g = Ok (s', g') → reachable s0 s'
  | reach_iter s g stream s' g' :
      reachable s0 s → __iter__ s g = Ok (stream, s', g') → reachable s0 s'.

(** Slot [r] of column [c] holds the index of an example active in [c]. *)
Definition slot_ok (labels : LabelMatrix) (s : t) (r c : nat) : Prop :=
  ∃ i, cell (data (data_source s)) r c = Some i ∧ active labels i c.

(** The head of every column: as many slots as the class has examples. *)
Definition head_ok (labels : LabelMatrix) (s : t) : Prop :=
  ∀ c r, c < n_classes labels → r < class_count labels c →
    slot_ok labels s r c.

(** Every slot of every column. *)
Definition buffer_ok (labels : LabelMatrix) (s : t) : Prop :=
  shape (data_source s) = (max_class_count labels, n_classes labels) ∧
  ∀ c r, c < n_classes labels → r < max_class_count labels →
    slot_ok labels s r c.


(** Every entry is 0 or 1. *)
Definition binary (Y : LabelMatrix) : Prop :=
  Forall (Forall (λ x, x = 0%Z ∨ x = 1%Z)) (data (entries Y)).

(** Inverse frequency of class [c], and its share among all classes. *)
Definition inv_freq (Y : LabelMatrix) (c : nat) : Q :=
  (1 / inject_Z (Z.of_nat (class_count Y c)))%Q.

Definition class_weight (Y : LabelMatrix) (c : nat) : Q :=
  (inv_freq Y c / torch.Qsum (inv_freq Y <$> seq 0 (n_classes Y)))%Q.

(** The weight the sampler gives an example with label row [row]. *)
Definition weight_of (Y : LabelMatrix) (row : list Z) : Q :=
  MultiBalancedSampler.mean
    (class_weight Y <$>
     MultiBalancedSampler.compress (seq 0 (n_classes Y)) row).

(** Three examples, two classes, one class per example. *)
Definition labels_3x2_onehot : LabelMatrix :=
  dense (3, 2) [[1; 0]; [1; 0]; [0; 1]]%Z.

(** Time length of a feature sequence or of a frame-target sequence. *)
Definition time_length (t : ndarray Q) : nat := (shape t).1.

(** The components of an example. *)
Definition ex_data (e : example) : ndarray Q := e.1.1.1.
Definition ex_target (e : example) : ndarray Q := e.1.1.2.
Definition ex_clip (e : example) : list Q := e.1.2.

(** An example of the data model with feature dimension [d]: a [time, d]
    feature sequence, [time, 2] frame targets of the same time length, and
    a clip target of two entries. *)
Definition wf_example (d : nat) (e : example) : Prop :=
  wf_ndarray (ex_data e) ∧ (shape (ex_data e)).2 = d ∧
  wf_ndarray (ex_target e) ∧ (shape (ex_target e)).2 = 2 ∧
  time_length (ex_target e) = time_length (ex_data e) ∧
  length (ex_clip e) = 2.

(** The rows of one example after padding to [max_len] rows of [d]
    entries. *)
Definition padded (max_len d : nat) (pv : Q) (t : ndarray Q) : list (list Q) :=
  data t ++ replicate (max_len - time_length t) (replicate d pv).

(** A constant tensor of shape [n, d]. *)
Definition const_tensor (n d : nat) (v : Q) : ndarray Q :=
  mk_ndarray (n, d) (replicate n (replicate d v)).

(** An example of the data model with [n] frames of [d] features. *)
Definition const_example (n d : nat) (fname : string) : example :=
  (const_tensor n d 1%Q, const_tensor n 2 1%Q, [0%Q; 1%Q], fname).

(** The batch of the specification: time lengths 3, 7, 5 and feature
    dimension 4. *)
Definition batch_3_7_5 : list example :=
  [const_example 3 4 "a"; const_example 7 4 "b"; const_example 5 4 "c"].

(** Three frames of features against two frames of targets. *)
Definition mismatched_example : example :=
  (const_tensor 3 1 1%Q, const_tensor 2 2 1%Q, [0%Q; 1%Q], "a"%string).

End vocabulary.

Section vocabulary_2.
Import MinimumOccupancySampler.

(** All classes count as many examples: no column needs oversampling. *)
Definition balanced_classes (labels : LabelMatrix) : Prop :=
  ∀ c, c < n_classes labels → class_count labels c = max_class_count labels.

(** One example with an active class, two without. *)
Definition labels_zero_rows : LabelMatrix := dense (3, 1) [[1]; [0]; [0]]%Z.

(** Two examples, two classes, one example per class. *)
Definition labels_identity : LabelMatrix := dense (2, 2) [[1; 0]; [0; 1]]%Z.

End vocabulary_2.

Section vocabulary_3.

(** A row whose only non-zero entry is a 1 in class [c]. *)
Definition one_hot (row : list Z) (c : nat) : Prop :=
  ∀ c', row !! c' = Some 1%Z ↔ c' = c.


End vocabulary_3.

Section vocabulary_4.

(** The feature dimension of [t] can be written into a tensor allocated for
    the feature dimension of [first]: equal, or 1 and broadcast. *)
Definition fits (first t : ndarray Q) : Prop :=
  (shape t).2 = (shape first).2 ∨ (shape t).2 = 1.

(** The batches [sequential_collate] accepts: at least one example, and
    every example fits the first one in feature dimension, target dimension
    and clip-target size. *)
Definition collatable (batches : list example) : Prop :=
  ∃ e0, head batches = Some e0 ∧
    Forall (λ e, fits (ex_data e0) (ex_data e) ∧
                 fits (ex_target e0) (ex_target e) ∧
                 length (ex_clip e) = length (ex_clip e0)) batches.

End vocabulary_4.

Section vocabulary_5.

(** [m] is the largest entry of [l]. *)
Definition is_max (m : Q) (l : list Q) : Prop :=
  m ∈ l ∧ ∀ x, x ∈ l → (x <= m)%Q.

(** The stores hold a complete example of feature dimension [d] under
    [fname]: a [time, d] feature array, frame labels of that time length
    for speech and noise, a clip label for speech and at least one for
    noise. *)
Definition stored_example (d : nat) (ds : h5.datastore) (ls : h5.labelstore)
    (fname : string) (arr : ndarray Q) (sp no : list Q) (cs : Q)
    (cn : list Q) : Prop :=
  h5.dict_lookup ds fname = Some arr ∧
  wf_ndarray arr ∧ (shape arr).2 = d ∧
  ls !! fname =
    Some (h5.mk_label_group (Some sp) (Some no) (Some cs) (Some cn)) ∧
  length sp = (shape arr).1 ∧ length no = (shape arr).1 ∧ cn ≠ [].

(** A transform that keeps the shape of a feature array; no transform at
    all counts. *)
Definition shape_preserving (transform : option (ndarray Q → ndarray Q))
  : Prop :=
  ∀ f, transform = Some f →
    ∀ a, wf_ndarray a → wf_ndarray (f a) ∧ shape (f a) = shape a.

(** The transform as a function. *)
Definition apply_transform (transform : option (ndarray Q → ndarray Q))
    (a : ndarray Q) : ndarray Q :=
  match transform with Some f => f a | None => a end.

(** Under the dicts [fdict] and [ldict] and the files of [fs], the
    identifier [fname] leads to a complete example of feature dimension
    [d]. *)
Definition resolves (d : nat) (fs : h5.filesystem)
    (fdict ldict : list (string * string)) (fname : string) : Prop :=
  ∃ p q ds ls arr sp no cs cn,
    h5.dict_lookup fdict fname = Some p ∧
    h5.dict_lookup ldict fname = Some q ∧
    h5.data_files fs !! p = Some ds ∧ h5.label_files fs !! q = Some ls ∧
    stored_example d ds ls fname arr sp no cs cn.

(** Two stored examples, "a" of three frames and "b" of two, with four
    features; their label groups; the two files; the dicts of a training
    set. *)
Definition store_ab : h5.datastore :=
  [("a"%string, const_tensor 3 4 1%Q); ("b"%string, const_tensor 2 4 2%Q)].

Definition group_of (n : nat) : h5.label_group :=
  h5.mk_label_group (Some (replicate n 1%Q)) (Some (replicate n 0%Q))
    (Some (7 # 10)%Q) (Some [2 # 10; 9 # 10; 1 # 10]%Q).

Definition labels_ab : h5.labelstore :=
  {[ "a"%string := group_of 3; "b"%string := group_of 2 ]}.

Definition files_ab : h5.filesystem :=
  h5.mk_filesystem {[ "d.h5"%string := store_ab ]}
                   {[ "l.h5"%string := labels_ab ]}.

Definition filedict_ab : list (string * string) :=
  [("a"%string, "d.h5"%string); ("b"%string, "d.h5"%string)].

Definition labeldict_ab : list (string * string) :=
  [("a"%string, "l.h5"%string); ("b"%string, "l.h5"%string)].

(** The object [HDF5Dataset("d.h5", "l.h5", ["a", "b"])] builds on these
    files. *)
Definition dataset_ab : HDF5Dataset.t :=
  HDF5Dataset.mk "d.h5" "l.h5" ["a"%string; "b"%string] None None 2 None 4.

(** The feature file alone. *)
Definition files_no_labels : h5.filesystem :=
  h5.mk_filesystem {[ "d.h5"%string := store_ab ]} ∅.

End vocabulary_5.

(** * Properties *)

(** ** The error monad *)

Lemma bind_Ok {A B} (m : result A) (f : A → result B) (b : B) :
  m ≫= f = Ok b → ∃ a, m = Ok a ∧ f a = Ok b.
Proof. destruct m as [a|e]; simpl; [eauto | discriminate]. Qed.

Lemma bind_Raise_l {A B} (m : result A) (f : A → result B) :
  raises m → raises (m ≫= f).
Proof. intros [e ->]. by exists e. Qed.

(** Splits a successful monadic computation in the hypothesis [H] into its
    successful steps. *)
Ltac inv_bind H :=
  repeat match type of H with
  | (?m ≫= _) = Ok _ =>
      let a := fresh "a" in
      let Ha := fresh "Ha" in
      apply bind_Ok in H as (a & Ha & H)
  | mret _ = Ok _ => injection H as H
  | Ok _ = Ok _ => injection H as H
  | (let '(_, _) := ?p in _) = Ok _ => destruct p eqn:?
  | (if ?c then _ else _) = Ok _ => destruct c eqn:?; try discriminate
  end.

(** ** numpy primitives *)

Section np_facts.

Lemma shuffle_perm {A} g (l : list A) : (np.shuffle g l).1 ≡ₚ l.
Proof.
  induction l as [|x xs IH]; simpl; [done|].
  destruct (np.shuffle g xs) as [ys g1]. simpl in *.
  rewrite <- IH, <- Permutation_middle, take_drop. done.
Qed.

Lemma permutation_perm g n : (np.permutation g n).1 ≡ₚ seq 0 n.
Proof. apply shuffle_perm. Qed.

Lemma draws_spec g high size :
  0 < high →
  length (np.draws g high size).1 = size ∧
  Forall (λ i, i < high) (np.draws g high size).1.
Proof.
  intros Hh. revert g. induction size as [|k IH]; intros g; simpl.
  - split; [done | constructor].
  - destruct (np.draws _ high k) as [xs g2] eqn:E.
    specialize (IH (np.mk_RandomState (np.raw g) (S (np.pos g)))).
    rewrite E in IH. simpl in *. destruct IH as [IH1 IH2]. split; [lia|].
    constructor; [|done]. apply Nat.mod_upper_bound. lia.
Qed.

Lemma randint_spec g high size idxs g' :
  np.randint g high size = Ok (idxs, g') →
  length idxs = size ∧ Forall (λ i, i < high) idxs.
Proof.
  unfold np.randint. intros H.
  destruct (decide (size = 0)) as [->|Hs].
  - injection H as <- <-. split; [done | constructor].
  - destruct (decide (high = 0)); [discriminate|]. injection H as H.
    pose proof (draws_spec g high size ltac:(lia)) as Hd.
    rewrite H in Hd. done.
Qed.

Lemma randint_returns g high size :
  (0 < high ∨ size = 0) → returns (np.randint g high size).
Proof.
  intros H. unfold np.randint.
  destruct (decide (size = 0)); [eexists; reflexivity|].
  destruct (decide (high = 0)); [lia | eexists; reflexivity].
Qed.

Lemma elem_of_where_eq1_from s v i :
  i ∈ np.where_eq1_from s v ↔
  ∃ k, i = (s + N.of_nat k)%N ∧ v !! k = Some 1%Z.
Proof.
  revert s. induction v as [|x xs IH]; intros s; simpl.
  - split; [by intros ?%elem_of_nil | by intros (k & _ & ?)].
  - assert (i ∈ np.where_eq1_from (N.succ s) xs ↔
            ∃ k, i = (s + N.of_nat (S k))%N ∧ xs !! k = Some 1%Z) as IH'.
    { rewrite IH. split; intros (k & -> & ?); exists k; split; (lia || done). }
    destruct (x =? 1)%Z eqn:E.
    + apply Z.eqb_eq in E as ->. rewrite elem_of_cons, IH'. split.
      * intros [-> | (k & -> & ?)]; [exists 0 | exists (S k)];
          (split; [lia | done]).
      * intros ([|k] & -> & Hk); [left; lia | right; eauto].
    + apply Z.eqb_neq in E. rewrite IH'. split.
      * intros (k & -> & ?). exists (S k). done.
      * intros ([|k] & -> & Hk); [simpl in Hk; congruence | eauto].
Qed.

Lemma elem_of_where_eq1 v i :
  i ∈ np.where_eq1 v ↔ v !! N.to_nat i = Some 1%Z.
Proof.
  unfold np.where_eq1. rewrite elem_of_where_eq1_from. split.
  - intros (k & -> & ?). by rewrite N.add_0_l, Nat2N.id.
  - intros H. exists (N.to_nat i). split; [lia | done].
Qed.

Lemma getitem_Ok {A} (a : list A) i x :
  np.getitem a i = Ok x ↔ a !! i = Some x.
Proof.
  unfold np.getitem. destruct (a !! i); split; intros; simplify_eq; done.
Qed.

Lemma take_idx_Ok {A} (a : list A) idxs l :
  np.take_idx a idxs = Ok l →
  length l = length idxs ∧
  ∀ k x, l !! k = Some x → ∃ i, idxs !! k = Some i ∧ a !! i = Some x.
Proof.
  unfold np.take_idx. revert l.
  induction idxs as [|i idxs IH]; intros l H; simpl in H.
  - injection H as <-. split; [done|]. intros k x Hk. done.
  - inv_bind H. subst l. apply getitem_Ok in Ha.
    destruct (IH _ Ha0) as [IH1 IH2]. split; [simpl; lia|].
    intros [|k] x Hk; simpl in *; [simplify_eq; eauto | eauto].
Qed.

Lemma take_idx_returns {A} (a : list A) idxs :
  Forall (λ i, i < length a) idxs → returns (np.take_idx a idxs).
Proof.
  unfold np.take_idx. induction 1 as [|i idxs Hi _ [l IH]]; simpl.
  - eexists; reflexivity.
  - apply lookup_lt_is_Some_2 in Hi as [x Hx].
    apply getitem_Ok in Hx. rewrite Hx. simpl. rewrite IH. simpl.
    eexists; reflexivity.
Qed.

Lemma py_max_Ok l m :
  np.py_max l = Ok m → Forall (λ x, x ≤ m) l ∧ m ∈ l.
Proof.
  destruct l as [|x xs]; simpl; [discriminate|]. intros [= <-].
  induction xs as [|y ys IH]; simpl.
  - split; [by constructor | by apply list_elem_of_singleton].
  - destruct IH as [IH1 IH2]. apply Forall_cons in IH1 as [Hx Hxs]. split.
    + constructor; [lia|]. constructor; [lia|].
      eapply Forall_impl; [exact Hxs|]. simpl. lia.
    + destruct (Nat.max_spec y (foldr Nat.max x ys)) as [[_ ->] | [_ ->]].
      * apply elem_of_cons in IH2 as [-> | ?]; [left | right; right]; done.
      * right; left.
  Qed.

Lemma py_max_returns l : l ≠ [] → returns (np.py_max l).
Proof. destruct l; [done|]. intros _. eexists; reflexivity. Qed.

Lemma enumerate_fst {A} (l : list A) : (np.enumerate l).*1 = seq 0 (length l).
Proof. unfold np.enumerate. apply fst_zip. by rewrite length_seq. Qed.

Lemma elem_of_enumerate {A} (l : list A) i x :
  (i, x) ∈ np.enumerate l ↔ l !! i = Some x.
Proof.
  unfold np.enumerate. rewrite list_elem_of_lookup. split.
  - intros (k & Hk). apply lookup_zip_Some in Hk as [Hk1 Hk2].
    apply lookup_seq in Hk1 as [-> _]. done.
  - intros H. exists i. apply lookup_zip_Some. split; [|done].
    apply lookup_seq. split; [done|]. by eapply lookup_lt_Some.
Qed.

End np_facts.

(** ** Column assignment on the working buffer *)

Section buffer_facts.

Implicit Types (cells : list (list N)) (a : ndarray N).

Lemma cell_alter_insert cells r ix v r' c :
  cell (alter (<[ix := v]>) r cells) r' c =
  if decide (r = r' ∧ ix = c ∧ is_Some (cell cells r' c)) then Some v
  else cell cells r' c.
Proof.
  unfold cell. rewrite list_lookup_alter.
  destruct (decide (r = r')) as [<-|Hr].
  - destruct (cells !! r) as [row|] eqn:E; simpl.
    + destruct (decide (ix = c)) as [<-|Hc].
      * destruct (row !! ix) eqn:E'.
        -- rewrite decide_True by (split_and!; eauto).
           apply list_lookup_insert_eq. by eapply lookup_lt_Some.
        -- rewrite decide_False by (intros (_ & _ & [? ?]); done).
           rewrite list_insert_ge; [done|]. by apply lookup_ge_None.
      * rewrite decide_False by (intros (_ & ? & _); done).
        by apply list_lookup_insert_ne.
    + rewrite decide_False; [done|]. intros (_ & _ & [? ?]); done.
  - rewrite decide_False by (intros (? & _); done). done.
Qed.

Lemma write_col_length r ix vals cells :
  length (np.write_col r ix vals cells) = length cells.
Proof.
  revert r cells. induction vals as [|v vs IH]; intros r cells; simpl;
    [done|]. by rewrite IH, length_alter.
Qed.

Lemma write_col_row_lengths n r ix vals cells :
  Forall (λ row, length row = n) cells →
  Forall (λ row, length row = n) (np.write_col r ix vals cells).
Proof.
  revert r cells. induction vals as [|v vs IH]; intros r cells H; simpl;
    [done|]. apply IH. rewrite Forall_lookup in *. intros i row Hi.
  rewrite list_lookup_alter in Hi. destruct (decide (r = i)) as [<-|].
  - destruct (cells !! r) as [row'|] eqn:E; simplify_eq/=.
    rewrite length_insert. eauto.
  - eauto.
Qed.

Lemma cell_write_col_ne r ix vals cells r' c :
  c ≠ ix → cell (np.write_col r ix vals cells) r' c = cell cells r' c.
Proof.
  intros Hc. revert r cells.
  induction vals as [|v vs IH]; intros r cells; simpl; [done|].
  rewrite IH, cell_alter_insert.
  rewrite decide_False by (intros (_ & ? & _); by subst). done.
Qed.

Lemma cell_write_col_out r ix vals cells r' c :
  r' < r ∨ r + length vals ≤ r' →
  cell (np.write_col r ix vals cells) r' c = cell cells r' c.
Proof.
  revert r cells. induction vals as [|v vs IH]; intros r cells H; simpl;
    [done|]. simpl in H.
  rewrite IH by lia. rewrite cell_alter_insert.
  rewrite decide_False by (intros (? & _); lia). done.
Qed.

Lemma cell_write_col_in r ix vals cells k v :
  (∀ r', r ≤ r' < r + length vals → is_Some (cell cells r' ix)) →
  vals !! k = Some v →
  cell (np.write_col r ix vals cells) (r + k) ix = Some (np.to_uint32 v).
Proof.
  revert r cells k. induction vals as [|v' vs IH]; intros r cells k Hin Hk;
    simpl in *; [done|].
  destruct k as [|k]; simplify_eq/=.
  - rewrite cell_write_col_out by lia. rewrite cell_alter_insert.
    rewrite Nat.add_0_r. rewrite decide_True; [done|].
    split_and!; [done..|]. apply Hin. lia.
  - replace (r + S k) with (S r + k) by lia. apply IH; [|done].
    intros r' Hr'. rewrite cell_alter_insert.
    destruct (decide _); [eauto|]. apply Hin. lia.
Qed.

Lemma wf_cell_is_Some {A} (a : ndarray A) r c :
  wf_ndarray a → r < (shape a).1 → c < (shape a).2 →
  is_Some (cell (data a) r c).
Proof.
  intros [Hl Hr] Hr' Hc'. unfold cell.
  destruct (lookup_lt_is_Some_2 (data a) r) as [row Hrow]; [lia|].
  rewrite Hrow. simpl. apply lookup_lt_is_Some_2.
  rewrite Forall_lookup in Hr. rewrite (Hr _ _ Hrow). done.
Qed.

Lemma cell_Some_lt {A} (a : ndarray A) r c x :
  wf_ndarray a → cell (data a) r c = Some x →
  r < (shape a).1 ∧ c < (shape a).2.
Proof.
  intros [Hl Hr] H. unfold cell in H.
  destruct (data a !! r) as [row|] eqn:E; simplify_eq/=.
  rewrite Forall_lookup in Hr. rewrite <- (Hr _ _ E), <- Hl.
  split; by eapply lookup_lt_Some.
Qed.

(** What [a[start:stop, ix] = vals] leaves behind, when the values fit the
    slice. *)
Lemma assign_col_spec start stop ix vals a :
  wf_ndarray a → ix < (shape a).2 →
  start + length vals = stop `min` (shape a).1 →
  ∃ a', np.assign_col start stop ix vals a = Ok a' ∧
    shape a' = shape a ∧ wf_ndarray a' ∧
    (∀ r c, c ≠ ix → cell (data a') r c = cell (data a) r c) ∧
    (∀ r c, r < start ∨ start + length vals ≤ r →
            cell (data a') r c = cell (data a) r c) ∧
    (∀ k v, vals !! k = Some v →
            cell (data a') (start + k) ix = Some (np.to_uint32 v)).
Proof.
  intros Hwf Hix Hlen. unfold np.assign_col.
  rewrite decide_False by lia. unfold np.broadcast_to.
  rewrite decide_True by lia. simpl.
  eexists. split; [reflexivity|]. simpl. split_and!.
  - done.
  - destruct Hwf as [Hl Hr]. split; simpl.
    + by rewrite write_col_length.
    + by apply write_col_row_lengths.
  - intros. by apply cell_write_col_ne.
  - intros. by apply cell_write_col_out.
  - intros k v Hk. apply cell_write_col_in; [|done].
    intros r' Hr'. apply wf_cell_is_Some; [done| lia |done].
Qed.

Lemma assign_col_shape start stop ix vals a a' :
  np.assign_col start stop ix vals a = Ok a' → shape a' = shape a.
Proof.
  unfold np.assign_col. intros H.
  destruct (decide _); [discriminate|]. inv_bind H. by subst a'.
Qed.

End buffer_facts.

(** ** MinimumOccupancySampler: the loops *)

Section sampler_loops.

Lemma collect_spec labels rs cols idxs lens rs' :
  MinimumOccupancySampler.collect labels rs cols = (idxs, lens, rs') →
  lens = length <$> idxs ∧ length idxs = length cols ∧
  ∀ k c l, cols !! k = Some c → idxs !! k = Some l →
           l ≡ₚ np.where_eq1 (column labels c).
Proof.
  revert rs idxs lens rs'.
  induction cols as [|c cols IH]; intros rs idxs lens rs' H; simpl in H.
  - injection H as <- <- <-. split_and!; [done..|]. intros k c l Hk. done.
  - pose proof (shuffle_perm rs (np.where_eq1 (column labels c))) as Hp.
    destruct (np.shuffle rs _) as [l0 rs1]. simpl in Hp.
    destruct (MinimumOccupancySampler.collect labels rs1 cols) as [[idxs0 lens0] rs2] eqn:E.
    injection H as <- <- <-.
    destruct (IH _ _ _ _ E) as (-> & Hlen & Hperm).
    split_and!; [done | simpl; lia |].
    intros [|k] c' l Hk Hl; simplify_eq/=; eauto.
Qed.

Lemma wf_empty_uint32 sh heap : wf_ndarray (np.empty_uint32 sh heap).
Proof.
  split; simpl.
  - by rewrite length_fmap, length_seq.
  - apply Forall_fmap, Forall_forall. intros r _. simpl.
    by rewrite length_fmap, length_seq.
Qed.

Lemma fill_spec idx_lists items a :
  wf_ndarray a → NoDup items.*1 →
  (∀ ix leng, (ix, leng) ∈ items →
     ix < (shape a).2 ∧ leng ≤ (shape a).1 ∧
     ∃ l, idx_lists !! ix = Some l ∧ length l = leng) →
  ∃ a', MinimumOccupancySampler.fill idx_lists items a = Ok a' ∧
    shape a' = shape a ∧ wf_ndarray a' ∧
    (∀ r c, c ∉ items.*1 → cell (data a') r c = cell (data a) r c) ∧
    (∀ ix l r v, ix ∈ items.*1 → idx_lists !! ix = Some l →
       l !! r = Some v → cell (data a') r ix = Some (np.to_uint32 v)).
Proof.
  revert a. induction items as [|[ix leng] items IH]; intros a Hwf Hnd Hit.
  - exists a. split_and!; [done..|]. intros ix l r v Hix.
    by apply elem_of_nil in Hix.
  - simpl in Hnd. apply NoDup_cons in Hnd as [Hnotin Hnd].
    destruct (Hit ix leng) as (Hix & Hleng & l & Hl & Hlen); [left|].
    destruct (assign_col_spec 0 leng ix l a) as
      (a1 & Ha1 & Hsh1 & Hwf1 & Hne1 & Hout1 & Hin1); [done | done | lia |].
    destruct (IH a1) as (a' & Ha' & Hsh' & Hwf' & Hne' & Hin');
      [done | done | |].
    { intros ix' leng' Hel. rewrite Hsh1. apply Hit. by right. }
    exists a'. split_and!.
    + simpl. apply getitem_Ok in Hl. rewrite Hl. simpl. rewrite Ha1. done.
    + congruence.
    + done.
    + intros r c Hc. simpl in Hc. apply not_elem_of_cons in Hc as [Hc1 Hc2].
      rewrite Hne' by done. by apply Hne1.
    + intros ix' l' r v Hix' Hl' Hv. simpl in Hix'.
      destruct (decide (ix' ∈ items.*1)) as [Hel|Hnel]; [eauto|].
      apply elem_of_cons in Hix' as [->|?]; [|done]. simplify_eq.
      rewrite Hne' by done. apply (Hin1 r v Hv).
Qed.

Lemma reshuffle_loop_spec longest idx_lists items a g :
  wf_ndarray a → (shape a).1 = longest → NoDup items.*1 →
  (∀ ix leng, (ix, leng) ∈ items →
     ix < (shape a).2 ∧ 0 < leng ≤ longest ∧
     ∃ l, idx_lists !! ix = Some l ∧ length l = leng) →
  ∃ a' g', MinimumOccupancySampler.reshuffle_loop longest idx_lists items a g = Ok (a', g') ∧
    shape a' = shape a ∧ wf_ndarray a' ∧
    (∀ r c, c ∉ items.*1 → cell (data a') r c = cell (data a) r c) ∧
    (∀ ix l r, idx_lists !! ix = Some l → r < length l →
       cell (data a') r ix = cell (data a) r ix) ∧
    (∀ ix l r, ix ∈ items.*1 → idx_lists !! ix = Some l →
       length l ≤ r < longest →
       ∃ v, v ∈ l ∧ cell (data a') r ix = Some (np.to_uint32 v)).
Proof.
  revert a g.
  induction items as [|[ix leng] items IH]; intros a g Hwf Hrows Hnd Hit.
  - exists a, g. split_and!; [done..|]. intros ix l r Hix.
    by apply elem_of_nil in Hix.
  - simpl in Hnd. apply NoDup_cons in Hnd as [Hnotin Hnd].
    destruct (Hit ix leng) as (Hix & Hleng & l & Hl & Hlen); [left|].
    destruct (randint_returns g leng (longest - leng)) as [[idxs g1] Hri];
      [lia|].
    destruct (randint_spec _ _ _ _ _ Hri) as [Hilen Hibound].
    destruct (take_idx_returns l idxs) as [vals Hvals].
    { by rewrite Hlen. }
    destruct (take_idx_Ok _ _ _ Hvals) as [Hvlen Hvlook].
    destruct (assign_col_spec leng (shape a).1 ix vals a) as
      (a1 & Ha1 & Hsh1 & Hwf1 & Hne1 & Hout1 & Hin1); [done | done | lia |].
    destruct (IH a1 g1) as (a' & g' & Ha' & Hsh' & Hwf' & Hne' & Hhd' & Hin');
      [done | congruence | done | |].
    { intros ix' leng' Hel. rewrite Hsh1. apply Hit. by right. }
    exists a', g'. split_and!.
    + simpl. rewrite Hri. simpl. apply getitem_Ok in Hl. rewrite Hl. simpl.
      rewrite Hvals. simpl. rewrite Ha1. done.
    + congruence.
    + done.
    + intros r c Hc. simpl in Hc. apply not_elem_of_cons in Hc as [Hc1 Hc2].
      rewrite Hne' by done. by apply Hne1.
    + intros ix' l' r Hl' Hr. rewrite (Hhd' _ _ _ Hl' Hr).
      destruct (decide (ix' = ix)) as [->|Hne]; [|by apply Hne1].
      simplify_eq. apply Hout1. lia.
    + intros ix' l' r Hix' Hl' Hr. simpl in Hix'.
      destruct (decide (ix' ∈ items.*1)) as [Hel|Hnel]; [eauto|].
      apply elem_of_cons in Hix' as [->|?]; [|done]. simplify_eq.
      rewrite Hne' by done.
      destruct (lookup_lt_is_Some_2 vals (r - length l)) as [v Hv]; [lia|].
      destruct (Hvlook _ _ Hv) as (i & _ & Hi).
      exists v. split; [by eapply list_elem_of_lookup_2|].
      replace r with (length l + (r - length l)) by lia. by apply Hin1.
Qed.

End sampler_loops.

(** ** MinimumOccupancySampler: the state invariant *)

Section sampler_invariant.

Import MinimumOccupancySampler.

Lemma init_items_ok s :
  label_to_length s = length <$> label_to_idx_list s →
  np.py_max (label_to_length s) = Ok (longest_seq s) →
  ∀ ix leng, (ix, leng) ∈ np.enumerate (label_to_length s) →
    ix < length (label_to_length s) ∧ leng ≤ longest_seq s ∧
    ∃ l, label_to_idx_list s !! ix = Some l ∧ length l = leng.
Proof.
  intros Hlen Hmax ix leng Hel. apply elem_of_enumerate in Hel.
  apply py_max_Ok in Hmax as [Hle _]. split_and!.
  - by eapply lookup_lt_Some.
  - rewrite Forall_lookup in Hle. eauto.
  - rewrite Hlen, list_lookup_fmap in Hel.
    destruct (label_to_idx_list s !! ix) as [l|]; simplify_eq/=. eauto.
Qed.

Lemma init_inv labels mode rs heap s :
  __init__ labels mode rs heap = Ok s →
  inv s ∧ MinimumOccupancySampler.labels s = labels ∧
  data_length s = mode_length labels (longest_seq s) mode.
Proof.
  unfold __init__, mode_length, n_rows, n_classes.
  destruct (shape (entries labels)) as [data_samples n_labels] eqn:Hsh.
  destruct (collect labels rs (seq 0 n_labels)) as [[idxs lens] rs1] eqn:Hc.
  intros H. apply bind_Ok in H as (longest & Hmax & H).
  apply bind_Ok in H as (a & Hfill & H). injection H as <-. simpl.
  destruct (collect_spec _ _ _ _ _ _ Hc) as (Hlens & Hn & Hperm).
  rewrite length_seq in Hn.
  assert (length lens = n_labels) as Hlens' by (by rewrite Hlens, length_fmap).
  pose (s0 := mk labels rs1 longest (np.empty_uint32 (longest, length lens) heap)
                idxs lens None).
  destruct (fill_spec idxs (np.enumerate lens)
              (np.empty_uint32 (longest, length lens) heap))
    as (a' & Ha' & Hsh' & Hwf' & _ & Hin').
  { apply wf_empty_uint32. }
  { rewrite enumerate_fst. apply NoDup_seq. }
  { intros ix leng Hel. by apply (init_items_ok s0). }
  rewrite Ha' in Hfill. injection Hfill as <-.
  simpl in Hsh'. rewrite Hsh'. simpl. split_and!; [|done|by rewrite Hlens'].
  split; simpl; unfold n_classes; rewrite ?Hsh; simpl.
  - done.
  - done.
  - intros c l Hl. eapply Hperm; [|done]. apply lookup_seq.
    split; [done|]. apply lookup_lt_Some in Hl. lia.
  - done.
  - by rewrite Hsh', Hlens'.
  - done.
  - intros c l r v Hl Hv. eapply Hin'; [|done..].
    rewrite enumerate_fst. apply elem_of_seq.
    apply lookup_lt_Some in Hl. lia.
Qed.

Lemma init_returns labels mode rs heap :
  0 < n_classes labels → returns (__init__ labels mode rs heap).
Proof.
  unfold __init__, n_classes.
  destruct (shape (entries labels)) as [data_samples n_labels] eqn:Hsh.
  simpl. intros Hn.
  destruct (collect labels rs (seq 0 n_labels)) as [[idxs lens] rs1] eqn:Hc.
  destruct (collect_spec _ _ _ _ _ _ Hc) as (Hlens & Hlen & Hperm).
  rewrite length_seq in Hlen.
  destruct (py_max_returns lens) as [longest Hmax].
  { intros ->. destruct idxs; simpl in *; [lia | done]. }
  rewrite Hmax. simpl.
  pose (s0 := mk labels rs1 longest (np.empty_uint32 (longest, length lens) heap)
                idxs lens None).
  destruct (fill_spec idxs (np.enumerate lens)
              (np.empty_uint32 (longest, length lens) heap))
    as (a' & Ha' & _).
  { apply wf_empty_uint32. }
  { rewrite enumerate_fst. apply NoDup_seq. }
  { intros ix leng Hel. by apply (init_items_ok s0). }
  rewrite Ha'. simpl. eexists; reflexivity.
Qed.

End sampler_invariant.

(** ** MinimumOccupancySampler: one epoch *)

Section sampler_epoch.

Import MinimumOccupancySampler.

Lemma elem_of_concat {A} (ls : list (list A)) x :
  x ∈ concat ls ↔ ∃ l, l ∈ ls ∧ x ∈ l.
Proof.
  induction ls as [|l ls IH]; simpl.
  - split; [by intros ?%elem_of_nil | by intros (l & ?%elem_of_nil & _)].
  - rewrite elem_of_app, IH. split.
    + intros [? | (l' & ? & ?)]; [exists l | exists l'];
        (split; [|done]); [left | by right].
    + intros (l' & [-> | ?]%elem_of_cons & ?); [by left | right; eauto].
Qed.

Lemma concat_length_uniform {A} (ls : list (list A)) n :
  Forall (λ l, length l = n) ls → length (concat ls) = length ls * n.
Proof.
  induction 1 as [|l ls Hl _ IH]; simpl; [done|].
  rewrite length_app, IH, Hl. done.
Qed.

Lemma inv_longest_pos s : inv s → nonempty s → 0 < longest_seq s.
Proof.
  intros Hinv Hne. destruct (py_max_Ok _ _ (inv_longest s Hinv)) as [_ Hel].
  rewrite (inv_lengths s Hinv) in Hel.
  apply list_elem_of_fmap in Hel as (l & -> & Hl).
  apply list_elem_of_lookup in Hl as [c Hc]. eauto.
Qed.

Lemma reshuffle_spec s g :
  inv s → nonempty s →
  ∃ d g', _reshuffle s g = Ok (set_data_source s d, g') ∧
    inv (set_data_source s d) ∧ filled (set_data_source s d).
Proof.
  intros Hinv Hne. unfold _reshuffle.
  destruct (reshuffle_loop_spec (longest_seq s) (label_to_idx_list s)
    (np.enumerate (label_to_length s)) (data_source s) g)
    as (d & g' & Hd & Hsh & Hwf & _ & Hhd & Htl).
  { apply (inv_wf s Hinv). }
  { by rewrite (inv_shape s Hinv). }
  { rewrite enumerate_fst. apply NoDup_seq. }
  { intros ix leng Hel.
    destruct (init_items_ok s (inv_lengths s Hinv) (inv_longest s Hinv)
                _ _ Hel) as (Hix & Hle & l & Hl & Hlen).
    rewrite (inv_shape s Hinv). simpl.
    rewrite (inv_lengths s Hinv), length_fmap, (inv_classes s Hinv) in Hix.
    split_and!; [done | | done | eauto].
    rewrite <- Hlen. eauto. }
  exists d, g'. rewrite Hd. simpl. split; [done|].
  assert (∀ c l r v, label_to_idx_list s !! c = Some l → l !! r = Some v →
            cell (data d) r c = Some (np.to_uint32 v)) as Hhead.
  { intros c l r v Hl Hv. rewrite (Hhd c l r Hl).
    - by eapply (inv_head s Hinv).
    - by eapply lookup_lt_Some. }
  split.
  - destruct Hinv. split; simpl; try done. congruence.
  - intros r c Hr Hc. simpl in *.
    destruct (lookup_lt_is_Some_2 (label_to_idx_list s) c) as [l Hl].
    { by rewrite (inv_classes s Hinv). }
    destruct (decide (r < length l)) as [Hlt|Hge].
    + destruct (lookup_lt_is_Some_2 l r Hlt) as [v Hv].
      exists l, v. split_and!; [done | by eapply list_elem_of_lookup_2 | eauto].
    + destruct (Htl c l r) as (v & Hv & Hcell); [|done|lia|].
      { rewrite enumerate_fst. apply elem_of_seq.
        rewrite (inv_lengths s Hinv), length_fmap, (inv_classes s Hinv). lia. }
      exists l, v. done.
Qed.

(** The stream of one epoch, in terms of the buffer left behind. *)
Lemma iter_spec s g n :
  inv s → nonempty s → data_length s = Some n →
  ∃ stream s' g', __iter__ s g = Ok (stream, s', g') ∧
    inv s' ∧ filled s' ∧ nonempty s' ∧
    labels s' = labels s ∧ data_length s' = data_length s ∧
    longest_seq s' = longest_seq s ∧
    length stream = n `min` (longest_seq s * n_classes (labels s)) ∧
    (∀ x, x ∈ stream → ∃ r c, cell (data (data_source s')) r c = Some x) ∧
    (n_classes (labels s) ≤ n → ∃ r, ∀ c, c < n_classes (labels s) →
       ∃ x, x ∈ stream ∧ cell (data (data_source s')) r c = Some x).
Proof.
  intros Hinv Hne Hn. unfold __iter__.
  destruct (reshuffle_spec s g Hinv Hne) as (d & g' & -> & Hinv1 & Hfill1).
  pose proof (inv_longest_pos s Hinv Hne) as Hpos.
  simpl.
  pose proof (permutation_perm (random_state s) (shape d).1) as Hperm.
  destruct (np.permutation (random_state s) (shape d).1) as [perm rs1].
  simpl in Hperm.
  pose proof (inv_shape _ Hinv1) as Hsh. simpl in Hsh.
  pose proof (inv_wf _ Hinv1) as [Hwf1 Hwf2]. simpl in Hwf1, Hwf2.
  rewrite Hsh in Hperm, Hwf1, Hwf2. simpl in Hperm, Hwf1, Hwf2.
  destruct (take_idx_returns (data d) perm) as [rows Hrows].
  { apply Forall_forall. intros i Hi. rewrite Hperm in Hi.
    apply elem_of_seq in Hi. lia. }
  destruct (take_idx_Ok _ _ _ Hrows) as [Hrlen Hrlook].
  assert (length rows = longest_seq s) as Hrlen'.
  { by rewrite Hrlen, Hperm, length_seq. }
  assert (Forall (λ l, length l = n_classes (labels s)) rows) as Huni.
  { apply Forall_lookup. intros k row Hk.
    destruct (Hrlook _ _ Hk) as (i & _ & Hi).
    rewrite Forall_lookup in Hwf2. eauto. }
  rewrite Hrows. simpl.
  destruct rows as [|row0 rows']; [simpl in Hrlen'; lia|].
  change (np.concatenate (row0 :: rows')) with (Ok (concat (row0 :: rows'))).
  simpl. unfold get_data_length. simpl. rewrite Hn. simpl.
  eexists _, _, _. split; [reflexivity|]. simpl.
  split_and!; try done.
  - destruct Hinv1. split; simpl in *; done.
  - rewrite length_take, length_app.
    apply Forall_cons in Huni as [Hrow0 Huni].
    rewrite (concat_length_uniform _ _ Huni), Hrow0.
    simpl in Hrlen'. rewrite <- Hrlen'. lia.
  - intros x Hx. apply elem_of_take in Hx as (i & Hx & _).
    apply list_elem_of_lookup_2 in Hx.
    change (row0 ++ concat rows') with (concat (row0 :: rows')) in Hx.
    apply elem_of_concat in Hx as (row & Hrow & Hx).
    apply list_elem_of_lookup in Hrow as [k Hk].
    apply list_elem_of_lookup in Hx as [c Hc].
    destruct (Hrlook _ _ Hk) as (r & _ & Hr).
    exists r, c. unfold cell. rewrite Hr. done.
  - intros Hle. destruct (Hrlook 0 row0 eq_refl) as (r & _ & Hr).
    exists r. intros c Hc. apply Forall_cons in Huni as [Hrow0 _].
    destruct (lookup_lt_is_Some_2 row0 c) as [x Hx]; [lia|].
    exists x. split.
    + apply elem_of_take. exists c. split; [|lia].
      rewrite lookup_app_l by lia. done.
    + unfold cell. rewrite Hr. done.
Qed.

End sampler_epoch.

(** ** Label matrices: counting *)

Section label_facts.

Import MinimumOccupancySampler.

Lemma column_lookup labels c r :
  column labels c !! r = Some 1%Z ↔
  cell (data (entries labels)) r c = Some 1%Z.
Proof.
  unfold column, cell. rewrite list_lookup_fmap.
  destruct (data (entries labels) !! r) as [row|]; simpl; [|done].
  destruct (row !! c) as [x|]; simpl; [done|]. split; intros; simplify_eq.
Qed.

Lemma active_where labels i c :
  i ∈ np.where_eq1 (column labels c) ↔ active labels i c.
Proof. rewrite elem_of_where_eq1. apply column_lookup. Qed.

Lemma active_valid labels i c :
  wf_ndarray (entries labels) → active labels i c →
  (i < N.of_nat (n_rows labels))%N ∧ c < n_classes labels.
Proof.
  intros Hwf Ha. apply (cell_Some_lt _ _ _ _ Hwf) in Ha as [Hr Hc].
  unfold n_rows, n_classes. split; [lia | done].
Qed.

Lemma where_eq1_from_length s v :
  length (np.where_eq1_from s v) = sum_list_with ind v.
Proof.
  revert s. induction v as [|x xs IH]; intros s; simpl; [done|].
  unfold ind at 1. destruct (x =? 1)%Z; simpl; by rewrite IH.
Qed.

Lemma class_count_ind labels c :
  class_count labels c = sum_list_with ind (column labels c).
Proof. apply where_eq1_from_length. Qed.

Lemma sum_list_with_add {A} (f h : A → nat) l :
  sum_list_with (λ x, f x + h x) l = sum_list_with f l + sum_list_with h l.
Proof. induction l as [|x l IH]; simpl; [done|]. rewrite IH. lia. Qed.

Lemma sum_list_with_bound {A} (f : A → nat) l m :
  (∀ x, x ∈ l → f x ≤ m) → sum_list_with f l ≤ length l * m.
Proof.
  induction l as [|x l IH]; intros H; simpl; [done|].
  pose proof (H x ltac:(left)). pose proof (IH ltac:(intros; apply H; by right)).
  lia.
Qed.

(** Counting the ones of a matrix by columns gives at least one per row
    that has an active class. *)
Lemma ones_by_columns (rows : list (list Z)) n :
  Forall (λ row, length row = n) rows → Forall row_active rows →
  length rows ≤
  sum_list_with
    (λ c, sum_list_with ind ((λ row, default 0%Z (row !! c)) <$> rows))
    (seq 0 n).
Proof.
  intros Hlen Hact. induction rows as [|row rows IH]; simpl; [lia|].
  apply Forall_cons in Hlen as [Hlen Hlens].
  apply Forall_cons in Hact as [[c Hc] Hacts].
  rewrite sum_list_with_add. specialize (IH Hlens Hacts).
  assert (1 ≤ sum_list_with (λ c, ind (default 0%Z (row !! c))) (seq 0 n));
    [|unfold fmap in *; lia].
  etrans; [|apply (sum_list_with_in c)].
  - by rewrite Hc.
  - apply elem_of_seq. apply lookup_lt_Some in Hc. lia.
Qed.

Lemma inv_length_count s c l :
  inv s → label_to_idx_list s !! c = Some l →
  length l = class_count (labels s) c.
Proof. intros Hinv Hl. by rewrite (inv_perm s Hinv c l Hl). Qed.

Lemma inv_rows_le s :
  inv s → wf_ndarray (entries (labels s)) →
  Forall row_active (data (entries (labels s))) →
  n_rows (labels s) ≤ longest_seq s * n_classes (labels s).
Proof.
  intros Hinv [Hwf1 Hwf2] Hact. unfold n_rows. rewrite <- Hwf1.
  etrans; [apply (ones_by_columns _ _ Hwf2 Hact)|].
  fold (n_classes (labels s)).
  etrans; [apply (sum_list_with_bound _ _ (longest_seq s))
          | rewrite length_seq; lia].
  intros c Hc. apply elem_of_seq in Hc.
  destruct (lookup_lt_is_Some_2 (label_to_idx_list s) c) as [l Hl].
  { rewrite (inv_classes s Hinv). lia. }
  fold (column (labels s) c). rewrite <- class_count_ind.
  rewrite <- (inv_length_count s c l Hinv Hl).
  destruct (py_max_Ok _ _ (inv_longest s Hinv)) as [Hle _].
  rewrite Forall_lookup in Hle. apply (Hle c).
  by rewrite (inv_lengths s Hinv), list_lookup_fmap, Hl.
Qed.

Lemma inv_nonempty s :
  inv s → classes_occupied (labels s) → nonempty s.
Proof.
  intros Hinv Hocc c l Hl.
  destruct (Hocc c) as [i Hi].
  { rewrite <- (inv_classes s Hinv). by eapply lookup_lt_Some. }
  apply active_where in Hi. rewrite <- (inv_perm s Hinv c l Hl) in Hi.
  destruct l; [by apply elem_of_nil in Hi | simpl; lia].
Qed.

End label_facts.

(** ** MinimumOccupancySampler: streams over the epochs *)

Section sampler_streams.

Import MinimumOccupancySampler.

Lemma foldr_max_bound (l : list nat) :
  Forall (λ x, x ≤ foldr Nat.max 0 l) l ∧
  (l ≠ [] → foldr Nat.max 0 l ∈ l).
Proof.
  induction l as [|x l [IH1 IH2]]; simpl; [split; [constructor | done]|].
  split.
  - constructor; [lia|]. eapply Forall_impl; [exact IH1|]. simpl. lia.
  - intros _. destruct l as [|y l]; [simpl; rewrite Nat.max_0_r; left|].
    destruct (Nat.max_spec x (foldr Nat.max 0 (y :: l))) as [[_ ->]|[_ ->]];
      [right; by apply IH2 | left].
Qed.

Lemma inv_lengths_counts s :
  inv s →
  label_to_length s = class_count (labels s) <$> seq 0 (n_classes (labels s)).
Proof.
  intros Hinv. apply list_eq. intros c.
  rewrite (inv_lengths s Hinv), !list_lookup_fmap.
  destruct (label_to_idx_list s !! c) as [l|] eqn:Hl; simpl.
  - rewrite lookup_seq_lt.
    + simpl. by rewrite (inv_length_count s c l Hinv Hl).
    + rewrite <- (inv_classes s Hinv). by eapply lookup_lt_Some.
  - rewrite lookup_ge_None_2; [done|]. rewrite length_seq.
    rewrite <- (inv_classes s Hinv). by apply lookup_ge_None.
Qed.

Lemma inv_longest_max s :
  inv s → longest_seq s = max_class_count (labels s).
Proof.
  intros Hinv. destruct (py_max_Ok _ _ (inv_longest s Hinv)) as [Hle Hel].
  rewrite (inv_lengths_counts s Hinv) in Hle, Hel. unfold max_class_count.
  destruct (foldr_max_bound
              (class_count (labels s) <$> seq 0 (n_classes (labels s))))
    as [Hle' Hel'].
  rewrite Forall_forall in Hle, Hle'.
  pose proof (Hle' _ Hel). apply Nat.le_antisymm; [done|].
  apply Hle, Hel'. intros Heq. rewrite Heq in Hel. by apply elem_of_nil in Hel.
Qed.

Lemma filled_active s r c :
  inv s → filled s → r < longest_seq s → c < n_classes (labels s) →
  ∃ v, active (labels s) v c ∧
       cell (data (data_source s)) r c = Some (np.to_uint32 v).
Proof.
  intros Hinv Hfill Hr Hc. destruct (Hfill r c Hr Hc) as (l & v & Hl & Hv & Hcell).
  exists v. split; [|done]. apply active_where.
  by rewrite <- (inv_perm s Hinv c l Hl).
Qed.

Lemma iter_stream_ok s g n :
  inv s → nonempty s → data_length s = Some n →
  ∃ stream s' g', __iter__ s g = Ok (stream, s', g') ∧
    inv s' ∧ filled s' ∧ nonempty s' ∧
    labels s' = labels s ∧ data_length s' = Some n ∧
    stream_ok (labels s) n stream.
Proof.
  intros Hinv Hne Hn.
  destruct (iter_spec s g n Hinv Hne Hn) as
    (stream & s' & g' & Hit & Hinv' & Hfill' & Hne' & Hlab & Hdl & Hlong
       & Hlen & Hall & Hfirst).
  exists stream, s', g'. split_and!; try done; [congruence|].
  pose proof (inv_shape s' Hinv') as Hsh.
  assert (∀ r c x, cell (data (data_source s')) r c = Some x →
            c < n_classes (labels s) ∧
            ∃ v, active (labels s) v c ∧ x = np.to_uint32 v) as Hcell.
  { intros r c x Hx.
    destruct (cell_Some_lt _ _ _ _ (inv_wf s' Hinv') Hx) as [Hr Hc].
    rewrite Hsh in Hr, Hc. simpl in Hr, Hc. rewrite <- Hlab. split; [done|].
    destruct (filled_active s' r c Hinv' Hfill' Hr Hc) as (v & Hv & Hcv).
    exists v. split; [done | congruence]. }
  split_and!.
  - by rewrite Hlen, (inv_longest_max s Hinv).
  - intros x Hx. destruct (Hall x Hx) as (r & c & Hrc).
    destruct (Hcell r c x Hrc) as (_ & v & ? & ?). eauto.
  - intros Hle c Hc. destruct (Hfirst Hle) as [r Hr].
    destruct (Hr c Hc) as (x & Hx & Hrc).
    destruct (Hcell r c x Hrc) as (_ & v & ? & ->). eauto.
Qed.

Lemma epochs_spec k s g n :
  inv s → nonempty s → data_length s = Some n →
  ∃ streams s' g', epochs k s g = Ok (streams, s', g') ∧
    length streams = k ∧
    inv s' ∧ nonempty s' ∧ labels s' = labels s ∧ data_length s' = Some n ∧
    Forall (stream_ok (labels s) n) streams.
Proof.
  revert s g. induction k as [|k IH]; intros s g Hinv Hne Hn; simpl.
  - exists [], s, g. split_and!; done.
  - destruct (iter_stream_ok s g n Hinv Hne Hn) as
      (stream & s1 & g1 & Hit & Hinv1 & _ & Hne1 & Hlab1 & Hn1 & Hok).
    destruct (IH s1 g1 Hinv1 Hne1 Hn1) as
      (streams & s' & g' & Hep & Hlen & Hinv' & Hne' & Hlab' & Hn' & Hoks).
    rewrite Hit. simpl. rewrite Hep. simpl.
    exists (stream :: streams), s', g'.
    split_and!; try done; [simpl; lia | congruence |].
    constructor; [done|]. by rewrite <- Hlab1.
Qed.

Lemma to_uint32_small (v bound : N) :
  (v < bound)%N → (bound <= 2 ^ 32)%N → np.to_uint32 v = v.
Proof. intros ? ?. unfold np.to_uint32. apply N.mod_small. lia. Qed.

End sampler_streams.

(** ** MinimumOccupancySampler: the stated properties *)

Section sampler_claims.

Import MinimumOccupancySampler.

Lemma init_expected_length labels mode rs heap s :
  __init__ labels mode rs heap = Ok s →
  data_length s = expected_length labels mode.
Proof.
  intros H. destruct (init_inv _ _ _ _ _ H) as (Hinv & Hlab & Hdl).
  rewrite Hdl. unfold mode_length, expected_length.
  by rewrite (inv_longest_max s Hinv), Hlab.
Qed.

Lemma init_epochs labels mode rs heap s n k g :
  classes_occupied labels →
  __init__ labels mode rs heap = Ok s →
  expected_length labels mode = Some n →
  ∃ streams s' g', epochs k s g = Ok (streams, s', g') ∧
    length streams = k ∧ inv s' ∧ nonempty s' ∧
    MinimumOccupancySampler.labels s' = labels ∧
    data_length s' = Some n ∧ Forall (stream_ok labels n) streams.
Proof.
  intros Hocc Hinit Hn.
  destruct (init_inv _ _ _ _ _ Hinit) as (Hinv & Hlab & _).
  pose proof (init_expected_length _ _ _ _ _ Hinit) as Hdl.
  rewrite Hn in Hdl. rewrite <- Hlab in Hocc.
  destruct (epochs_spec k s g n Hinv (inv_nonempty s Hinv Hocc) Hdl) as
    (streams & s' & g' & ? & ? & ? & ? & ? & ? & ?).
  exists streams, s', g'. rewrite Hlab in *. split_and!; done.
Qed.

(** C7: for a label matrix whose rows each have an active class and whose
    classes are all non-empty, [__len__] returns the same fixed value (the
    number of rows in mode "same", the longest class count times the
    number of classes in mode "over") before and after any number of
    [__iter__] calls, every such call returns, and every emitted stream has
    exactly that many elements. *)
Theorem length_fixed_and_exact labels mode rs heap s L :
  wf_ndarray (entries labels) →
  Forall row_active (data (entries labels)) →
  classes_occupied labels →
  __init__ labels mode rs heap = Ok s →
  expected_length labels mode = Some L →
  __len__ s = Ok L ∧
  ∀ k g, ∃ streams s' g',
    epochs k s g = Ok (streams, s', g') ∧ length streams = k ∧
    Forall (λ stream, length stream = L) streams ∧ __len__ s' = Ok L.
Proof.
  intros Hwf Hrows Hocc Hinit HL. split.
  { unfold __len__, get_data_length.
    by rewrite (init_expected_length _ _ _ _ _ Hinit), HL. }
  intros k g.
  destruct (init_epochs labels mode rs heap s L k g Hocc Hinit HL) as
    (streams & s' & g' & Hep & Hlen & Hinv' & _ & Hlab' & Hdl' & Hoks).
  exists streams, s', g'. split_and!; [done | done | |].
  - eapply Forall_impl; [exact Hoks|]. intros stream (Hl & _).
    rewrite Hl. apply Nat.min_l.
    unfold expected_length in HL.
    destruct (String.eqb mode "same").
    + injection HL as <-.
      rewrite <- Hlab', <- (inv_longest_max s' Hinv').
      apply inv_rows_le; [done | by rewrite Hlab'..].
    + destruct (String.eqb mode "over"); [|discriminate].
      injection HL as <-. done.
  - unfold __len__, get_data_length. by rewrite Hdl'.
Qed.

End sampler_claims.

(** ** Concrete inputs *)

Section sampler_claims_2.

Import MinimumOccupancySampler.

(** The three-example matrix in mode "same": every stream has three
    elements. *)
Lemma length_fixed_and_exact_witness :
  ∃ s, __init__ labels_3x2 "same" gen_zeros heap_sevens = Ok s ∧
    __len__ s = Ok 3 ∧
    ∀ k g, ∃ streams s' g',
      epochs k s g = Ok (streams, s', g') ∧ length streams = k ∧
      Forall (λ stream, length stream = 3) streams ∧ __len__ s' = Ok 3.
Proof.
  eexists. split; [reflexivity|].
  apply (length_fixed_and_exact labels_3x2 "same" gen_zeros heap_sevens).
  - split; [reflexivity | repeat constructor].
  - repeat constructor; exists 0; reflexivity.
  - intros [|[|c]] Hc; [exists 0%N; reflexivity.. | vm_compute in Hc; lia].
  - reflexivity.
  - reflexivity.
Defined.




End sampler_claims_2.

(** ** MinimumOccupancySampler: the buffer across calls *)

Section sampler_buffer.

Import MinimumOccupancySampler.

Lemma iter_unset_raises s g :
  data_length s = None → raises (__iter__ s g).
Proof.
  intros Hn. unfold __iter__, _reshuffle.
  destruct (reshuffle_loop _ _ _ _ _) as [[d g1]|e]; simpl; [|by exists e].
  destruct (np.permutation _ _) as [perm rs1]. simpl.
  destruct (np.take_idx _ _) as [rows|e]; simpl; [|by exists e].
  destruct (np.concatenate _) as [flat|e]; simpl; [|by exists e].
  unfold get_data_length. simpl. rewrite Hn. by exists AttributeError.
Qed.

Lemma head_of_inv labels s :
  wf_ndarray (entries labels) → (N.of_nat (n_rows labels) <= 2 ^ 32)%N →
  inv s → MinimumOccupancySampler.labels s = labels → head_ok labels s.
Proof.
  intros Hwf Hbound Hinv <- c r Hc Hr.
  destruct (lookup_lt_is_Some_2 (label_to_idx_list s) c) as [l Hl].
  { by rewrite (inv_classes s Hinv). }
  rewrite <- (inv_length_count s c l Hinv Hl) in Hr.
  destruct (lookup_lt_is_Some_2 l r Hr) as [v Hv].
  assert (active (MinimumOccupancySampler.labels s) v c) as Ha.
  { apply active_where. rewrite <- (inv_perm s Hinv c l Hl).
    by eapply list_elem_of_lookup_2. }
  exists v. split; [|done]. rewrite (inv_head s Hinv c l r v Hl Hv).
  f_equal. destruct (active_valid _ _ _ Hwf Ha) as [Hlt _].
  by apply (to_uint32_small v _ Hlt).
Qed.

Lemma buffer_of_filled labels s :
  wf_ndarray (entries labels) → (N.of_nat (n_rows labels) <= 2 ^ 32)%N →
  inv s → MinimumOccupancySampler.labels s = labels → filled s →
  buffer_ok labels s.
Proof.
  intros Hwf Hbound Hinv <- Hfill. split.
  { by rewrite (inv_shape s Hinv), (inv_longest_max s Hinv). }
  intros c r Hc Hr. rewrite <- (inv_longest_max s Hinv) in Hr.
  destruct (filled_active s r c Hinv Hfill Hr Hc) as (v & Ha & Hcell).
  exists v. split; [|done]. rewrite Hcell. f_equal.
  destruct (active_valid _ _ _ Hwf Ha) as [Hlt _].
  by apply (to_uint32_small v _ Hlt).
Qed.

Lemma reachable_inv labels s0 s :
  classes_occupied labels → inv s0 →
  MinimumOccupancySampler.labels s0 = labels → reachable s0 s →
  inv s ∧ nonempty s ∧ MinimumOccupancySampler.labels s = labels ∧
  data_length s = data_length s0.
Proof.
  intros Hocc Hinv0 Hlab0. induction 1 as
    [|s g s' g' _ (Hinv & Hne & Hlab & Hdl) Hstep
     |s g stream s' g' _ (Hinv & Hne & Hlab & Hdl) Hstep].
  - split_and!; [done | | done..]. apply inv_nonempty; [done|].
    by rewrite Hlab0.
  - destruct (reshuffle_spec s g Hinv Hne) as (d & g1 & Hr & Hinv' & _).
    rewrite Hr in Hstep. injection Hstep as <- <-. split_and!; done.
  - destruct (data_length s) as [n|] eqn:Hn.
    + destruct (iter_stream_ok s g n Hinv Hne Hn) as
        (st & s1 & g1 & Hit & Hinv' & _ & Hne' & Hlab' & Hdl' & _).
      rewrite Hit in Hstep. injection Hstep as <- <- <-.
      split_and!; [done | done | congruence | congruence].
    + destruct (iter_unset_raises s g Hn) as [e He]. congruence.
Qed.

End sampler_buffer.

Section sampler_claims_3.

Import MinimumOccupancySampler.

(** C10, as stated, fails right after construction: the slots of a column
    beyond its class count hold whatever the allocated memory held. *)
Lemma slot_uninitialised_after_construction :
  wf_ndarray (entries labels_2x2) ∧ classes_occupied labels_2x2 ∧
  ∃ s, __init__ labels_2x2 "same" gen_zeros heap_sevens = Ok s ∧
    shape (data_source s) = (2, 2) ∧
    cell (data (data_source s)) 1 1 = Some 7%N ∧
    ¬ active labels_2x2 7%N 1 ∧
    ¬ slot_ok labels_2x2 s 1 1.
Proof.
  split_and!.
  - split; [reflexivity | repeat constructor].
  - intros [|[|c]] Hc; [exists 0%N; reflexivity.. | vm_compute in Hc; lia].
  - eexists. split; [reflexivity|]. split_and!; [reflexivity..| |].
    + intros Ha. vm_compute in Ha. discriminate.
    + intros (i & Hi & Ha). vm_compute in Hi. injection Hi as <-.
      vm_compute in Ha. discriminate.
Qed.

(** C10, amended: for a label matrix of at most [2^32] rows whose classes
    are all non-empty, after construction and after any sequence of
    [_reshuffle] and [__iter__] calls the first [class_count c] slots of
    column [c] hold indices of examples active in [c]; after every
    [_reshuffle] and every [__iter__] every slot of column [c] does; every
    index emitted by [__iter__] is an index of a row of the matrix; and
    [_reshuffle] always returns, as does [__iter__] in the modes "same" and
    "over". *)
Theorem buffer_holds_class_members labels mode rs heap s0 :
  wf_ndarray (entries labels) →
  classes_occupied labels →
  (N.of_nat (n_rows labels) <= 2 ^ 32)%N →
  __init__ labels mode rs heap = Ok s0 →
  ∀ s, reachable s0 s →
    head_ok labels s ∧
    (∀ g, ∃ s' g', _reshuffle s g = Ok (s', g') ∧ buffer_ok labels s') ∧
    (∀ g stream s' g', __iter__ s g = Ok (stream, s', g') →
       buffer_ok labels s' ∧
       ∀ i, i ∈ stream → (i < N.of_nat (n_rows labels))%N) ∧
    (mode = "same" ∨ mode = "over" → ∀ g, returns (__iter__ s g)).
Proof.
  intros Hwf Hocc Hbound Hinit s Hreach.
  destruct (init_inv _ _ _ _ _ Hinit) as (Hinv0 & Hlab0 & _).
  pose proof (init_expected_length _ _ _ _ _ Hinit) as Hdl0.
  destruct (reachable_inv labels s0 s Hocc Hinv0 Hlab0 Hreach) as
    (Hinv & Hne & Hlab & Hdl).
  split_and!.
  - by apply head_of_inv.
  - intros g. destruct (reshuffle_spec s g Hinv Hne) as
      (d & g' & Hr & Hinv' & Hfill').
    exists (set_data_source s d), g'. split; [done|].
    by apply buffer_of_filled.
  - intros g stream s' g' Hit.
    destruct (data_length s) as [n|] eqn:Hn.
    + destruct (iter_stream_ok s g n Hinv Hne Hn) as
        (st & s1 & g1 & Hit' & Hinv' & Hfill' & _ & Hlab' & _ & Hok).
      rewrite Hit' in Hit. injection Hit as <- <- <-. split.
      * apply buffer_of_filled; [done..| congruence | done].
      * intros i Hi. destruct Hok as (_ & Hall & _).
        destruct (Hall i Hi) as (v & c & Ha & ->). rewrite Hlab in Ha.
        destruct (active_valid _ _ _ Hwf Ha) as [Hlt _].
        by rewrite (to_uint32_small v _ Hlt).
    + destruct (iter_unset_raises s g Hn) as [e He]. congruence.
  - intros Hmode g.
    assert (∃ n, data_length s = Some n) as [n Hn].
    { rewrite Hdl, Hdl0. destruct Hmode as [-> | ->]; eexists; reflexivity. }
    destruct (iter_stream_ok s g n Hinv Hne Hn) as (st & s1 & g1 & Hit & _).
    by exists (st, s1, g1).
Qed.

(** The two-example matrix: the buffer invariant along every sequence of
    calls. *)
Lemma buffer_holds_class_members_witness :
  ∃ s0, __init__ labels_2x2 "same" gen_zeros heap_sevens = Ok s0 ∧
  ∀ s, reachable s0 s →
    head_ok labels_2x2 s ∧
    (∀ g, ∃ s' g', _reshuffle s g = Ok (s', g') ∧ buffer_ok labels_2x2 s') ∧
    (∀ g stream s' g', __iter__ s g = Ok (stream, s', g') →
       buffer_ok labels_2x2 s' ∧
       ∀ i, i ∈ stream → (i < N.of_nat (n_rows labels_2x2))%N) ∧
    ("same" = "same" ∨ "same" = "over" → ∀ g, returns (__iter__ s g)).
Proof.
  eexists. split; [reflexivity|].
  apply (buffer_holds_class_members labels_2x2 "same" gen_zeros heap_sevens).
  - split; [reflexivity | repeat constructor].
  - intros [|[|c]] Hc; [exists 0%N; reflexivity.. | vm_compute in Hc; lia].
  - vm_compute. discriminate.
  - reflexivity.
Defined.

(** C5, as stated, fails: a sampling mode outside "same" and "over" is
    accepted by the constructor. *)
Lemma unsupported_mode_constructs :
  ¬ raises (__init__ labels_3x2 "mean" gen_zeros heap_sevens).
Proof. intros [e He]. vm_compute in He. discriminate. Qed.

(** C5, amended: for a label matrix with at least one class column, the
    constructor accepts a sampling mode outside "same" and "over" and leaves
    [data_length] unset; [__len__] and [__iter__] then fail on the missing
    attribute or earlier. *)
Theorem unsupported_mode_fails_late labels mode rs heap :
  0 < n_classes labels → mode ≠ "same" → mode ≠ "over" →
  ∃ s, __init__ labels mode rs heap = Ok s ∧
    data_length s = None ∧
    __len__ s = Raise AttributeError ∧
    ∀ g, raises (__iter__ s g).
Proof.
  intros Hn Hsame Hover.
  destruct (init_returns labels mode rs heap Hn) as [s Hs].
  pose proof (init_expected_length _ _ _ _ _ Hs) as Hdl.
  unfold expected_length in Hdl.
  apply String.eqb_neq in Hsame, Hover. rewrite Hsame, Hover in Hdl.
  exists s. split_and!; [done | done | |].
  - unfold __len__, get_data_length. by rewrite Hdl.
  - intros g. by apply iter_unset_raises.
Qed.

(** Mode "mean" on the three-example matrix. *)
Lemma unsupported_mode_fails_late_witness :
  ∃ s, __init__ labels_3x2 "mean" gen_zeros heap_sevens = Ok s ∧
    data_length s = None ∧
    __len__ s = Raise AttributeError ∧
    ∀ g, raises (__iter__ s g).
Proof.
  apply (unsupported_mode_fails_late labels_3x2 "mean" gen_zeros heap_sevens).
  - vm_compute. lia.
  - discriminate.
  - discriminate.
Defined.

End sampler_claims_3.

(** ** MinimumOccupancySampler: a class without examples *)

Section sampler_empty_class.

Import MinimumOccupancySampler.

Lemma reshuffle_loop_shape longest idx_lists items a g a' g' :
  reshuffle_loop longest idx_lists items a g = Ok (a', g') →
  shape a' = shape a.
Proof.
  revert a g. induction items as [|[ix leng] items IH]; intros a g H;
    simpl in H.
  - by injection H as <- <-.
  - apply bind_Ok in H as ([idxs g1] & _ & H).
    apply bind_Ok in H as (l & _ & H).
    apply bind_Ok in H as (vals & _ & H).
    apply bind_Ok in H as (a1 & Ha1 & H).
    rewrite (IH _ _ H). by eapply assign_col_shape.
Qed.

Lemma reshuffle_loop_raises longest idx_lists items a g ix :
  (ix, 0) ∈ items → 0 < longest →
  raises (reshuffle_loop longest idx_lists items a g).
Proof.
  intros Hel Hpos. revert a g.
  induction items as [|[ix' leng] items IH]; intros a g;
    [by apply elem_of_nil in Hel|].
  simpl. apply elem_of_cons in Hel as [[= <- <-]|Hel].
  - apply bind_Raise_l. unfold np.randint.
    rewrite decide_False by lia. rewrite decide_True by done.
    by exists ValueError.
  - destruct (np.randint _ _ _) as [[idxs g1]|e]; simpl; [|by exists e].
    destruct (np.getitem _ _) as [l|e]; simpl; [|by exists e].
    destruct (np.take_idx _ _) as [vals|e]; simpl; [|by exists e].
    destruct (np.assign_col _ _ _ _ _) as [a1|e]; simpl; [|by exists e].
    by apply IH.
Qed.

Lemma iter_empty_class_raises s g c :
  inv s → label_to_idx_list s !! c = Some [] → raises (__iter__ s g).
Proof.
  intros Hinv Hc. unfold __iter__, _reshuffle.
  destruct (decide (longest_seq s = 0)) as [Hz|Hnz].
  - destruct (reshuffle_loop _ _ _ _ _) as [[d g1]|e] eqn:E; simpl;
      [|by exists e].
    apply reshuffle_loop_shape in E. rewrite E, (inv_shape s Hinv), Hz.
    simpl. by exists ValueError.
  - do 2 apply bind_Raise_l.
    apply (reshuffle_loop_raises _ _ _ _ _ c); [|lia].
    apply elem_of_enumerate.
    by rewrite (inv_lengths s Hinv), list_lookup_fmap, Hc.
Qed.

(** C6, as stated, fails: the constructor accepts a label matrix with a
    class column without any active example. *)
Lemma empty_class_constructs :
  (∀ i, ¬ active labels_empty_class i 1) ∧
  ¬ raises (__init__ labels_empty_class "same" gen_zeros heap_sevens).
Proof.
  split.
  - intros i Ha. unfold active in Ha.
    destruct (N.to_nat i) as [|[|[|r]]]; vm_compute in Ha; discriminate.
  - intros [e He]. vm_compute in He. discriminate.
Qed.

(** C6, amended: the constructor accepts a label matrix in which some class
    column has no active example; the failure surfaces only when the
    sampler is iterated, and then at every [__iter__] call. *)
Theorem empty_class_fails_late labels mode rs heap c :
  c < n_classes labels → (∀ i, ¬ active labels i c) →
  ∃ s, __init__ labels mode rs heap = Ok s ∧ ∀ g, raises (__iter__ s g).
Proof.
  intros Hc Hnone.
  destruct (init_returns labels mode rs heap) as [s Hs]; [lia|].
  destruct (init_inv _ _ _ _ _ Hs) as (Hinv & Hlab & _).
  exists s. split; [done|]. intros g.
  destruct (lookup_lt_is_Some_2 (label_to_idx_list s) c) as [l Hl].
  { by rewrite (inv_classes s Hinv), Hlab. }
  apply (iter_empty_class_raises s g c Hinv). rewrite Hl. f_equal.
  destruct l as [|v l]; [done|]. exfalso. apply (Hnone v).
  rewrite <- Hlab. apply active_where.
  rewrite <- (inv_perm s Hinv c _ Hl). left.
Qed.

(** The matrix whose class 1 has no example. *)
Lemma empty_class_fails_late_witness :
  ∃ s, __init__ labels_empty_class "same" gen_zeros heap_sevens = Ok s ∧
    ∀ g, raises (__iter__ s g).
Proof.
  apply (empty_class_fails_late labels_empty_class "same" gen_zeros
           heap_sevens 1).
  - vm_compute. lia.
  - intros i Ha. unfold active in Ha.
    destruct (N.to_nat i) as [|[|[|r]]]; vm_compute in Ha; discriminate.
Defined.

(** C9: the tail of the buffer is redrawn from numpy's global generator,
    so two samplers built from one label matrix with one seed emit
    different streams when the global generator is in different states. *)
Theorem epoch_depends_on_global_generator :
  ∃ sA sB streamA streamB sA' sB' gA' gB',
    __init__ labels_3x2 "over" gen_zeros heap_sevens = Ok sA ∧
    __init__ labels_3x2 "over" gen_zeros heap_sevens = Ok sB ∧
    __iter__ sA gen_zeros = Ok (streamA, sA', gA') ∧
    __iter__ sB gen_ones = Ok (streamB, sB', gB') ∧
    streamA = [0; 0; 1; 1; 2; 0]%N ∧ streamB = [0; 0; 1; 1; 2; 1]%N.
Proof.
  eexists _, _, _, _, _, _, _, _.
  split_and!; reflexivity.
Qed.

End sampler_empty_class.

(** ** torch.multinomial *)

Section multinomial_facts.

Lemma Qsum_nonneg l : Forall (λ w, (0 <= w)%Q) l → (0 <= torch.Qsum l)%Q.
Proof. induction 1 as [|w l Hw _ IH]; simpl; lra. Qed.











End multinomial_facts.

(** ** MultiBalancedSampler *)

Section balanced_facts.

Import MultiBalancedSampler.

Lemma mapM_Ok_fmap {A B} (f : A → result B) (h : A → B) l :
  (∀ x, x ∈ l → f x = Ok (h x)) → mapM f l = Ok (h <$> l).
Proof.
  induction l as [|x l IH]; intros H; simpl; [done|].
  rewrite (H x) by left. simpl. rewrite IH; [done|].
  intros y Hy. apply H. by right.
Qed.

Lemma mapM_Ok_length {A B} (f : A → result B) l l' :
  mapM f l = Ok l' → length l' = length l.
Proof.
  revert l'. induction l as [|x l IH]; intros l' H; simpl in H.
  - by injection H as <-.
  - inv_bind H. subst l'. simpl. by rewrite (IH _ Ha0).
Qed.

Lemma colsum_binary (col : list Z) :
  Forall (λ x, x = 0%Z ∨ x = 1%Z) col →
  foldr Z.add 0%Z col = Z.of_nat (length (np.where_eq1 col)).
Proof.
  unfold np.where_eq1. rewrite where_eq1_from_length.
  induction 1 as [|x col [-> | ->] _ IH]; simpl; [done|..]; rewrite IH;
    unfold ind; simpl; lia.
Qed.

Lemma column_binary Y c :
  binary Y → Forall (λ x, x = 0%Z ∨ x = 1%Z) (column Y c).
Proof.
  intros Hb. unfold column. apply Forall_fmap, Forall_forall.
  intros row Hrow. simpl. unfold binary in Hb. rewrite Forall_forall in Hb.
  specialize (Hb row Hrow). destruct (row !! c) as [x|] eqn:E; simpl.
  - rewrite Forall_lookup in Hb. eauto.
  - by left.
Qed.

Lemma sum_axis0_binary Y :
  binary Y →
  sum_axis0 Y = (λ c, Z.of_nat (class_count Y c)) <$> seq 0 (n_classes Y).
Proof.
  intros Hb. unfold sum_axis0. apply list_fmap_ext. intros _ c _.
  apply colsum_binary, column_binary, Hb.
Qed.

Lemma compress_spec k row :
  Forall (λ x, x = 0%Z ∨ x = 1%Z) row →
  NoDup (compress (seq k (length row)) row) ∧
  ∀ c, c ∈ compress (seq k (length row)) row ↔
       k ≤ c ∧ row !! (c - k) = Some 1%Z.
Proof.
  intros Hb. revert k. induction Hb as [|x row Hx _ IH]; intros k; simpl.
  - split; [constructor|]. intros c. split; [by intros ?%elem_of_nil|].
    by intros [_ ?].
  - destruct (IH (S k)) as [IHnd IHel].
    assert (∀ c, (S k ≤ c ∧ row !! (c - S k) = Some 1%Z) ↔
                 (k ≤ c ∧ c ≠ k ∧ (x :: row) !! (c - k) = Some 1%Z)) as Hshift.
    { intros c. split.
      - intros [Hle Hc]. split_and!; [lia..|].
        replace (c - k) with (S (c - S k)) by lia. done.
      - intros (Hle & Hne & Hc). split; [lia|].
        replace (c - k) with (S (c - S k)) in Hc by lia. done. }
    destruct Hx as [-> | ->]; simpl.
    + split; [done|]. intros c. rewrite IHel, Hshift. split.
      * intros (? & ? & ?). done.
      * intros [Hle Hc]. split_and!; [done | | done]. intros ->.
        rewrite Nat.sub_diag in Hc. simpl in Hc. congruence.
    + split.
      * constructor; [|done]. rewrite IHel. lia.
      * intros c. rewrite elem_of_cons, IHel, Hshift. split.
        -- intros [-> | (? & ? & ?)]; [|done].
           rewrite Nat.sub_diag. done.
        -- intros [Hle Hc]. destruct (decide (c = k)); [by left | by right].
Qed.

End balanced_facts.

Section balanced_facts_2.

Import MultiBalancedSampler.

Lemma inv_freq_pos Y c : 0 < class_count Y c → (0 < inv_freq Y c)%Q.
Proof.
  intros H. unfold inv_freq. apply Qlt_shift_div_l.
  - unfold Qlt. simpl. lia.
  - lra.
Qed.

Lemma Qsum_pos l :
  l ≠ [] → Forall (λ w, (0 < w)%Q) l → (0 < torch.Qsum l)%Q.
Proof.
  intros Hne H. destruct H as [|w l Hw Hl]; [done|]. simpl.
  assert (0 <= torch.Qsum l)%Q; [|lra].
  apply Qsum_nonneg. eapply Forall_impl; [exact Hl|]. simpl. intros. lra.
Qed.

Lemma Qsum_div l T :
  ¬ (T == 0)%Q →
  (torch.Qsum ((λ x, x / T)%Q <$> l) == torch.Qsum l / T)%Q.
Proof.
  intros HT. induction l as [|x l IH]; simpl.
  - field. done.
  - rewrite IH. field. done.
Qed.

Lemma mean_pos l : l ≠ [] → Forall (λ w, (0 < w)%Q) l → (0 < mean l)%Q.
Proof.
  intros Hne H. unfold mean. apply Qlt_shift_div_l.
  - destruct l; [done|]. unfold Qlt. simpl. lia.
  - pose proof (Qsum_pos l Hne H). lra.
Qed.

Lemma occupied_count Y c :
  classes_occupied Y → c < n_classes Y → 0 < class_count Y c.
Proof.
  intros Hocc Hc. destruct (Hocc c Hc) as [i Hi]. apply active_where in Hi.
  unfold class_count. destruct (np.where_eq1 _); [|simpl; lia].
  by apply elem_of_nil in Hi.
Qed.

Lemma inv_freq_total_pos Y :
  classes_occupied Y → 0 < n_classes Y →
  (0 < torch.Qsum (inv_freq Y <$> seq 0 (n_classes Y)))%Q.
Proof.
  intros Hocc Hn. apply Qsum_pos.
  - destruct (n_classes Y); [lia | done].
  - apply Forall_fmap, Forall_forall. intros c Hc. simpl.
    apply inv_freq_pos, occupied_count; [done|]. apply elem_of_seq in Hc. lia.
Qed.

Lemma class_weight_pos Y c :
  classes_occupied Y → c < n_classes Y → (0 < class_weight Y c)%Q.
Proof.
  intros Hocc Hc. unfold class_weight.
  pose proof (inv_freq_total_pos Y Hocc ltac:(lia)).
  pose proof (inv_freq_pos Y c (occupied_count Y c Hocc Hc)).
  apply Qlt_shift_div_l; [done | lra].
Qed.

Lemma class_weights_sum Y :
  classes_occupied Y → 0 < n_classes Y →
  (torch.Qsum (class_weight Y <$> seq 0 (n_classes Y)) == 1)%Q.
Proof.
  intros Hocc Hn. pose proof (inv_freq_total_pos Y Hocc Hn) as HT.
  set (T := torch.Qsum (inv_freq Y <$> seq 0 (n_classes Y))) in *.
  assert (class_weight Y <$> seq 0 (n_classes Y) =
          (λ x, (x / T)%Q) <$> (inv_freq Y <$> seq 0 (n_classes Y))) as ->.
  { by rewrite <- list_fmap_compose. }
  rewrite Qsum_div by lra. fold T. field. lra.
Qed.

Lemma take_idx_fmap_seq {A} (f : nat → A) n ids :
  Forall (λ i, i < n) ids → np.take_idx (f <$> seq 0 n) ids = Ok (f <$> ids).
Proof.
  intros H. unfold np.take_idx. apply mapM_Ok_fmap. intros i Hi.
  rewrite Forall_forall in H. apply getitem_Ok.
  rewrite list_lookup_fmap, lookup_seq_lt by auto. done.
Qed.

End balanced_facts_2.

Section balanced_claims.

Import MultiBalancedSampler.

Lemma compress_row Y row :
  wf_ndarray (entries Y) → binary Y → row ∈ data (entries Y) →
  NoDup (compress (seq 0 (n_classes Y)) row) ∧
  ∀ c, c ∈ compress (seq 0 (n_classes Y)) row ↔ row !! c = Some 1%Z.
Proof.
  intros [_ Hwf] Hb Hrow. unfold binary in Hb.
  rewrite Forall_forall in Hwf, Hb. unfold n_classes.
  rewrite <- (Hwf row Hrow).
  destruct (compress_spec 0 row (Hb row Hrow)) as [Hnd Hel].
  split; [done|]. intros c. rewrite Hel, Nat.sub_0_r. split; [by intros [_ ?]|].
  intros ?. split; [lia | done].
Qed.

Lemma sample_weight_row Y row :
  wf_ndarray (entries Y) → binary Y → row ∈ data (entries Y) →
  row_active row →
  sample_weight (class_weight Y <$> seq 0 (n_classes Y))
    (compress (seq 0 (n_classes Y)) row) = Ok (weight_of Y row).
Proof.
  intros Hwf Hb Hrow [c Hc].
  destruct (compress_row Y row Hwf Hb Hrow) as [_ Hel].
  unfold sample_weight, weight_of.
  destruct (compress (seq 0 (n_classes Y)) row) as [|c0 ids] eqn:E.
  { apply Hel in Hc. by apply elem_of_nil in Hc. }
  rewrite take_idx_fmap_seq; [done|].
  apply Forall_forall. intros c' Hc'. apply Hel in Hc'.
  destruct Hwf as [_ Hwf]. rewrite Forall_forall in Hwf.
  unfold n_classes. rewrite <- (Hwf row Hrow). by eapply lookup_lt_Some.
Qed.

Lemma balanced_init_spec Y replacement num_samples :
  issparse Y = false → wf_ndarray (entries Y) → binary Y →
  Forall row_active (data (entries Y)) → 0 < n_rows Y →
  ∃ len,
    __init__ Y replacement num_samples =
    Ok (mk (weight_of Y <$> data (entries Y)) len (default false replacement)) ∧
    len = match num_samples with Some (S n) => S n | _ => n_rows Y end.
Proof.
  intros Hdense Hwf Hb Hact Hrows. unfold __init__. rewrite Hdense.
  rewrite (sum_axis0_binary Y Hb).
  assert ((λ w, (w / torch.Qsum ((λ c, (1 / inject_Z c)%Q) <$>
              ((λ c, Z.of_nat (class_count Y c)) <$> seq 0 (n_classes Y))))%Q)
            <$> ((λ c, (1 / inject_Z c)%Q) <$>
              ((λ c, Z.of_nat (class_count Y c)) <$> seq 0 (n_classes Y)))
          = class_weight Y <$> seq 0 (n_classes Y)) as ->.
  { rewrite <- !list_fmap_compose. done. }
  pose proof Hwf as [Hlen Hcols].
  assert (∃ row0, np.getitem (data (entries Y)) 0 = Ok row0 ∧
                  length row0 = n_classes Y) as (row0 & -> & Hrow0).
  { destruct (data (entries Y)) as [|row0 rows']; simpl in Hlen.
    - unfold n_rows in Hrows. lia.
    - exists row0. split; [done|]. by apply Forall_cons in Hcols as [? _]. }
  simpl mbind. rewrite Hrow0.
  rewrite (mapM_Ok_fmap _ (λ ids, mean (class_weight Y <$> ids))).
  - simpl mbind. rewrite <- list_fmap_compose. eexists. split; [reflexivity|].
    unfold n_rows. rewrite <- Hlen. done.
  - intros ids Hids. apply list_elem_of_fmap in Hids as (row & -> & Hrow).
    apply sample_weight_row; [done..|].
    rewrite Forall_forall in Hact. by apply Hact.
Qed.


Lemma balanced_init_fields Y replacement num_samples s :
  __init__ Y replacement num_samples = Ok s →
  _replacement s = default false replacement ∧ 0 < _len s ∧
  length (_weights s) = length (data (entries Y)).
Proof.
  unfold __init__. intros H. destruct (issparse Y); [discriminate|].
  apply bind_Ok in H as (row0 & Hrow0 & H).
  apply bind_Ok in H as (ws & Hws & H). injection H as <-. simpl.
  apply getitem_Ok in Hrow0. apply lookup_lt_Some in Hrow0.
  apply mapM_Ok_length in Hws. rewrite length_fmap in Hws.
  split_and!; [done | | done]. destruct num_samples as [[|n]|]; lia.
Qed.

(** C4, as stated, fails: the per-example weights are means of class
    weights and are not normalised; here they sum to 4/3. *)
Lemma sample_weights_sum_exceeds_one :
  issparse labels_3x2_onehot = false ∧
  wf_ndarray (entries labels_3x2_onehot) ∧ binary labels_3x2_onehot ∧
  Forall row_active (data (entries labels_3x2_onehot)) ∧
  classes_occupied labels_3x2_onehot ∧
  ∃ s, __init__ labels_3x2_onehot None None = Ok s ∧
    (torch.Qsum (_weights s) == 4 # 3)%Q ∧
    ¬ (torch.Qsum (_weights s) == 1)%Q.
Proof.
  split_and!.
  - reflexivity.
  - split; [reflexivity | repeat constructor].
  - unfold binary. simpl.
    repeat match goal with
           | |- Forall _ _ => constructor
           | |- _ ∨ _ => (left; reflexivity) || (right; reflexivity)
           end.
  - repeat constructor; [exists 0 | exists 0 | exists 1]; reflexivity.
  - intros [|[|c]] Hc;
      [exists 0%N | exists 2%N | vm_compute in Hc; lia]; reflexivity.
  - eexists. split; [reflexivity|]. split; [reflexivity|].
    intros H. vm_compute in H. discriminate.
Qed.

(** C4, amended: for a dense 0/1 label matrix with no all-zero row and no
    empty class, construction succeeds when there is at least one row, and
    the stored weights, one per example, are all positive (so
    non-negative), each the mean, over the active classes of the example,
    of the inverse class frequencies normalised to sum to 1 across the
    classes. *)
Theorem sample_weights_positive_means Y replacement num_samples :
  issparse Y = false → wf_ndarray (entries Y) → binary Y →
  Forall row_active (data (entries Y)) → classes_occupied Y →
  (0 < n_rows Y → returns (__init__ Y replacement num_samples)) ∧
  ∀ s, __init__ Y replacement num_samples = Ok s →
    length (_weights s) = n_rows Y ∧
    Forall (λ w, (0 < w)%Q) (_weights s) ∧
    (∀ i row, data (entries Y) !! i = Some row →
       ∃ ids, NoDup ids ∧ (∀ c, c ∈ ids ↔ row !! c = Some 1%Z) ∧
         _weights s !! i = Some (mean (class_weight Y <$> ids))) ∧
    (torch.Qsum (class_weight Y <$> seq 0 (n_classes Y)) == 1)%Q.
Proof.
  intros Hdense Hwf Hb Hact Hocc. split.
  { intros Hrows.
    destruct (balanced_init_spec Y replacement num_samples) as (len & -> & _);
      [done..|]. eexists; reflexivity. }
  intros s Hs.
  destruct (balanced_init_fields _ _ _ _ Hs) as (_ & _ & Hwlen).
  assert (0 < n_rows Y) as Hrows.
  { unfold __init__ in Hs. rewrite Hdense in Hs.
    apply bind_Ok in Hs as (row0 & Hrow0 & _).
    apply getitem_Ok, lookup_lt_Some in Hrow0.
    destruct Hwf as [Hlen _]. unfold n_rows. lia. }
  destruct (balanced_init_spec Y replacement num_samples) as (len & Hs' & _);
    [done..|].
  rewrite Hs' in Hs. injection Hs as <-. simpl.
  assert (∀ row, row ∈ data (entries Y) →
            compress (seq 0 (n_classes Y)) row ≠ [] ∧
            Forall (λ c, c < n_classes Y) (compress (seq 0 (n_classes Y)) row))
    as Hids.
  { intros row Hrow.
    destruct (compress_row Y row Hwf Hb Hrow) as [_ Hel].
    rewrite Forall_forall in Hact. destruct (Hact row Hrow) as [c Hc]. split.
    - intros Heq. apply Hel in Hc. rewrite Heq in Hc.
      by apply elem_of_nil in Hc.
    - apply Forall_forall. intros c' Hc'. apply Hel in Hc'.
      destruct Hwf as [_ Hwf]. rewrite Forall_forall in Hwf.
      unfold n_classes. rewrite <- (Hwf row Hrow). by eapply lookup_lt_Some. }
  assert (0 < n_classes Y) as Hn.
  { destruct (data (entries Y)) as [|row rows] eqn:Hd.
    - destruct Hwf as [Hlen _]. unfold n_rows in Hrows. rewrite Hd in Hlen.
      simpl in Hlen. lia.
    - destruct (Hids row ltac:(left)) as [Hne Hlt].
      destruct (compress _ row) as [|c ?]; [done|].
      apply Forall_cons in Hlt as [? _]. lia. }
  split_and!.
  - rewrite length_fmap. by destruct Hwf.
  - apply Forall_fmap, Forall_forall. intros row Hrow. simpl.
    destruct (Hids row Hrow) as [Hne Hlt]. unfold weight_of.
    apply mean_pos.
    + by destruct (compress _ row).
    + apply Forall_fmap. eapply Forall_impl; [exact Hlt|]. simpl.
      intros c Hc. by apply class_weight_pos.
  - intros i row Hrow. exists (compress (seq 0 (n_classes Y)) row).
    destruct (compress_row Y row Hwf Hb) as [Hnd Hel].
    { by eapply list_elem_of_lookup_2. }
    split_and!; [done | done |]. by rewrite list_lookup_fmap, Hrow.
  - by apply class_weights_sum.
Qed.

(** The one-hot three-example matrix. *)
Lemma sample_weights_positive_means_witness :
  (0 < n_rows labels_3x2_onehot →
   returns (__init__ labels_3x2_onehot None None)) ∧
  ∀ s, __init__ labels_3x2_onehot None None = Ok s →
    length (_weights s) = n_rows labels_3x2_onehot ∧
    Forall (λ w, (0 < w)%Q) (_weights s) ∧
    (∀ i row, data (entries labels_3x2_onehot) !! i = Some row →
       ∃ ids, NoDup ids ∧ (∀ c, c ∈ ids ↔ row !! c = Some 1%Z) ∧
         _weights s !! i =
         Some (mean (class_weight labels_3x2_onehot <$> ids))) ∧
    (torch.Qsum (class_weight labels_3x2_onehot <$>
                   seq 0 (n_classes labels_3x2_onehot)) == 1)%Q.
Proof.
  apply (sample_weights_positive_means labels_3x2_onehot None None).
  - reflexivity.
  - split; [reflexivity | repeat constructor].
  - unfold binary. simpl.
    repeat match goal with
           | |- Forall _ _ => constructor
           | |- _ ∨ _ => (left; reflexivity) || (right; reflexivity)
           end.
  - repeat constructor; [exists 0 | exists 0 | exists 1]; reflexivity.
  - intros [|[|c]] Hc;
      [exists 0%N | exists 2%N | vm_compute in Hc; lia]; reflexivity.
Defined.




End balanced_claims.

(** ** Padding and collation: properties *)

Section collation_facts.

Lemma py_max_max_list l m : np.py_max l = Ok m → m = max_list l.
Proof.
  intros H. destruct (py_max_Ok _ _ H) as [Hle Hel].
  assert (l ≠ []) as Hne by (intros ->; by apply elem_of_nil in Hel).
  pose proof (max_list_elem_of_le _ _ Hel).
  pose proof (max_list_elem_of l Hne) as Hel'.
  rewrite Forall_forall in Hle. specialize (Hle _ Hel'). lia.
Qed.

Lemma pad_loop_spec d items out :
  NoDup items.*1 →
  (∀ i t, (i, t) ∈ items → (shape t).2 = d) →
  ∃ out', pad_loop d items out = Ok out' ∧
    length out' = length out ∧
    (∀ i, i ∉ items.*1 → out' !! i = out !! i) ∧
    (∀ i t, (i, t) ∈ items →
       out' !! i =
       (λ m, take (shape t).1 (data t) ++ drop (shape t).1 m) <$> out !! i).
Proof.
  revert out. induction items as [|[i t] items IH]; intros out Hnd Hd.
  - exists out. split_and!; [done..|]. intros i t Hel.
    by apply elem_of_nil in Hel.
  - simpl in Hnd. apply NoDup_cons in Hnd as [Hni Hnd].
    simpl. unfold broadcast_rows.
    rewrite decide_True by (apply (Hd i); left).
    simpl.
    destruct (IH (alter (λ m, take (shape t).1 (data t) ++ drop (shape t).1 m)
                    i out)) as (out' & Hout' & Hlen' & Hne' & Hin');
      [done | by intros j t' ?; apply (Hd j); right |].
    exists out'. split_and!.
    + done.
    + by rewrite Hlen', length_alter.
    + intros j Hj. apply not_elem_of_cons in Hj as [Hj1 Hj2].
      rewrite Hne' by done. by rewrite list_lookup_alter_ne.
    + intros j t' [[= -> ->] | Hel]%elem_of_cons.
      * rewrite Hne' by done. rewrite list_lookup_alter.
        by rewrite decide_True.
      * rewrite (Hin' _ _ Hel). rewrite list_lookup_alter_ne; [done|].
        intros ->. apply Hni. apply list_elem_of_fmap. by exists (j, t').
Qed.

Lemma pad_spec tensorlist pv d :
  tensorlist ≠ [] →
  Forall (λ t, wf_ndarray t ∧ (shape t).2 = d) tensorlist →
  ∃ out,
    pad tensorlist pv =
    Ok (torch.mk_tensor3
          (length tensorlist, max_list (time_length <$> tensorlist), d) out,
        time_length <$> tensorlist) ∧
    length out = length tensorlist ∧
    ∀ i t, tensorlist !! i = Some t →
      out !! i = Some (padded (max_list (time_length <$> tensorlist)) d pv t).
Proof.
  intros Hne Hwf. unfold pad.
  change (λ f : ndarray Q, (shape f).1) with time_length.
  destruct (py_max_returns (time_length <$> tensorlist)) as [max_len Hmax].
  { by destruct tensorlist. }
  rewrite Hmax. simpl mbind.
  pose proof (py_max_max_list _ _ Hmax) as Hmax'.
  assert (∃ first, np.getitem tensorlist 0 = Ok first ∧ (shape first).2 = d)
    as (first & -> & Hfirst).
  { destruct tensorlist as [|first rest]; [done|]. exists first.
    split; [done|]. by apply Forall_cons in Hwf as [[_ ?] _]. }
  simpl mbind. rewrite Hfirst.
  destruct (pad_loop_spec d (np.enumerate tensorlist)
    (torch.data3 (torch.full (length (time_length <$> tensorlist), max_len, d)
                    pv))) as (out & Hout & Hlen & _ & Hin).
  { rewrite enumerate_fst. apply NoDup_seq. }
  { intros i t Hel. apply elem_of_enumerate in Hel.
    rewrite Forall_lookup in Hwf. by destruct (Hwf _ _ Hel). }
  simpl in Hout, Hlen, Hin. rewrite Hout. simpl mbind.
  rewrite length_replicate, length_fmap in Hlen.
  exists out. rewrite length_fmap, <- Hmax'. split_and!; [done | done |].
  intros i t Hi. rewrite (Hin i t) by (by apply elem_of_enumerate).
  rewrite length_fmap, lookup_replicate_2 by (by eapply lookup_lt_Some).
  simpl. f_equal. unfold padded, time_length.
  rewrite Forall_lookup in Hwf. destruct (Hwf _ _ Hi) as [[Hl _] _].
  rewrite take_ge by lia. by rewrite drop_replicate.
Qed.


Lemma padded_spec max_len d pv t :
  wf_ndarray t → (shape t).2 = d → time_length t ≤ max_len →
  length (padded max_len d pv t) = max_len ∧
  Forall (λ row, length row = d) (padded max_len d pv t) ∧
  take (time_length t) (padded max_len d pv t) = data t ∧
  ∀ k, time_length t ≤ k < max_len →
       padded max_len d pv t !! k = Some (replicate d pv).
Proof.
  intros [Hl Hr] Hd Hle. unfold padded, time_length in *. split_and!.
  - rewrite length_app, length_replicate. lia.
  - apply Forall_app. split; [by rewrite <- Hd|].
    apply Forall_replicate. by rewrite length_replicate.
  - by rewrite take_app_length'.
  - intros k Hk. rewrite lookup_app_r by lia.
    apply lookup_replicate_2. lia.
Qed.

Lemma bind_no_raise {A B} (m : result A) (f : A → result B) e :
  m ≠ Raise e → (∀ a, m = Ok a → f a ≠ Raise e) → m ≫= f ≠ Raise e.
Proof.
  destruct m as [a|e']; simpl; intros Hm Hf; [by apply Hf | congruence].
Qed.

Lemma pad_loop_no_assert d items out :
  pad_loop d items out ≠ Raise AssertionError.
Proof.
  revert out. induction items as [|[i t] items IH]; intros out;
    [simpl; discriminate|].
  cbn [pad_loop]. apply bind_no_raise; [|intros; apply IH].
  unfold broadcast_rows. by repeat destruct (decide _).
Qed.

Lemma pad_no_assert tensorlist pv :
  pad tensorlist pv ≠ Raise AssertionError.
Proof.
  unfold pad. apply bind_no_raise; [by destruct tensorlist|]. intros m _.
  apply bind_no_raise.
  { unfold np.getitem. by destruct (_ !! _). }
  intros first _. apply bind_no_raise; [apply pad_loop_no_assert | done].
Qed.

Lemma pad_lengths tensorlist pv out lengths :
  pad tensorlist pv = Ok (out, lengths) → length lengths = length tensorlist.
Proof.
  unfold pad. intros H.
  apply bind_Ok in H as (? & _ & H). apply bind_Ok in H as (? & _ & H).
  apply bind_Ok in H as (? & _ & H). injection H as _ <-.
  by rewrite length_fmap.
Qed.

(** The assertion of [sequential_collate] compares the shapes of the two
    length vectors, which both have one entry per example: it cannot
    fail. *)
Lemma collate_never_asserts batches :
  sequential_collate batches ≠ Raise AssertionError.
Proof.
  unfold sequential_collate. apply bind_no_raise; [by destruct batches|].
  intros [[[xs ys] clips] fnames] Hun.
  assert (length xs = length ys) as Hxy.
  { unfold unzip4 in Hun. destruct batches; [discriminate|].
    injection Hun as <- <- _ _. simpl. f_equal.
    change (length ((λ b : example, b.1.1.1) <$> batches) =
            length ((λ b : example, b.1.1.2) <$> batches)).
    by rewrite !length_fmap. }
  apply bind_no_raise; [apply pad_no_assert|]. intros [data ld] Hd.
  apply bind_no_raise; [apply pad_no_assert|]. intros [tar lt] Ht.
  apply bind_no_raise.
  { unfold torch.stack. destruct clips; [done|]. by destruct (decide _). }
  intros clip _. apply pad_lengths in Hd, Ht.
  rewrite decide_True; [done | congruence].
Qed.

(** C3: a batch whose only example has three frames of features and two
    frames of targets is collated without any error; the returned length
    vector is the one of the targets. *)
Theorem collate_accepts_length_mismatch :
  time_length (ex_data mismatched_example) = 3 ∧
  time_length (ex_target mismatched_example) = 2 ∧
  ∃ b, sequential_collate [mismatched_example] = Ok b ∧
    torch.shape3 (b_data b) = (1, 3, 1) ∧
    torch.shape3 (b_targets_time b) = (1, 2, 2) ∧
    b_lengths b = [2].
Proof.
  split; [reflexivity|]. split; [reflexivity|].
  eexists. split; [reflexivity|]. split_and!; reflexivity.
Qed.

(** C8: a non-empty batch of examples of the data model that share the
    feature dimension [d] is collated into a data tensor of shape
    [batch, max_len, d], [max_len] the largest time length, whose slice for
    each example is the example's rows followed by rows of zeros, together
    with the vector of the time lengths in draw order; for the lengths
    [3; 7; 5] and [d = 4] the shape is [3, 7, 4] and the vector
    [3; 7; 5]. *)
Theorem collate_pads_to_longest batches d :
  batches ≠ [] → Forall (wf_example d) batches →
  ∃ b, sequential_collate batches = Ok b ∧
    let lengths := (time_length ∘ ex_data) <$> batches in
    let max_len := max_list lengths in
    torch.shape3 (b_data b) = (length batches, max_len, d) ∧
    b_lengths b = lengths ∧
    length (torch.data3 (b_data b)) = length batches ∧
    (∀ i e, batches !! i = Some e →
       ∃ m, torch.data3 (b_data b) !! i = Some m ∧
         length m = max_len ∧ Forall (λ row, length row = d) m ∧
         take (time_length (ex_data e)) m = data (ex_data e) ∧
         ∀ k, time_length (ex_data e) ≤ k < max_len →
              m !! k = Some (replicate d 0%Q)) ∧
    (lengths = [3; 7; 5] → d = 4 →
       torch.shape3 (b_data b) = (3, 7, 4) ∧ b_lengths b = [3; 7; 5]).
Proof.
  intros Hne Hwf. unfold sequential_collate.
  assert (unzip4 batches =
          Ok (ex_data <$> batches, ex_target <$> batches,
              ex_clip <$> batches, snd <$> batches)) as ->.
  { by destruct batches. }
  simpl mbind.
  destruct (pad_spec (ex_data <$> batches) 0%Q d) as (out & -> & Hlen & Hout).
  { by destruct batches. }
  { apply Forall_fmap. eapply Forall_impl; [exact Hwf|].
    by intros e (? & ? & _). }
  simpl mbind.
  destruct (pad_spec (ex_target <$> batches) 0%Q 2) as (out2 & -> & _).
  { by destruct batches. }
  { apply Forall_fmap. eapply Forall_impl; [exact Hwf|].
    by intros e (_ & _ & ? & ? & _). }
  simpl mbind.
  assert (torch.stack (ex_clip <$> batches) =
          Ok (mk_ndarray (length (ex_clip <$> batches), 2)
                (ex_clip <$> batches))) as ->.
  { unfold torch.stack. destruct batches as [|e0 batches]; [done|].
    rewrite fmap_cons. apply Forall_cons in Hwf as [He0 Hwf].
    destruct He0 as (_ & _ & _ & _ & _ & Hc0).
    rewrite decide_True; [by rewrite Hc0|]. rewrite Hc0.
    constructor; [done|]. apply Forall_fmap.
    eapply Forall_impl; [exact Hwf|]. by intros e (_ & _ & _ & _ & _ & ?). }
  simpl mbind. rewrite decide_True by (by rewrite !length_fmap).
  eexists. split; [reflexivity|]. simpl.
  rewrite !length_fmap in *. rewrite <- !list_fmap_compose.
  assert (time_length ∘ ex_target <$> batches =
          time_length ∘ ex_data <$> batches) as Hlens.
  { apply Forall_fmap_ext. eapply Forall_impl; [exact Hwf|].
    by intros e (_ & _ & _ & _ & ? & _). }
  split_and!; [done | done | done | |].
  - intros i e Hi.
    rewrite (Hout i (ex_data e)) by (by rewrite list_lookup_fmap, Hi).
    eexists. split; [reflexivity|].
    rewrite Forall_lookup in Hwf. destruct (Hwf _ _ Hi) as (Hw & Hd & _).
    rewrite <- list_fmap_compose. apply padded_spec; [done..|].
    apply max_list_elem_of_le, list_elem_of_fmap. exists e.
    split; [done|]. by eapply list_elem_of_lookup_2.
  - intros Hl ->. rewrite Hlens, Hl.
    split; [|done]. f_equal. f_equal.
    apply (f_equal length) in Hl. by rewrite length_fmap in Hl.
Qed.

(** The batch of the specification: shape [3, 7, 4] and lengths
    [3; 7; 5]. *)
Lemma collate_pads_to_longest_witness :
  ∃ b, sequential_collate batch_3_7_5 = Ok b ∧
    torch.shape3 (b_data b) = (3, 7, 4) ∧ b_lengths b = [3; 7; 5].
Proof.
  destruct (collate_pads_to_longest batch_3_7_5 4) as (b & Hb & _ & _ & _ & _ & H).
  - discriminate.
  - repeat constructor.
  - exists b. split; [done|]. by apply H.
Defined.

End collation_facts.

(** * Further properties *)

(** ** MinimumOccupancySampler *)

Section sampler_more.

Import MinimumOccupancySampler.

Lemma lookup_concat_uniform {A} (rows : list (list A)) n p :
  0 < n → Forall (λ row, length row = n) rows →
  concat rows !! p = rows !! (p `div` n) ≫= λ row, row !! (p `mod` n).
Proof.
  intros Hn Hrows. revert p. induction Hrows as [|row rows Hrow _ IH];
    intros p; simpl; [done|].
  destruct (decide (p < n)) as [Hlt|Hge].
  - rewrite lookup_app_l by lia.
    by rewrite Nat.div_small, Nat.mod_small by done.
  - rewrite lookup_app_r by lia. rewrite Hrow, IH.
    assert (p `div` n = S ((p - n) `div` n)) as ->.
    { replace p with (1 * n + (p - n)) at 1 by lia.
      by rewrite Nat.div_add_l by lia. }
    assert (p `mod` n = (p - n) `mod` n) as ->; [|done].
    replace p with ((p - n) + 1 * n) at 1 by lia.
    by rewrite Nat.Div0.mod_add.
Qed.

(** One epoch, with the rows behind the stream made explicit. *)
Lemma iter_rows s g n :
  inv s → nonempty s → data_length s = Some n →
  ∃ stream s' g' perm rows,
    __iter__ s g = Ok (stream, s', g') ∧
    perm ≡ₚ seq 0 (longest_seq s) ∧
    Forall2 (λ i row, data (data_source s') !! i = Some row) perm rows ∧
    stream = take n (concat rows) ∧
    inv s' ∧ filled s' ∧ nonempty s' ∧
    labels s' = labels s ∧ data_length s' = Some n ∧
    label_to_idx_list s' = label_to_idx_list s ∧
    longest_seq s' = longest_seq s.
Proof.
  intros Hinv Hne Hn. unfold __iter__.
  destruct (reshuffle_spec s g Hinv Hne) as (d & g' & -> & Hinv1 & Hfill1).
  pose proof (inv_longest_pos s Hinv Hne) as Hpos.
  simpl.
  pose proof (permutation_perm (random_state s) (shape d).1) as Hperm.
  destruct (np.permutation (random_state s) (shape d).1) as [perm rs1].
  simpl in Hperm.
  pose proof (inv_shape _ Hinv1) as Hsh. simpl in Hsh.
  pose proof (inv_wf _ Hinv1) as [Hwf1 Hwf2]. simpl in Hwf1, Hwf2.
  rewrite Hsh in Hperm, Hwf1, Hwf2. simpl in Hperm, Hwf1, Hwf2.
  destruct (take_idx_returns (data d) perm) as [rows Hrows].
  { apply Forall_forall. intros i Hi. rewrite Hperm in Hi.
    apply elem_of_seq in Hi. lia. }
  destruct (take_idx_Ok _ _ _ Hrows) as [Hrlen Hrlook].
  rewrite Hrows. simpl.
  destruct rows as [|row0 rows'] eqn:Erows.
  { simpl in Hrlen. pose proof (Permutation_length Hperm) as Hpl.
    rewrite length_seq in Hpl. lia. }
  change (np.concatenate (row0 :: rows')) with (Ok (concat (row0 :: rows'))).
  simpl. unfold get_data_length. simpl. rewrite Hn. simpl.
  exists (take n (row0 ++ concat rows')), (set_random_state (set_data_source s d) rs1),
    g', perm, (row0 :: rows').
  split_and!; try done.
  - apply Forall2_same_length_lookup_2; [done|].
    intros k i row Hi Hrow. simpl.
    destruct (Hrlook _ _ Hrow) as (i' & Hi' & Hd). congruence.
  - destruct Hinv1. split; simpl in *; done.
Qed.

Lemma epochs_forall (P : list N → Prop) lab k s g n :
  inv s → nonempty s → data_length s = Some n → labels s = lab →
  (∀ s1 g1 stream s2 g2,
     inv s1 → nonempty s1 → labels s1 = lab →
     data_length s1 = Some n →
     __iter__ s1 g1 = Ok (stream, s2, g2) → P stream) →
  ∃ streams s' g', epochs k s g = Ok (streams, s', g') ∧
    length streams = k ∧ Forall P streams.
Proof.
  intros Hinv Hne Hn Hlab HP. revert s g Hinv Hne Hn Hlab.
  induction k as [|k IH]; intros s g Hinv Hne Hn Hlab; simpl.
  - exists [], s, g. split_and!; done.
  - destruct (iter_rows s g n Hinv Hne Hn) as
      (stream & s1 & g1 & perm & rows & Hit & _ & _ & _ & Hinv1 & _ & Hne1
         & Hlab1 & Hn1 & _).
    destruct (IH s1 g1 Hinv1 Hne1 Hn1) as (streams & s' & g' & Hep & Hlen & HPs).
    { congruence. }
    rewrite Hit. simpl. rewrite Hep. simpl.
    exists (stream :: streams), s', g'. split_and!; [done | simpl; lia |].
    constructor; [|done]. by apply (HP s g stream s1 g1).
Qed.


Lemma inv_classes_pos s : inv s → 0 < n_classes (labels s).
Proof.
  intros Hinv. destruct (py_max_Ok _ _ (inv_longest s Hinv)) as [_ Hel].
  rewrite (inv_lengths s Hinv) in Hel.
  apply list_elem_of_fmap in Hel as (l & _ & Hl).
  apply list_elem_of_lookup in Hl as [c Hc]. apply lookup_lt_Some in Hc.
  rewrite (inv_classes s Hinv) in Hc. lia.
Qed.

Lemma rows_uniform s perm (rows : list (list N)) :
  inv s →
  Forall2 (λ i row, data (data_source s) !! i = Some row) perm rows →
  Forall (λ row, length row = n_classes (labels s)) rows.
Proof.
  intros Hinv H. pose proof (inv_wf s Hinv) as [_ Hwf].
  rewrite (inv_shape s Hinv) in Hwf. simpl in Hwf.
  rewrite Forall_lookup in Hwf. apply Forall_lookup. intros k row Hrow.
  destruct (Forall2_lookup_r _ _ _ _ _ H Hrow) as (i & _ & Hi). eauto.
Qed.

Lemma iter_positions s g n stream s' g' :
  inv s → nonempty s → data_length s = Some n →
  __iter__ s g = Ok (stream, s', g') →
  ∀ p x, stream !! p = Some x →
    ∃ v, active (labels s) v (p `mod` n_classes (labels s)) ∧
         x = np.to_uint32 v.
Proof.
  intros Hinv Hne Hn Hit p x Hp.
  destruct (iter_rows s g n Hinv Hne Hn) as
    (stream1 & s1 & g1 & perm & rows & Hit1 & Hperm & Hrows & -> & Hinv1
       & Hfill1 & _ & Hlab1 & _).
  rewrite Hit1 in Hit. injection Hit as <- <- <-.
  apply lookup_take_Some in Hp as [Hp _].
  pose proof (rows_uniform _ _ _ Hinv1 Hrows) as Huni. rewrite Hlab1 in Huni.
  rewrite (lookup_concat_uniform _ _ _ (inv_classes_pos s Hinv) Huni) in Hp.
  destruct (rows !! _) as [row|] eqn:Hrow; simplify_eq/=.
  destruct (Forall2_lookup_r _ _ _ _ _ Hrows Hrow) as (i & _ & Hi).
  assert (cell (data (data_source s1)) i (p `mod` n_classes (labels s))
          = Some x) as Hcell by (unfold cell; by rewrite Hi).
  destruct (cell_Some_lt _ _ _ _ (inv_wf s1 Hinv1) Hcell) as [Hr Hc].
  rewrite (inv_shape s1 Hinv1) in Hr, Hc. simpl in Hr, Hc.
  rewrite <- Hlab1 in *.
  destruct (filled_active s1 i _ Hinv1 Hfill1 Hr Hc) as (v & Hv & Hcv).
  exists v. split; [done | congruence].
Qed.

Lemma iter_over_covers s g stream s' g' :
  inv s → nonempty s → wf_ndarray (entries (labels s)) →
  data_length s = Some (longest_seq s * n_classes (labels s)) →
  __iter__ s g = Ok (stream, s', g') →
  ∀ v c, active (labels s) v c → np.to_uint32 v ∈ stream.
Proof.
  intros Hinv Hne Hwf Hn Hit v c Ha.
  destruct (iter_rows s g _ Hinv Hne Hn) as
    (stream1 & s1 & g1 & perm & rows & Hit1 & Hperm & Hrows & -> & Hinv1
       & _ & _ & Hlab1 & _ & Hlists & Hlong).
  rewrite Hit1 in Hit. injection Hit as <- <- <-.
  pose proof (rows_uniform _ _ _ Hinv1 Hrows) as Huni. rewrite Hlab1 in Huni.
  rewrite take_ge.
  2:{ rewrite (concat_length_uniform _ _ Huni).
      rewrite <- (Forall2_length _ _ _ Hrows), Hperm, length_seq. done. }
  destruct (active_valid _ _ _ Hwf Ha) as [_ Hc].
  rewrite <- Hlab1 in Ha, Hc. apply active_where in Ha.
  destruct (lookup_lt_is_Some_2 (label_to_idx_list s1) c) as [l Hl].
  { by rewrite (inv_classes s1 Hinv1). }
  rewrite <- (inv_perm s1 Hinv1 c l Hl) in Ha.
  apply list_elem_of_lookup in Ha as [r Hr].
  pose proof (inv_head s1 Hinv1 c l r v Hl Hr) as Hcell.
  destruct (cell_Some_lt _ _ _ _ (inv_wf s1 Hinv1) Hcell) as [Hrlt _].
  rewrite (inv_shape s1 Hinv1) in Hrlt. simpl in Hrlt.
  unfold cell in Hcell.
  destruct (data (data_source s1) !! r) as [row|] eqn:Hrow; simplify_eq/=.
  assert (r ∈ perm) as Hin.
  { rewrite Hperm. apply elem_of_seq. lia. }
  apply list_elem_of_lookup in Hin as [k Hk].
  destruct (Forall2_lookup_l _ _ _ _ _ Hrows Hk) as (row' & Hrow' & Hd).
  simpl in Hd. rewrite Hrow in Hd. injection Hd as <-.
  apply elem_of_concat. exists row. split.
  - by eapply list_elem_of_lookup_2.
  - by eapply list_elem_of_lookup_2.
Qed.


Lemma reachable_fields s0 s :
  reachable s0 s →
  label_to_idx_list s = label_to_idx_list s0 ∧
  label_to_length s = label_to_length s0 ∧
  longest_seq s = longest_seq s0 ∧ data_length s = data_length s0.
Proof.
  induction 1 as [|s g s' g' _ IH Hstep|s g stream s' g' _ IH Hstep]; [done|..].
  - unfold _reshuffle in Hstep.
    apply bind_Ok in Hstep as ([d g1] & _ & Hstep). by injection Hstep as <- _.
  - unfold __iter__, _reshuffle in Hstep.
    apply bind_Ok in Hstep as ([s1 g1] & H1 & Hstep).
    apply bind_Ok in H1 as ([d g2] & _ & H1). injection H1 as <- _.
    simpl in Hstep. destruct (np.permutation _ _) as [perm rs1].
    apply bind_Ok in Hstep as (? & _ & Hstep).
    apply bind_Ok in Hstep as (? & _ & Hstep).
    apply bind_Ok in Hstep as (? & _ & Hstep). by injection Hstep as _ <- _.
Qed.

Lemma reshuffle_loop_balanced longest idx_lists items a g :
  (shape a).1 = longest →
  (∀ ix leng, (ix, leng) ∈ items →
     leng = longest ∧ ix < (shape a).2 ∧ is_Some (idx_lists !! ix)) →
  MinimumOccupancySampler.reshuffle_loop longest idx_lists items a g
  = Ok (a, g).
Proof.
  intros Hrows Hit. induction items as [|[ix leng] items IH]; [done|].
  destruct (Hit ix leng) as (-> & Hix & [l Hl]); [left|].
  cbn [reshuffle_loop]. rewrite Nat.sub_diag.
  unfold np.randint. rewrite decide_True by done. simpl.
  apply getitem_Ok in Hl. rewrite Hl. simpl.
  unfold np.assign_col. rewrite decide_False by lia.
  rewrite Hrows, Nat.min_id, Nat.sub_diag. simpl.
  destruct a as [sh cells]. simpl in *. apply IH.
  intros ix' leng' Hel. apply Hit. by right.
Qed.

Lemma iter_balanced s g stream s' g1 :
  inv s →
  (∀ c l, label_to_idx_list s !! c = Some l → length l = longest_seq s) →
  __iter__ s g = Ok (stream, s', g1) →
  g1 = g ∧ ∀ g', __iter__ s g' = Ok (stream, s', g').
Proof.
  intros Hinv Hbal Hit.
  assert (∀ g0, _reshuffle s g0 = Ok (s, g0)) as Hre.
  { intros g0. unfold _reshuffle. rewrite reshuffle_loop_balanced.
    - simpl. by destruct s.
    - by rewrite (inv_shape s Hinv).
    - intros ix leng Hel.
      destruct (init_items_ok s (inv_lengths s Hinv) (inv_longest s Hinv)
                  _ _ Hel) as (Hix & _ & l & Hl & Hlen).
      rewrite (inv_shape s Hinv). simpl.
      rewrite (inv_lengths s Hinv), length_fmap, (inv_classes s Hinv) in Hix.
      split_and!; [|done|by exists l]. rewrite <- Hlen. by eapply Hbal. }
  unfold __iter__ in *. rewrite Hre in Hit. simpl in Hit.
  destruct (np.permutation _ _) as [perm rs1] eqn:Hperm.
  apply bind_Ok in Hit as (rows & Hrows & Hit).
  apply bind_Ok in Hit as (flat & Hflat & Hit).
  apply bind_Ok in Hit as (n & Hn & Hit). injection Hit as <- <- <-.
  split; [done|]. intros g'. rewrite Hre. simpl. rewrite Hperm.
  rewrite Hrows. simpl. rewrite Hflat. simpl. rewrite Hn. done.
Qed.

(** X1: the constructor accepts every label matrix with at least one class
    column, whatever its entries and the sampling mode, and rejects a
    matrix without class columns with [ValueError] ([max] of an empty
    list). *)
Theorem constructor_needs_a_class labels mode rs heap :
  (0 < n_classes labels → returns (__init__ labels mode rs heap)) ∧
  (n_classes labels = 0 → __init__ labels mode rs heap = Raise ValueError).
Proof.
  split; [apply init_returns|]. unfold __init__, n_classes.
  destruct (shape (entries labels)) as [data_samples n_labels]. simpl.
  by intros ->.
Qed.

(** X2: with all classes non-empty, every epoch emits exactly
    min(data_length, longest class count * number of classes) indices: in
    mode "same" on a matrix with all-zero rows the stream is shorter than
    [__len__] announces. *)
Theorem stream_length_is_min labels mode rs heap s n :
  classes_occupied labels →
  __init__ labels mode rs heap = Ok s →
  expected_length labels mode = Some n →
  __len__ s = Ok n ∧
  ∀ k g, ∃ streams s' g',
    epochs k s g = Ok (streams, s', g') ∧ length streams = k ∧
    Forall (λ stream, length stream =
              n `min` (max_class_count labels * n_classes labels)) streams.
Proof.
  intros Hocc Hinit Hn. split.
  { unfold __len__, get_data_length.
    by rewrite (init_expected_length _ _ _ _ _ Hinit), Hn. }
  intros k g.
  destruct (init_epochs labels mode rs heap s n k g Hocc Hinit Hn) as
    (streams & s' & g' & Hep & Hlen & _ & _ & _ & _ & Hoks).
  exists streams, s', g'. split_and!; [done..|].
  eapply Forall_impl; [exact Hoks|]. by intros stream (? & _).
Qed.

(** One example in one class, two examples in none: streams of one index
    against a length of three. *)
Lemma stream_length_is_min_witness :
  ∃ s, __init__ labels_zero_rows "same" gen_zeros heap_sevens = Ok s ∧
    __len__ s = Ok 3 ∧
    ∀ k g, ∃ streams s' g',
      epochs k s g = Ok (streams, s', g') ∧ length streams = k ∧
      Forall (λ stream, length stream = 1) streams.
Proof.
  eexists. split; [reflexivity|].
  apply (stream_length_is_min labels_zero_rows "same" gen_zeros heap_sevens).
  - intros [|c] Hc; [exists 0%N; reflexivity | vm_compute in Hc; lia].
  - reflexivity.
  - reflexivity.
Defined.


Lemma init_state labels mode rs heap s n :
  classes_occupied labels →
  __init__ labels mode rs heap = Ok s →
  expected_length labels mode = Some n →
  inv s ∧ nonempty s ∧ MinimumOccupancySampler.labels s = labels ∧
  data_length s = Some n.
Proof.
  intros Hocc Hinit Hn.
  destruct (init_inv _ _ _ _ _ Hinit) as (Hinv & Hlab & _).
  split_and!; [done | | done |].
  - apply inv_nonempty; [done|]. by rewrite Hlab.
  - by rewrite (init_expected_length _ _ _ _ _ Hinit).
Qed.

(** X3: the stream walks through the classes in order: for a label matrix
    of at most [2^32] rows with all classes non-empty, the index at
    position [p] of every emitted stream is an example active in class
    [p mod number of classes]. *)
Theorem stream_positions_cycle_classes labels mode rs heap s n :
  wf_ndarray (entries labels) →
  classes_occupied labels →
  (N.of_nat (n_rows labels) <= 2 ^ 32)%N →
  __init__ labels mode rs heap = Ok s →
  expected_length labels mode = Some n →
  ∀ k g, ∃ streams s' g',
    epochs k s g = Ok (streams, s', g') ∧ length streams = k ∧
    Forall (λ stream, ∀ p i, stream !! p = Some i →
              active labels i (p `mod` n_classes labels)) streams.
Proof.
  intros Hwf Hocc Hbound Hinit Hn k g.
  destruct (init_state _ _ _ _ _ _ Hocc Hinit Hn) as (Hinv & Hne & Hlab & Hdl).
  apply (epochs_forall _ labels k s g n Hinv Hne Hdl Hlab).
  intros s1 g1 stream s2 g2 Hinv1 Hne1 Hlab1 Hdl1 Hit p i Hp.
  destruct (iter_positions s1 g1 n stream s2 g2 Hinv1 Hne1 Hdl1 Hit p i Hp)
    as (v & Hv & ->).
  rewrite Hlab1 in Hv. destruct (active_valid _ _ _ Hwf Hv) as [Hlt _].
  by rewrite (to_uint32_small v _ Hlt).
Qed.

(** The three-example matrix in mode "over". *)
Lemma stream_positions_cycle_classes_witness :
  ∃ s, __init__ labels_3x2 "over" gen_zeros heap_sevens = Ok s ∧
    ∀ k g, ∃ streams s' g',
      epochs k s g = Ok (streams, s', g') ∧ length streams = k ∧
      Forall (λ stream, ∀ p i, stream !! p = Some i →
                active labels_3x2 i (p `mod` n_classes labels_3x2)) streams.
Proof.
  eexists. split; [reflexivity|].
  apply (stream_positions_cycle_classes labels_3x2 "over" gen_zeros
           heap_sevens _ 6).
  - split; [reflexivity | repeat constructor].
  - intros [|[|c]] Hc; [exists 0%N; reflexivity.. | vm_compute in Hc; lia].
  - vm_compute. discriminate.
  - reflexivity.
  - reflexivity.
Defined.

(** X4: in mode "over", for a label matrix of at most [2^32] rows with all
    classes non-empty, every epoch emits every example that has an active
    class. *)
Theorem over_mode_emits_every_example labels rs heap s :
  wf_ndarray (entries labels) →
  classes_occupied labels →
  (N.of_nat (n_rows labels) <= 2 ^ 32)%N →
  __init__ labels "over" rs heap = Ok s →
  ∀ k g, ∃ streams s' g',
    epochs k s g = Ok (streams, s', g') ∧ length streams = k ∧
    Forall (λ stream, ∀ i c, active labels i c → i ∈ stream) streams.
Proof.
  intros Hwf Hocc Hbound Hinit k g.
  destruct (init_state _ _ _ _ _ _ Hocc Hinit eq_refl)
    as (Hinv & Hne & Hlab & Hdl).
  apply (epochs_forall _ labels k s g _ Hinv Hne Hdl Hlab).
  intros s1 g1 stream s2 g2 Hinv1 Hne1 Hlab1 Hdl1 Hit i c Ha.
  destruct (active_valid _ _ _ Hwf Ha) as [Hlt _].
  rewrite <- (to_uint32_small i _ Hlt Hbound).
  apply (iter_over_covers s1 g1 stream s2 g2 Hinv1 Hne1) with (c := c);
    [by rewrite Hlab1 | | done | by rewrite Hlab1].
  by rewrite Hdl1, Hlab1, (inv_longest_max s1 Hinv1), Hlab1.
Qed.

(** The three-example matrix. *)
Lemma over_mode_emits_every_example_witness :
  ∃ s, __init__ labels_3x2 "over" gen_zeros heap_sevens = Ok s ∧
    ∀ k g, ∃ streams s' g',
      epochs k s g = Ok (streams, s', g') ∧ length streams = k ∧
      Forall (λ stream, ∀ i c, active labels_3x2 i c → i ∈ stream) streams.
Proof.
  eexists. split; [reflexivity|].
  apply (over_mode_emits_every_example labels_3x2 gen_zeros heap_sevens).
  - split; [reflexivity | repeat constructor].
  - intros [|[|c]] Hc; [exists 0%N; reflexivity.. | vm_compute in Hc; lia].
  - vm_compute. discriminate.
  - reflexivity.
Defined.

(** X5: what is fixed at construction stays fixed: along any sequence of
    [_reshuffle] and [__iter__] calls the per-class index lists, their
    lengths, the longest length and [data_length] do not change, and the
    first [class_count c] slots of column [c] keep the content they got
    from the constructor; only the oversampled tail is redrawn. *)
Theorem head_fixed_across_calls labels mode rs heap s0 s :
  classes_occupied labels →
  __init__ labels mode rs heap = Ok s0 →
  reachable s0 s →
  label_to_idx_list s = label_to_idx_list s0 ∧
  label_to_length s = label_to_length s0 ∧
  longest_seq s = longest_seq s0 ∧ data_length s = data_length s0 ∧
  ∀ c r, c < n_classes labels → r < class_count labels c →
    cell (data (data_source s)) r c = cell (data (data_source s0)) r c ∧
    is_Some (cell (data (data_source s)) r c).
Proof.
  intros Hocc Hinit Hreach.
  destruct (init_inv _ _ _ _ _ Hinit) as (Hinv0 & Hlab0 & _).
  destruct (reachable_inv labels s0 s Hocc Hinv0 Hlab0 Hreach) as
    (Hinv & _ & Hlab & _).
  destruct (reachable_fields s0 s Hreach) as (Hlists & Hlens & Hlong & Hdl).
  split_and!; [done..|]. intros c r Hc Hr.
  destruct (lookup_lt_is_Some_2 (label_to_idx_list s0) c) as [l Hl].
  { by rewrite (inv_classes s0 Hinv0), Hlab0. }
  rewrite <- Hlab0, <- (inv_length_count s0 c l Hinv0 Hl) in Hr.
  destruct (lookup_lt_is_Some_2 l r Hr) as [v Hv].
  rewrite (inv_head s0 Hinv0 c l r v Hl Hv).
  rewrite <- Hlists in Hl. rewrite (inv_head s Hinv c l r v Hl Hv).
  split; [done | by eexists].
Qed.

(** The two-example matrix, from the constructed sampler on. *)
Lemma head_fixed_across_calls_witness :
  ∃ s0, __init__ labels_2x2 "same" gen_zeros heap_sevens = Ok s0 ∧
    ∀ s, reachable s0 s →
      label_to_idx_list s = label_to_idx_list s0 ∧
      label_to_length s = label_to_length s0 ∧
      longest_seq s = longest_seq s0 ∧ data_length s = data_length s0 ∧
      ∀ c r, c < n_classes labels_2x2 → r < class_count labels_2x2 c →
        cell (data (data_source s)) r c = cell (data (data_source s0)) r c ∧
        is_Some (cell (data (data_source s)) r c).
Proof.
  eexists. split; [reflexivity|]. intros s Hs.
  apply (head_fixed_across_calls labels_2x2 "same" gen_zeros heap_sevens).
  - intros [|[|c]] Hc; [exists 0%N; reflexivity.. | vm_compute in Hc; lia].
  - reflexivity.
  - exact Hs.
Defined.

Lemma epochs_balanced k s g streams s' g1 :
  inv s → nonempty s →
  (∀ c l, label_to_idx_list s !! c = Some l → length l = longest_seq s) →
  epochs k s g = Ok (streams, s', g1) →
  g1 = g ∧ ∀ g', epochs k s g' = Ok (streams, s', g').
Proof.
  revert s g streams s' g1.
  induction k as [|k IH]; intros s g streams s' g1 Hinv Hne Hbal H;
    simpl in H.
  - injection H as <- <- <-. done.
  - apply bind_Ok in H as ([[stream s1] g2] & Hit & H).
    apply bind_Ok in H as ([[rest s2] g3] & Hep & H).
    injection H as <- <- <-.
    destruct (iter_balanced s g stream s1 g2 Hinv Hbal Hit) as [-> Hit'].
    assert (∃ n, data_length s = Some n) as [n Hn].
    { destruct (data_length s) eqn:E; [eauto|].
      destruct (iter_unset_raises s g E) as [e He]. congruence. }
    destruct (iter_rows s g n Hinv Hne Hn) as
      (st & s1' & g1' & perm & rows & Hit1 & _ & _ & _ & Hinv1 & _ & Hne1
         & _ & _ & Hlists & Hlong).
    rewrite Hit in Hit1. injection Hit1 as <- <- <-.
    destruct (IH s1 g rest s2 g3 Hinv1 Hne1) as [-> Hep']; [|done|].
    { intros c l Hl. rewrite Hlong. apply (Hbal c). by rewrite <- Hlists. }
    split; [done|]. intros g'. simpl. rewrite Hit'. simpl.
    rewrite Hep'. done.
Qed.

(** X6: when all classes count as many examples, no column needs
    oversampling and the sampler never touches numpy's global generator:
    the streams of any number of epochs are the same whatever the state of
    the global generator, which is handed back unchanged. *)
Theorem balanced_streams_ignore_global_generator labels mode rs heap s n :
  classes_occupied labels → balanced_classes labels →
  __init__ labels mode rs heap = Ok s →
  expected_length labels mode = Some n →
  ∀ k g, ∃ streams s',
    epochs k s g = Ok (streams, s', g) ∧
    ∀ g', epochs k s g' = Ok (streams, s', g').
Proof.
  intros Hocc Hbal Hinit Hn k g.
  destruct (init_state _ _ _ _ _ _ Hocc Hinit Hn) as (Hinv & Hne & Hlab & Hdl).
  destruct (epochs_spec k s g n Hinv Hne Hdl) as
    (streams & s' & g1 & Hep & _).
  destruct (epochs_balanced k s g streams s' g1 Hinv Hne) as [-> Hall];
    [|done|by exists streams, s'].
  intros c l Hl. rewrite (inv_length_count s c l Hinv Hl), Hlab.
  rewrite (inv_longest_max s Hinv), Hlab. apply Hbal.
  rewrite <- Hlab, <- (inv_classes s Hinv). by eapply lookup_lt_Some.
Qed.

(** One example per class. *)
Lemma balanced_streams_ignore_global_generator_witness :
  ∃ s, __init__ labels_identity "same" gen_zeros heap_sevens = Ok s ∧
    ∀ k g, ∃ streams s',
      epochs k s g = Ok (streams, s', g) ∧
      ∀ g', epochs k s g' = Ok (streams, s', g').
Proof.
  eexists. split; [reflexivity|].
  apply (balanced_streams_ignore_global_generator labels_identity "same"
           gen_zeros heap_sevens _ 2).
  - intros [|[|c]] Hc;
      [exists 0%N | exists 1%N | vm_compute in Hc; lia]; reflexivity.
  - intros [|[|c]] Hc; [reflexivity.. | vm_compute in Hc; lia].
  - reflexivity.
  - reflexivity.
Defined.

End sampler_more.

(** ** MultiBalancedSampler: further properties *)

Section balanced_more.

Import MultiBalancedSampler.

Lemma bind_Ok_l {A B} (a : A) (f : A → result B) : Ok a ≫= f = f a.
Proof. done. Qed.

Lemma compress_subseteq classes idx c :
  c ∈ compress classes idx → c ∈ classes.
Proof.
  revert idx. induction classes as [|c0 cs IH]; intros [|x xs]; simpl;
    try (by intros ?%elem_of_nil).
  destruct (x =? 0)%Z.
  - intros H. right. eauto.
  - intros [->|H]%elem_of_cons; [left | right; eauto].
Qed.

Lemma compress_nil classes idx :
  length classes = length idx →
  compress classes idx = [] ↔ Forall (λ x, x = 0%Z) idx.
Proof.
  revert idx. induction classes as [|c0 cs IH]; intros [|x xs] Hlen;
    simpl in *; try lia.
  - split; [constructor | done].
  - destruct (x =? 0)%Z eqn:E.
    + apply Z.eqb_eq in E as ->. rewrite IH by lia. split.
      * by constructor.
      * by intros [_ ?]%Forall_cons.
    + apply Z.eqb_neq in E. split; [done|]. by intros [? _]%Forall_cons.
Qed.

Lemma mapM_raises {A B} (f : A → result B) l e :
  (∀ x, x ∈ l → f x = Raise e ∨ returns (f x)) →
  (∃ x, x ∈ l ∧ f x = Raise e) → mapM f l = Raise e.
Proof.
  induction l as [|x l IH]; intros Hall (y & Hy & Hfy).
  - by apply elem_of_nil in Hy.
  - simpl. destruct (Hall x ltac:(left)) as [Hx | [b Hx]]; rewrite Hx;
      [done|]. simpl.
    rewrite IH; [done | |].
    + intros z Hz. apply Hall. by right.
    + apply elem_of_cons in Hy as [->|Hy]; [congruence | eauto].
Qed.

Lemma sample_weight_cases cws ids :
  Forall (λ i, i < length cws) ids →
  (ids = [] → sample_weight cws ids = Raise IndexError) ∧
  (ids ≠ [] → returns (sample_weight cws ids)).
Proof.
  intros Hids. split; [by intros ->|]. intros Hne.
  destruct ids as [|i ids]; [done|]. unfold sample_weight.
  destruct (take_idx_returns cws (i :: ids) Hids) as [l ->].
  eexists; reflexivity.
Qed.

(** X7: the constructor refuses a sparse matrix with [ValueError]; on a
    dense well-shaped matrix it returns exactly when there is at least one
    row and no row is all zeros, and otherwise fails with [IndexError]. *)
Theorem balanced_constructor_cases Y replacement num_samples :
  (issparse Y = true →
   __init__ Y replacement num_samples = Raise ValueError) ∧
  (issparse Y = false → wf_ndarray (entries Y) →
   (returns (__init__ Y replacement num_samples) ↔
    data (entries Y) ≠ [] ∧
    Forall (λ row, ¬ Forall (λ x, x = 0%Z) row) (data (entries Y))) ∧
   (¬ returns (__init__ Y replacement num_samples) →
    __init__ Y replacement num_samples = Raise IndexError)).
Proof.
  split; [intros H; unfold __init__; by rewrite H|].
  intros Hdense [Hlen Hcols]. unfold __init__. rewrite Hdense.
  destruct (decide (data (entries Y) = [])) as [Hd|Hd].
  { rewrite Hd. simpl. split; [|done].
    split; [intros [? ?]; done | by intros [? _]]. }
  assert (∃ row0, np.getitem (data (entries Y)) 0 = Ok row0 ∧
                  length row0 = n_classes Y) as (row0 & -> & Hrow0).
  { destruct (data (entries Y)) as [|row0 rows]; [done|]. exists row0.
    split; [done|]. by apply Forall_cons in Hcols as [? _]. }
  rewrite bind_Ok_l.
  set (cws := (λ w : Q, _) <$> _).
  assert (length cws = n_classes Y) as Hcws.
  { unfold cws, sum_axis0. by rewrite !length_fmap, length_seq. }
  set (ids := compress (seq 0 (length row0)) <$> data (entries Y)).
  assert (∀ x, x ∈ ids → Forall (λ i, i < length cws) x) as Hbound.
  { intros x Hx. apply Forall_forall. intros i Hi.
    apply list_elem_of_fmap in Hx as (row & -> & _).
    apply compress_subseteq, elem_of_seq in Hi. lia. }
  assert (∀ row, row ∈ data (entries Y) →
            compress (seq 0 (length row0)) row = [] ↔
            Forall (λ x, x = 0%Z) row) as Hnil.
  { intros row Hrow. apply compress_nil. rewrite length_seq, Hrow0.
    rewrite Forall_forall in Hcols. symmetry. by apply Hcols. }
  destruct (decide (Forall (λ x, x ≠ []) ids)) as [Hall|Hsome].
  - assert (returns (mapM (sample_weight cws) ids)) as [ws Hws].
    { clear -Hall Hbound. induction ids as [|x ids IH]; simpl.
      - eexists; reflexivity.
      - apply Forall_cons in Hall as [Hx Hall].
        destruct (sample_weight_cases cws x (Hbound x ltac:(left)))
          as [_ Hret].
        destruct (Hret Hx) as [w ->]. simpl.
        destruct IH as [ws ->]; [by intros; apply Hbound; right | done |].
        eexists; reflexivity. }
    rewrite Hws. rewrite bind_Ok_l. split.
    + split; [|intros _; eexists; reflexivity]. intros _. split; [done|].
      apply Forall_forall. intros row Hrow Hz. apply Hnil in Hz; [|done].
      rewrite Forall_forall in Hall. apply (Hall []); [|done].
      rewrite <- Hz. by apply list_elem_of_fmap_2.
    + intros Hn. exfalso. apply Hn. eexists; reflexivity.
  - apply not_Forall_Exists in Hsome; [|apply _].
    apply Exists_exists in Hsome as (x & Hx & Hxnil). simpl in Hxnil.
    assert (x = []) as -> by (destruct x; [done | exfalso; by apply Hxnil]).
    rewrite (mapM_raises _ ids IndexError).
    + simpl. split; [|done]. split; [intros [? ?]; done|].
      intros [_ Hall]. exfalso.
      apply list_elem_of_fmap in Hx as (row & Hrow & Hin).
      rewrite Forall_forall in Hall. apply (Hall row Hin).
      apply Hnil; done.
    + intros y Hy. destruct y as [|i y]; [by left | right].
      by apply sample_weight_cases; [apply Hbound|].
    + exists []. done.
Qed.


Lemma NoDup_singleton_eq {A} (l : list A) a :
  NoDup l → (∀ x, x ∈ l ↔ x = a) → l = [a].
Proof.
  intros Hnd Hel. destruct l as [|x l].
  - exfalso. by apply (elem_of_nil a), Hel.
  - assert (x = a) as -> by (apply Hel; left).
    destruct l as [|y l]; [done|]. exfalso.
    apply NoDup_cons in Hnd as [Hni _].
    assert (y = a) as -> by (apply Hel; right; left). apply Hni. left.
Qed.

Lemma weight_of_one_hot Y row c :
  wf_ndarray (entries Y) → binary Y → row ∈ data (entries Y) →
  one_hot row c → (weight_of Y row == class_weight Y c)%Q.
Proof.
  intros Hwf Hb Hrow Hone. unfold weight_of.
  destruct (compress_row Y row Hwf Hb Hrow) as [Hnd Hel].
  rewrite (NoDup_singleton_eq _ c Hnd).
  - unfold mean. simpl. field.
  - intros c'. rewrite Hel. apply Hone.
Qed.

Lemma Qinv_antitone (a b : Q) :
  (0 < a)%Q → (a <= b)%Q → (1 / b <= 1 / a)%Q.
Proof.
  intros Ha Hab. apply Qle_shift_div_r; [lra|].
  assert (1 / a * b == b / a)%Q as -> by (field; lra).
  apply Qle_shift_div_l; [done | lra].
Qed.

Lemma inv_freq_antitone Y c1 c2 :
  0 < class_count Y c1 → class_count Y c1 ≤ class_count Y c2 →
  (inv_freq Y c2 <= inv_freq Y c1)%Q.
Proof.
  intros Hpos Hle. unfold inv_freq. apply Qinv_antitone.
  - unfold Qlt. simpl. lia.
  - unfold Qle. simpl. lia.
Qed.


(** X8: balancing by rarity: of two examples that each belong to exactly
    one class, the one whose class has fewer examples gets at least the
    weight of the other. *)
Theorem rarer_class_weighs_more Y replacement num_samples s i j ri rj ci cj :
  issparse Y = false → wf_ndarray (entries Y) → binary Y →
  Forall row_active (data (entries Y)) → classes_occupied Y →
  __init__ Y replacement num_samples = Ok s →
  data (entries Y) !! i = Some ri → one_hot ri ci →
  data (entries Y) !! j = Some rj → one_hot rj cj →
  class_count Y ci ≤ class_count Y cj →
  ∃ wi wj, _weights s !! i = Some wi ∧ _weights s !! j = Some wj ∧
    (wj <= wi)%Q.
Proof.
  intros Hdense Hwf Hb Hact Hocc Hs Hi Hci Hj Hcj Hle.
  assert (0 < n_rows Y) as Hrows.
  { destruct Hwf as [Hlen _]. apply lookup_lt_Some in Hi. unfold n_rows. lia. }
  destruct (balanced_init_spec Y replacement num_samples) as (len & Hs' & _);
    [done..|].
  rewrite Hs' in Hs. injection Hs as <-. simpl.
  exists (weight_of Y ri), (weight_of Y rj).
  rewrite !list_lookup_fmap, Hi, Hj. split_and!; [done..|].
  rewrite (weight_of_one_hot Y ri ci), (weight_of_one_hot Y rj cj);
    [|done | done | by eapply list_elem_of_lookup_2 | done
     |done | done | by eapply list_elem_of_lookup_2 | done].
  assert (ci < n_classes Y) as Hcilt.
  { destruct Hwf as [_ Hcols]. rewrite Forall_lookup in Hcols.
    unfold n_classes. rewrite <- (Hcols _ _ Hi).
    apply (lookup_lt_Some ri ci 1%Z). by apply Hci. }
  pose proof (occupied_count Y ci Hocc Hcilt) as Hpos.
  pose proof (inv_freq_total_pos Y Hocc ltac:(lia)) as HT.
  pose proof (inv_freq_antitone Y ci cj Hpos Hle) as Hanti.
  unfold class_weight. apply Qle_shift_div_r; [done|].
  assert (inv_freq Y ci /
    torch.Qsum (inv_freq Y <$> seq 0 (n_classes Y)) *
    torch.Qsum (inv_freq Y <$> seq 0 (n_classes Y)) == inv_freq Y ci)%Q
    as -> by (field; lra).
  done.
Qed.

(** Two examples of class 0 against one of class 1. *)
Lemma rarer_class_weighs_more_witness :
  ∃ s wi wj, __init__ labels_3x2_onehot None None = Ok s ∧
    _weights s !! 2 = Some wi ∧ _weights s !! 0 = Some wj ∧ (wj <= wi)%Q.
Proof.
  destruct (rarer_class_weighs_more labels_3x2_onehot None None
              (mk [2 # 6; 2 # 6; 2 # 3]%Q 3 false) 2 0 [0; 1]%Z [1; 0]%Z 1 0)
    as (wi & wj & Hi & Hj & Hle).
  - reflexivity.
  - split; [reflexivity | repeat constructor].
  - unfold binary. simpl.
    repeat match goal with
           | |- Forall _ _ => constructor
           | |- _ ∨ _ => (left; reflexivity) || (right; reflexivity)
           end.
  - repeat constructor; [exists 0 | exists 0 | exists 1]; reflexivity.
  - intros [|[|c]] Hc;
      [exists 0%N | exists 2%N | vm_compute in Hc; lia]; reflexivity.
  - reflexivity.
  - reflexivity.
  - intros [|[|c']]; split; intros H; try done; try (simpl in H; lia).
  - reflexivity.
  - intros [|[|c']]; split; intros H; try done; try (simpl in H; lia).
  - vm_compute. lia.
  - eexists _, wi, wj. split; [reflexivity|]. done.
Defined.








End balanced_more.

(** ** Padding and collation: further properties *)

Section collation_more.

Lemma pad_loop_cases d items out :
  (Forall (λ it, (shape it.2).2 = d ∨ (shape it.2).2 = 1) items →
   returns (pad_loop d items out)) ∧
  (¬ Forall (λ it, (shape it.2).2 = d ∨ (shape it.2).2 = 1) items →
   pad_loop d items out = Raise RuntimeError).
Proof.
  revert out. induction items as [|[i t] items IH]; intros out.
  - split; [intros _; eexists; reflexivity|]. intros H. exfalso. apply H.
    constructor.
  - cbn [pad_loop]. unfold broadcast_rows.
    destruct (decide ((shape t).2 = d)) as [Hd|Hd];
      [|destruct (decide ((shape t).2 = 1)) as [H1|H1]].
    + rewrite bind_Ok_l. destruct (IH (alter
        (λ m, take (shape t).1 (data t) ++ drop (shape t).1 m) i out))
        as [IH1 IH2].
      split.
      * intros [_ H]%Forall_cons. by apply IH1.
      * intros H. apply IH2. intros H'. apply H. constructor; [by left | done].
    + rewrite bind_Ok_l. set (rows := _ <$> data t).
      destruct (IH (alter (λ m, take (shape t).1 rows ++ drop (shape t).1 m)
                      i out)) as [IH1 IH2].
      split.
      * intros [_ H]%Forall_cons. by apply IH1.
      * intros H. apply IH2. intros H'. apply H.
        constructor; [by right | done].
    + split; [|done]. intros [[?|?] _]%Forall_cons; done.
Qed.

Lemma pad_cases tensorlist pv :
  (tensorlist = [] → pad tensorlist pv = Raise ValueError) ∧
  (∀ first, head tensorlist = Some first →
     (Forall (fits first) tensorlist → returns (pad tensorlist pv)) ∧
     (¬ Forall (fits first) tensorlist →
      pad tensorlist pv = Raise RuntimeError)).
Proof.
  split; [by intros ->|]. intros first Hfirst.
  destruct tensorlist as [|t0 rest] eqn:Htl; [done|].
  injection Hfirst as ->. rewrite <- Htl.
  assert (Forall (fits first) tensorlist ↔
          Forall (λ it : nat * ndarray Q,
                    (shape it.2).2 = (shape first).2 ∨ (shape it.2).2 = 1)
            (np.enumerate tensorlist)) as Hiff.
  { unfold np.enumerate. rewrite <- (Forall_fmap snd (fits first)).
    rewrite snd_zip; [done|]. by rewrite length_seq. }
  unfold pad.
  assert (∃ m, np.py_max ((λ f : ndarray Q, (shape f).1) <$> tensorlist)
               = Ok m) as [m ->].
  { apply py_max_returns. by rewrite Htl. }
  rewrite bind_Ok_l.
  assert (np.getitem tensorlist 0 = Ok first) as -> by (by rewrite Htl).
  rewrite bind_Ok_l.
  destruct (pad_loop_cases (shape first).2 (np.enumerate tensorlist)
    (torch.data3 (torch.full
       (length ((λ f : ndarray Q, (shape f).1) <$> tensorlist), m,
        (shape first).2) pv))) as [H1 H2].
  split.
  - intros H. destruct (H1 (proj1 Hiff H)) as [out ->].
    eexists; reflexivity.
  - intros H. rewrite H2; [done|]. intros H'. apply H, Hiff, H'.
Qed.

Lemma stack_cases ts :
  (ts = [] → torch.stack ts = Raise RuntimeError) ∧
  (∀ t0, head ts = Some t0 →
     (Forall (λ t, length t = length t0) ts → returns (torch.stack ts)) ∧
     (¬ Forall (λ t, length t = length t0) ts →
      torch.stack ts = Raise RuntimeError)).
Proof.
  split; [by intros ->|]. intros t0 Ht0. destruct ts as [|t ts]; [done|].
  injection Ht0 as ->. unfold torch.stack.
  destruct (decide _) as [H|H]; split; try done.
  intros _. eexists; reflexivity.
Qed.


(** X11: [sequential_collate] fails with [ValueError] on an empty batch;
    on a non-empty batch it returns exactly when every example fits the
    first one in feature dimension, target dimension (equal, or 1 and
    broadcast) and clip-target size, and fails with [RuntimeError]
    otherwise. Time lengths play no part, and no other error is raised. *)
Theorem collate_accepts_exactly batches :
  (batches = [] → sequential_collate batches = Raise ValueError) ∧
  (batches ≠ [] →
   (returns (sequential_collate batches) ↔ collatable batches) ∧
   (¬ collatable batches →
    sequential_collate batches = Raise RuntimeError)).
Proof.
  split; [by intros ->|]. intros Hne.
  destruct batches as [|e0 rest] eqn:Hb; [done|]. rewrite <- Hb. clear Hne.
  assert (head batches = Some e0) as Hhead by (by rewrite Hb).
  assert (collatable batches ↔
          Forall (fits (ex_data e0)) (ex_data <$> batches) ∧
          Forall (fits (ex_target e0)) (ex_target <$> batches) ∧
          Forall (λ t, length t = length (ex_clip e0)) (ex_clip <$> batches))
    as Hiff.
  { rewrite !Forall_fmap. unfold collatable. split.
    - intros (e & He & Hall). rewrite Hhead in He. injection He as <-.
      split_and!; (eapply Forall_impl; [exact Hall|]); simpl; tauto.
    - intros (H1 & H2 & H3). exists e0. split; [done|].
      rewrite Forall_forall in H1, H2, H3. apply Forall_forall.
      intros e He. split_and!;
        [apply (H1 e He) | apply (H2 e He) | apply (H3 e He)]. }
  unfold sequential_collate.
  assert (unzip4 batches =
          Ok (ex_data <$> batches, ex_target <$> batches,
              ex_clip <$> batches, snd <$> batches)) as ->.
  { by rewrite Hb. }
  rewrite bind_Ok_l. cbv beta iota.
  destruct (pad_cases (ex_data <$> batches) 0%Q) as [_ Hd].
  destruct (Hd (ex_data e0)) as [Hd1 Hd2]; [by rewrite Hb|].
  destruct (pad_cases (ex_target <$> batches) 0%Q) as [_ Ht].
  destruct (Ht (ex_target e0)) as [Ht1 Ht2]; [by rewrite Hb|].
  destruct (stack_cases (ex_clip <$> batches)) as [_ Hc].
  destruct (Hc (ex_clip e0)) as [Hc1 Hc2]; [by rewrite Hb|].
  destruct (decide (Forall (λ t : ndarray Q,
              (shape t).2 = (shape (ex_data e0)).2 ∨ (shape t).2 = 1)
              (ex_data <$> batches))) as [Hfd|Hfd].
  2:{ rewrite (Hd2 Hfd). simpl. split; [|done].
      split; [intros [? ?]; done|]. intros H. apply Hiff in H. tauto. }
  destruct (Hd1 Hfd) as [[data ld] Hdata]. rewrite Hdata, bind_Ok_l.
  cbv beta iota.
  destruct (decide (Forall (λ t : ndarray Q,
              (shape t).2 = (shape (ex_target e0)).2 ∨ (shape t).2 = 1)
              (ex_target <$> batches))) as [Hft|Hft].
  2:{ rewrite (Ht2 Hft). simpl. split; [|done].
      split; [intros [? ?]; done|]. intros H. apply Hiff in H. tauto. }
  destruct (Ht1 Hft) as [[tar lt] Htar]. rewrite Htar, bind_Ok_l.
  cbv beta iota.
  destruct (decide (Forall (λ t : list Q, length t = length (ex_clip e0))
              (ex_clip <$> batches))) as [Hfc|Hfc].
  2:{ rewrite (Hc2 Hfc). simpl. split; [|done].
      split; [intros [? ?]; done|]. intros H. apply Hiff in H. tauto. }
  destruct (Hc1 Hfc) as [clip ->]. rewrite bind_Ok_l.
  apply pad_lengths in Hdata, Htar.
  rewrite decide_True by (rewrite Hdata, Htar; by rewrite !length_fmap).
  split.
  - split; [intros _; by apply Hiff | intros _; eexists; reflexivity].
  - intros H. exfalso. apply H, Hiff. done.
Qed.

Lemma collate_wf_spec batches d :
  batches ≠ [] → Forall (wf_example d) batches →
  ∃ out out2,
    sequential_collate batches =
    Ok (mk_batch
          (torch.mk_tensor3
             (length batches,
              max_list ((time_length ∘ ex_data) <$> batches), d) out)
          (torch.mk_tensor3
             (length batches,
              max_list ((time_length ∘ ex_target) <$> batches), 2) out2)
          (mk_ndarray (length batches, 2) (ex_clip <$> batches))
          (snd <$> batches)
          ((time_length ∘ ex_target) <$> batches)) ∧
    ∀ i e, batches !! i = Some e →
      out2 !! i =
      Some (padded (max_list ((time_length ∘ ex_target) <$> batches)) 2 0%Q
              (ex_target e)).
Proof.
  intros Hne Hwf. unfold sequential_collate.
  assert (unzip4 batches =
          Ok (ex_data <$> batches, ex_target <$> batches,
              ex_clip <$> batches, snd <$> batches)) as ->.
  { by destruct batches. }
  rewrite bind_Ok_l. cbv beta iota.
  destruct (pad_spec (ex_data <$> batches) 0%Q d) as (out & -> & _).
  { by destruct batches. }
  { apply Forall_fmap. eapply Forall_impl; [exact Hwf|].
    by intros e (? & ? & _). }
  rewrite bind_Ok_l. cbv beta iota.
  destruct (pad_spec (ex_target <$> batches) 0%Q 2) as (out2 & -> & _ & Hout2).
  { by destruct batches. }
  { apply Forall_fmap. eapply Forall_impl; [exact Hwf|].
    by intros e (_ & _ & ? & ? & _). }
  rewrite bind_Ok_l. cbv beta iota.
  assert (torch.stack (ex_clip <$> batches) =
          Ok (mk_ndarray (length (ex_clip <$> batches), 2)
                (ex_clip <$> batches))) as ->.
  { unfold torch.stack. destruct batches as [|e0 batches]; [done|].
    rewrite fmap_cons. apply Forall_cons in Hwf as [He0 Hwf].
    destruct He0 as (_ & _ & _ & _ & _ & Hc0).
    rewrite decide_True; [by rewrite Hc0|]. rewrite Hc0.
    constructor; [done|]. apply Forall_fmap.
    eapply Forall_impl; [exact Hwf|]. by intros e (_ & _ & _ & _ & _ & ?). }
  rewrite bind_Ok_l. rewrite decide_True by (by rewrite !length_fmap).
  rewrite !length_fmap. rewrite <- !list_fmap_compose.
  exists out, out2. split; [done|]. intros i e Hi.
  rewrite (Hout2 i (ex_target e)) by (by rewrite list_lookup_fmap, Hi).
  by rewrite <- list_fmap_compose.
Qed.

(** X12: beside the data tensor, a non-empty batch of examples of the data
    model is collated into a target tensor of shape [batch, max_len, 2]
    whose slice for each example is the example's frame targets followed by
    rows of zeros, the clip targets stacked in draw order as a [batch, 2]
    tensor, the identifiers in draw order, and one length per example. *)
Theorem collate_targets_and_identifiers batches d :
  batches ≠ [] → Forall (wf_example d) batches →
  ∃ b, sequential_collate batches = Ok b ∧
    let max_len := max_list ((time_length ∘ ex_target) <$> batches) in
    torch.shape3 (b_targets_time b) = (length batches, max_len, 2) ∧
    (∀ i e, batches !! i = Some e →
       torch.data3 (b_targets_time b) !! i =
       Some (padded max_len 2 0%Q (ex_target e))) ∧
    b_targets_clip b =
      mk_ndarray (length batches, 2) (ex_clip <$> batches) ∧
    b_fnames b = snd <$> batches ∧
    length (b_lengths b) = length batches.
Proof.
  intros Hne Hwf.
  destruct (collate_wf_spec batches d Hne Hwf) as (out & out2 & -> & Hout2).
  eexists. split; [reflexivity|]. simpl.
  split_and!; [done | done | done | done |]. by rewrite length_fmap.
Qed.

(** The batch of lengths 3, 7 and 5. *)
Lemma collate_targets_and_identifiers_witness :
  ∃ b, sequential_collate batch_3_7_5 = Ok b ∧
    torch.shape3 (b_targets_time b) = (3, 7, 2) ∧
    b_fnames b = ["a"; "b"; "c"]%string.
Proof.
  destruct (collate_targets_and_identifiers batch_3_7_5 4)
    as (b & Hb & Hsh & _ & _ & Hf & _).
  - discriminate.
  - repeat constructor.
  - exists b. split_and!; [done | exact Hsh | exact Hf].
Defined.

End collation_more.

(** ** The datasets *)

Section dataset_facts.

Lemma outcome_bind_Return {A B} (m : h5.outcome A) (f : A → h5.outcome B) b :
  m ≫= f = h5.Return b → ∃ a, m = h5.Return a ∧ f a = h5.Return b.
Proof. destruct m as [a|e]; simpl; [eauto | discriminate]. Qed.

Lemma outcome_bind_l {A B} (a : A) (f : A → h5.outcome B) :
  h5.Return a ≫= f = f a.
Proof. done. Qed.

Lemma Qmax_cases (x y : Q) : Qmax x y = x ∨ Qmax x y = y.
Proof.
  unfold Qmax, GenericMinMax.gmax. destruct (x ?= y)%Q; auto.
Qed.

Lemma np_max_spec l :
  l ≠ [] → ∃ m, h5.np_max l = Ok m ∧ is_max m l.
Proof.
  destruct l as [|x xs]; [done|]. intros _. simpl.
  exists (foldr Qmax x xs). split; [done|].
  induction xs as [|y ys [IH1 IH2]]; simpl.
  - split; [left|]. intros z ->%list_elem_of_singleton. lra.
  - split.
    + destruct (Qmax_cases y (foldr Qmax x ys)) as [-> | ->].
      * right; left.
      * apply elem_of_cons in IH1 as [Heq|?];
          [rewrite Heq; left | right; right; done].
    + intros z Hz.
      assert (z = y ∨ z ∈ x :: ys) as [-> | Hz'].
      { apply elem_of_cons in Hz as [->|Hz]; [right; left|].
        apply elem_of_cons in Hz as [->|Hz]; [by left | right; by right]. }
      * apply Q.le_max_l.
      * eapply Qle_trans; [apply IH2, Hz' | apply Q.le_max_r].
Qed.

Lemma read_example_stored d ds ls transform fname arr sp no cs cn :
  stored_example d ds ls fname arr sp no cs cn →
  ∃ m, is_max m cn ∧
    h5.read_example ds (Some ls) transform fname =
    h5.Return (apply_transform transform arr,
               mk_ndarray (length no, 2) (zip_with (λ x y, [x; y]) no sp),
               [m; cs], fname).
Proof.
  intros (Harr & Hwf & Hd & Hg & Hsp & Hno & Hcn).
  destruct (np_max_spec cn Hcn) as (m & Hm & Hmax).
  exists m. split; [done|]. unfold h5.read_example, h5.get_data, h5.dict_get.
  rewrite Harr, !outcome_bind_l. unfold h5.get_label. rewrite Hg. simpl.
  rewrite Hm. simpl. unfold h5.np_stack_last.
  rewrite decide_True by lia. simpl. by destruct transform.
Qed.

Lemma stored_example_wf d ds ls transform fname arr sp no cs cn m :
  stored_example d ds ls fname arr sp no cs cn →
  shape_preserving transform →
  wf_example d
    (apply_transform transform arr,
     mk_ndarray (length no, 2) (zip_with (λ x y, [x; y]) no sp),
     [m; cs], fname).
Proof.
  intros (Harr & Hwf & Hd & Hg & Hsp & Hno & Hcn) Htr.
  assert (wf_ndarray (apply_transform transform arr) ∧
          shape (apply_transform transform arr) = shape arr) as [Hwf' Hsh'].
  { destruct transform as [f|]; simpl; [by apply Htr | done]. }
  unfold wf_example, ex_data, ex_target, ex_clip, time_length. simpl.
  rewrite Hsh'. split_and!; [done | done | | done | lia | done].
  split; simpl.
  - rewrite length_zip_with. lia.
  - apply Forall_forall. intros row Hrow.
    apply elem_of_zip_with in Hrow as (x & y & -> & _). done.
Qed.


Lemma train_init_fields fs fdict ldict tr self :
  TrainHDF5Dataset.__init__ fs fdict ldict tr = h5.Return self →
  TrainHDF5Dataset._h5filedict self = fdict ∧
  TrainHDF5Dataset._h5labeldict self = ldict ∧
  TrainHDF5Dataset._len self = length ldict ∧
  TrainHDF5Dataset._transform self = tr ∧
  TrainHDF5Dataset.idx_to_item self = ldict.*1.
Proof.
  unfold TrainHDF5Dataset.__init__. intros H.
  apply outcome_bind_Return in H as (k & _ & H).
  apply outcome_bind_Return in H as (p & _ & H).
  apply outcome_bind_Return in H as (st & _ & H).
  apply outcome_bind_Return in H as (arr & _ & H).
  injection H as <-. done.
Qed.




Lemma outcome_mapM_Forall2 {A B} (f : A → h5.outcome B) (P : A → B → Prop) l :
  (∀ x, x ∈ l → ∃ y, f x = h5.Return y ∧ P x y) →
  ∃ ys, mapM f l = h5.Return ys ∧ Forall2 P l ys.
Proof.
  induction l as [|x l IH]; intros H; simpl.
  - exists []. split; [done | constructor].
  - destruct (H x ltac:(left)) as (y & -> & Hy). simpl.
    destruct IH as (ys & -> & Hys); [by intros z Hz; apply H; right|].
    exists (y :: ys). split; [done | by constructor].
Qed.

(** X14: the training loader on complete stores: when every identifier of
    the label dict leads to a complete stored example of one feature
    dimension and the transform keeps shapes, every non-empty batch of
    indices in range is fetched and collated without error; the fetched
    examples satisfy the data model, and the batch lists their identifiers
    and time lengths in the order of the indices. *)
Theorem train_batch_collates d fs fdict ldict tr loader indices :
  gettraindataloader fs fdict ldict tr = h5.Return loader →
  shape_preserving tr →
  (∀ fname, fname ∈ ldict.*1 → resolves d fs fdict ldict fname) →
  indices ≠ [] →
  Forall (λ i, (0 <= i < Z.of_nat (length ldict))%Z) indices →
  ∃ examples b,
    mapM (TrainHDF5Dataset.__getitem__ (tl_dataset loader) fs) indices
    = h5.Return examples ∧
    Forall (wf_example d) examples ∧
    Forall2 (λ i e, ldict.*1 !! Z.to_nat i = Some e.2) indices examples ∧
    train_batch loader fs indices = h5.Return b ∧
    b_fnames b = snd <$> examples ∧
    b_lengths b = (time_length ∘ ex_data) <$> examples ∧
    torch.shape3 (b_data b) =
      (length indices, max_list ((time_length ∘ ex_data) <$> examples), d).
Proof.
  intros Hloader Htr Hres Hne Hidx. unfold gettraindataloader in Hloader.
  apply outcome_bind_Return in Hloader as (dset & Hinit & Hloader).
  injection Hloader as <-. unfold train_batch. simpl.
  destruct (outcome_mapM_Forall2 (TrainHDF5Dataset.__getitem__ dset fs)
    (λ i e, wf_example d e ∧ ldict.*1 !! Z.to_nat i = Some e.2) indices)
    as (examples & Hex & Hall).
  { intros i Hi. rewrite Forall_forall in Hidx. specialize (Hidx i Hi).
    destruct (lookup_lt_is_Some_2 ldict.*1 (Z.to_nat i)) as [fname Hf].
    { rewrite length_fmap. lia. }
    destruct (Hres fname) as (p & q & ds & ls & arr & sp & no & cs & cn & Hp
                                & Hq & Hds & Hls & Hst).
    { by eapply list_elem_of_lookup_2. }
    destruct (read_example_stored d ds ls tr fname arr sp no cs cn Hst)
      as (m & Hm & Hread).
    destruct (train_init_fields _ _ _ _ _ Hinit) as (Hfd & Hld & _ & Htr' & Hit).
    eexists. split.
    - unfold TrainHDF5Dataset.__getitem__, TrainHDF5Dataset.item_at.
      assert ((i <? 0)%Z = false) as -> by (apply Z.ltb_ge; lia).
      rewrite Hit, Hf, outcome_bind_l. unfold h5.dict_get.
      rewrite Hfd, Hp, outcome_bind_l, Hld, Hq, outcome_bind_l.
      unfold h5.open_data, h5.open_labels.
      rewrite Hds, outcome_bind_l, Hls, outcome_bind_l, Htr'. exact Hread.
    - split; [|done]. by eapply stored_example_wf. }
  assert (Forall (wf_example d) examples) as Hwf.
  { apply Forall_lookup. intros k e He.
    destruct (Forall2_lookup_r _ _ _ _ _ Hall He) as (i & _ & ? & _). done. }
  assert (examples ≠ []) as Hne'.
  { apply Forall2_length in Hall. destruct examples, indices; done. }
  destruct (collate_wf_spec examples d Hne' Hwf) as (out & out2 & Hcol & _).
  eexists examples, _. rewrite Hex, outcome_bind_l, Hcol. simpl.
  split_and!; [done | done | | done | done | |].
  - eapply Forall2_impl; [exact Hall|]. by intros i e [_ ?].
  - apply Forall_fmap_ext. eapply Forall_impl; [exact Hwf|].
    by intros e (_ & _ & _ & _ & ? & _).
  - by rewrite (Forall2_length _ _ _ Hall).
Qed.



Lemma resolves_ab fname :
  fname ∈ labeldict_ab.*1 → resolves 4 files_ab filedict_ab labeldict_ab fname.
Proof.
  intros [->|[->|[]%elem_of_nil]%elem_of_cons]%elem_of_cons.
  - exists "d.h5"%string, "l.h5"%string, store_ab, labels_ab,
      (const_tensor 3 4 1%Q), (replicate 3 1%Q), (replicate 3 0%Q),
      (7 # 10)%Q, [2 # 10; 9 # 10; 1 # 10]%Q.
    split_and!; try reflexivity.
    repeat split; try reflexivity; [repeat constructor | done].
  - exists "d.h5"%string, "l.h5"%string, store_ab, labels_ab,
      (const_tensor 2 4 2%Q), (replicate 2 1%Q), (replicate 2 0%Q),
      (7 # 10)%Q, [2 # 10; 9 # 10; 1 # 10]%Q.
    split_and!; try reflexivity.
    repeat split; try reflexivity; [repeat constructor | done].
Defined.


(** The batch of indices 1, 0 from the two-example stores. *)
Lemma train_batch_collates_witness :
  ∃ loader examples b,
    gettraindataloader files_ab filedict_ab labeldict_ab None
    = h5.Return loader ∧
    train_batch loader files_ab [1; 0]%Z = h5.Return b ∧
    Forall (wf_example 4) examples ∧
    b_fnames b = snd <$> examples ∧
    b_lengths b = (time_length ∘ ex_data) <$> examples.
Proof.
  assert (∃ loader, gettraindataloader files_ab filedict_ab labeldict_ab None
                    = h5.Return loader) as [loader Hloader]
    by (eexists; reflexivity).
  exists loader.
  destruct (train_batch_collates 4 files_ab filedict_ab labeldict_ab None
              loader [1; 0]%Z Hloader)
    as (examples & b & _ & Hwf & _ & Hb & Hf & Hl & _).
  - intros f Hf. discriminate Hf.
  - apply resolves_ab.
  - discriminate.
  - repeat constructor; vm_compute; congruence.
  - exists examples, b. split_and!; [exact Hloader | exact Hb | exact Hwf
      | exact Hf | exact Hl].
Defined.

(** X15: [TrainHDF5Dataset.__getitem__] looks the index up in a dict
    keyed [0 .. len-1]: a negative index, or one from [len] on, is a
    [KeyError], whatever the files hold. *)
Theorem train_index_out_of_range fs fdict ldict tr self fs' index :
  TrainHDF5Dataset.__init__ fs fdict ldict tr = h5.Return self →
  ¬ (0 <= index < Z.of_nat (TrainHDF5Dataset.__len__ self))%Z →
  TrainHDF5Dataset.__getitem__ self fs' index = h5.Throw h5.KeyError.
Proof.
  intros Hinit Hidx.
  destruct (train_init_fields _ _ _ _ _ Hinit) as (_ & _ & Hlen & _ & Hit).
  unfold TrainHDF5Dataset.__getitem__, TrainHDF5Dataset.item_at.
  unfold TrainHDF5Dataset.__len__ in Hidx. rewrite Hlen in Hidx.
  destruct (index <? 0)%Z eqn:E; [done|]. apply Z.ltb_ge in E.
  rewrite Hit, lookup_ge_None_2; [done|]. rewrite length_fmap. lia.
Qed.

(** Index -1 on the two-example training set. *)
Lemma train_index_out_of_range_witness :
  ∃ self,
    TrainHDF5Dataset.__init__ files_ab filedict_ab labeldict_ab None
    = h5.Return self ∧
    TrainHDF5Dataset.__getitem__ self files_ab (-1) = h5.Throw h5.KeyError.
Proof.
  assert (∃ self, TrainHDF5Dataset.__init__ files_ab filedict_ab
                    labeldict_ab None = h5.Return self) as [self Hself]
    by (eexists; reflexivity).
  exists self. split; [exact Hself|].
  apply (train_index_out_of_range files_ab filedict_ab labeldict_ab None
           self files_ab (-1) Hself).
  intros [H _]. by apply H.
Defined.

Lemma list_get_negative {A} (l : list A) (i : Z) :
  (- Z.of_nat (length l) <= i < 0)%Z →
  h5.list_get l i = h5.list_get l (Z.of_nat (length l) + i).
Proof.
  intros Hi. unfold h5.list_get. cbv zeta.
  assert ((i <? 0)%Z = true) as -> by (apply Z.ltb_lt; lia).
  assert ((Z.of_nat (length l) + i <? 0)%Z = false) as E
    by (apply Z.ltb_ge; lia).
  rewrite E. cbv iota. by rewrite E.
Qed.

(** X16: [HDF5Dataset.__getitem__] indexes a Python list: an index in
    [-len, 0) counts from the end and gives what [len + index] gives. *)
Theorem hdf5_negative_index_wraps self fs index :
  (- Z.of_nat (length (HDF5Dataset.fnames self)) <= index < 0)%Z →
  HDF5Dataset.__getitem__ self fs index =
  HDF5Dataset.__getitem__ self fs
    (Z.of_nat (length (HDF5Dataset.fnames self)) + index).
Proof.
  intros Hi. unfold HDF5Dataset.__getitem__.
  destruct (HDF5Dataset.open_handles self fs) as [opened self1] eqn:E.
  assert (HDF5Dataset.fnames self1 = HDF5Dataset.fnames self) as Hf.
  { unfold HDF5Dataset.open_handles in E.
    destruct (HDF5Dataset.dataset self); [by injection E as _ <-|].
    destruct (h5.open_data _ _); [|by injection E as _ <-].
    destruct (h5.open_labels _ _); by injection E as _ <-. }
  rewrite Hf. by rewrite list_get_negative.
Qed.


(** Index -1 on the two-example dataset is index 1. *)
Lemma hdf5_negative_index_wraps_witness :
  HDF5Dataset.__init__ files_ab "d.h5" "l.h5" ["a"%string; "b"%string] None
  = h5.Return dataset_ab ∧
  HDF5Dataset.__getitem__ dataset_ab files_ab (-1) =
  HDF5Dataset.__getitem__ dataset_ab files_ab 1.
Proof.
  split; [reflexivity|].
  apply (hdf5_negative_index_wraps dataset_ab files_ab (-1)).
  simpl. lia.
Defined.

Lemma hdf5_init_fields fs p q fnames tr self :
  HDF5Dataset.__init__ fs p q fnames tr = h5.Return self →
  ∃ d, self = HDF5Dataset.mk p q fnames None None (length fnames) tr d.
Proof.
  unfold HDF5Dataset.__init__. intros H.
  apply outcome_bind_Return in H as (st & _ & H).
  apply outcome_bind_Return in H as (ls & _ & H).
  apply outcome_bind_Return in H as (k & _ & H).
  apply outcome_bind_Return in H as (arr & _ & H).
  injection H as <-. eauto.
Qed.

Lemma open_handles_cached self fs d :
  HDF5Dataset.dataset self = Some d →
  HDF5Dataset.open_handles self fs = (h5.Return (), self).
Proof. intros H. unfold HDF5Dataset.open_handles. by rewrite H. Qed.

(** X17: once [HDF5Dataset.__getitem__] has returned an example, the
    object holds both files open.  Later calls open nothing: their
    result does not depend on which files can be opened then, they leave
    the object as it is, and the same index gives the same example. *)
Theorem handles_opened_once self fs index e self' :
  HDF5Dataset.__getitem__ self fs index = (h5.Return e, self') →
  is_Some (HDF5Dataset.dataset self') ∧
  is_Some (HDF5Dataset.label_dataset self') ∧
  ∀ fs',
    HDF5Dataset.__getitem__ self' fs' index = (h5.Return e, self') ∧
    ∀ j, HDF5Dataset.__getitem__ self' fs' j
         = HDF5Dataset.__getitem__ self' fs j ∧
         (HDF5Dataset.__getitem__ self' fs' j).2 = self'.
Proof.
  unfold HDF5Dataset.__getitem__ at 1.
  destruct (HDF5Dataset.open_handles self fs) as [opened self1] eqn:Eopen.
  intros H. injection H as Hret ->.
  destruct opened as [[]|err]; [|discriminate Hret].
  rewrite outcome_bind_l in Hret.
  destruct (HDF5Dataset.dataset self') as [d|] eqn:Ed.
  2:{ apply outcome_bind_Return in Hret as (? & _ & ?). discriminate. }
  destruct (HDF5Dataset.label_dataset self') as [l|] eqn:El.
  2:{ apply outcome_bind_Return in Hret as (fname & _ & Hret).
      unfold h5.read_example in Hret.
      apply outcome_bind_Return in Hret as (? & _ & Hret).
      apply outcome_bind_Return in Hret as (? & ? & _). discriminate. }
  split; [eauto|]. split; [eauto|].
  assert (∀ fs' j, HDF5Dataset.__getitem__ self' fs' j =
    (fname ← h5.list_get (HDF5Dataset.fnames self') j;
     h5.read_example d (Some l) (HDF5Dataset._transform self') fname, self'))
    as Hget.
  { intros fs' j. unfold HDF5Dataset.__getitem__.
    rewrite (open_handles_cached self' fs' d Ed), outcome_bind_l.
    by rewrite Ed, El. }
  intros fs'. split; [by rewrite Hget, Hret|].
  intros j. by rewrite !Hget.
Qed.

(** After index 0 was read with the files in place, index 1 is read with
    no file left. *)
Lemma handles_opened_once_witness :
  ∃ e self',
    HDF5Dataset.__getitem__ dataset_ab files_ab 0 = (h5.Return e, self') ∧
    HDF5Dataset.__getitem__ self' (h5.mk_filesystem ∅ ∅) 1
    = HDF5Dataset.__getitem__ self' files_ab 1.
Proof.
  eexists _, _. split; [reflexivity|].
  eapply (handles_opened_once dataset_ab files_ab 0). reflexivity.
Defined.

(** X18: if at the first access the feature file opens and the label file
    does not, [HDF5Dataset.__getitem__] raises [OSError] and keeps the
    feature file it had already assigned.  From then on the guard
    [self.dataset is None] is false, the label file is never opened, and
    every call raises, whatever files exist by then. *)
Theorem failed_label_open_sticks self fs index :
  HDF5Dataset.dataset self = None →
  HDF5Dataset.label_dataset self = None →
  is_Some (h5.data_files fs !! HDF5Dataset._h5file self) →
  h5.label_files fs !! HDF5Dataset._h5label self = None →
  ∃ self1,
    HDF5Dataset.__getitem__ self fs index = (h5.Throw h5.OSError, self1) ∧
    HDF5Dataset.dataset self1 = h5.data_files fs !! HDF5Dataset._h5file self ∧
    HDF5Dataset.label_dataset self1 = None ∧
    ∀ fs' j, ∃ err,
      HDF5Dataset.__getitem__ self1 fs' j = (h5.Throw err, self1).
Proof.
  intros Hd Hl [d Hfile] Hlab.
  exists (HDF5Dataset.set_dataset self d).
  assert (HDF5Dataset.open_handles self fs
          = (h5.Throw h5.OSError, HDF5Dataset.set_dataset self d)) as Hopen.
  { unfold HDF5Dataset.open_handles, h5.open_data, h5.open_labels.
    by rewrite Hd, Hfile, Hlab. }
  split_and!.
  - unfold HDF5Dataset.__getitem__. by rewrite Hopen.
  - by rewrite Hfile.
  - done.
  - intros fs' j. unfold HDF5Dataset.__getitem__.
    rewrite (open_handles_cached (HDF5Dataset.set_dataset self d) fs' d
               eq_refl), outcome_bind_l.
    simpl. rewrite Hl.
    destruct (h5.list_get (HDF5Dataset.fnames self) j) as [fname|err];
      [|by eexists].
    rewrite outcome_bind_l. unfold h5.read_example.
    destruct (h5.get_data d fname) as [arr|err]; by eexists.
Qed.

(** The two-example dataset read while the label file is missing, then
    read again with the file in place. *)
Lemma failed_label_open_sticks_witness :
  ∃ self1,
    HDF5Dataset.__getitem__ dataset_ab files_no_labels 0
    = (h5.Throw h5.OSError, self1) ∧
    ∃ err, HDF5Dataset.__getitem__ self1 files_ab 0 = (h5.Throw err, self1).
Proof.
  destruct (failed_label_open_sticks dataset_ab files_no_labels 0)
    as (self1 & H1 & _ & _ & H2); try reflexivity.
  - by eexists.
  - exists self1. split; [exact H1|]. apply H2.
Defined.




(** X20: the two labelled datasets built over the same identifiers, with
    every identifier of the training dicts mapped to the files the
    [HDF5Dataset] was given, agree on every index in range: the first
    access of the [HDF5Dataset] gives what [TrainHDF5Dataset] gives, an
    example or an exception, whatever the files hold at that time. *)
Theorem labelled_datasets_agree
    fs fdict ldict p q tr selfT selfH fs' i :
  TrainHDF5Dataset.__init__ fs fdict ldict tr = h5.Return selfT →
  HDF5Dataset.__init__ fs p q ldict.*1 tr = h5.Return selfH →
  (∀ fname, fname ∈ ldict.*1 →
     h5.dict_lookup fdict fname = Some p ∧
     h5.dict_lookup ldict fname = Some q) →
  (0 <= i < Z.of_nat (length ldict))%Z →
  (HDF5Dataset.__getitem__ selfH fs' i).1
  = TrainHDF5Dataset.__getitem__ selfT fs' i.
Proof.
  intros HT HH Hfiles Hi.
  destruct (train_init_fields _ _ _ _ _ HT) as (Hf & Hl & _ & Htr & Hidx).
  destruct (hdf5_init_fields _ _ _ _ _ _ HH) as [d ->].
  destruct (lookup_lt_is_Some_2 ldict.*1 (Z.to_nat i)) as [fname Hfname].
  { rewrite length_fmap. lia. }
  destruct (Hfiles fname) as [Hp Hq]; [by apply (list_elem_of_lookup_2 _ (Z.to_nat i))|].
  assert ((i <? 0)%Z = false) as E by (apply Z.ltb_ge; lia).
  unfold TrainHDF5Dataset.__getitem__, TrainHDF5Dataset.item_at.
  rewrite E, Hidx, Hfname, outcome_bind_l, Hf, Hl.
  unfold h5.dict_get. rewrite Hp, Hq, !outcome_bind_l, Htr.
  unfold HDF5Dataset.__getitem__, HDF5Dataset.open_handles. simpl.
  destruct (h5.open_data fs' p) as [ds|err]; [|done].
  destruct (h5.open_labels fs' q) as [ls|err]; [|done].
  simpl. unfold h5.list_get. cbv zeta. rewrite E. cbv iota.
  by rewrite E, Hfname.
Qed.

(** Index 1 of the two-example stores. *)
Lemma labelled_datasets_agree_witness :
  ∃ selfT,
    TrainHDF5Dataset.__init__ files_ab filedict_ab labeldict_ab None
    = h5.Return selfT ∧
    (HDF5Dataset.__getitem__ dataset_ab files_ab 1).1
    = TrainHDF5Dataset.__getitem__ selfT files_ab 1.
Proof.
  assert (∃ self, TrainHDF5Dataset.__init__ files_ab filedict_ab
                    labeldict_ab None = h5.Return self) as [selfT HT]
    by (eexists; reflexivity).
  exists selfT. split; [exact HT|].
  apply (labelled_datasets_agree files_ab filedict_ab labeldict_ab
           "d.h5" "l.h5" None selfT dataset_ab files_ab 1 HT).
  - reflexivity.
  - intros fname [->|[->|[]%elem_of_nil]%elem_of_cons]%elem_of_cons;
      split; reflexivity.
  - simpl. lia.
Defined.

End dataset_facts.
